(** * Polaris agent system: a shallow embedding of the router core

    The development follows the Python sources of the repository:

    - [polaris/tools/__init__.py]     the tool registry ([Tools]);
    - [polaris/tools/hpc_tools.py]    a tool handler ([HpcTools]);
    - [polaris/skills/registry.py]    skill matching ([Skill]);
    - [polaris/router.py]             skill enforcement and the ReAct loop
                                      ([Router], [ToolErrors]);
    - [polaris/approval_gate.py]      the risk-gated execution ([ApprovalGate]);
    - [rlm_wrapper.py]                the ensemble voter ([Ensemble]);
    - [polaris/memory/embedder.py]    packing of embeddings ([Embedder]);
    - [polaris/memory/memory.py]      semantic and keyword search ([Memory]);
    - [polaris/tools/__init__.py]     tool discovery ([Discovery]);
    - [rlm_wrapper.py]                contradictions, the wrapper and the
                                      daily counter ([Wrapper], [SSHStealth]);
    - [polaris/trace_logger.py]       the audit trail ([TraceLogger]);
    - [polaris/bot_v2.py]             the message handler ([Bot]).

    Python [str] values are Rocq [string]s: sequences of 8-bit characters,
    a non-ASCII character being carried as its UTF-8 bytes.  The model of
    [str.lower] folds the ASCII letters only, which is all the substring
    tests of the sources look at (their patterns are ASCII).

    A Python call either returns a value or raises: [Py A]. *)

From Stdlib Require Import String Ascii List ZArith NArith QArith Qabs Bool Lia.
From Stdlib Require Import Permutation Sorted DecimalString.
From stdpp Require Import gmap strings.
From Equations Require Import Equations.

Import ListNotations.
Local Open Scope string_scope.
Local Open Scope list_scope.

(** ** Python values: results and exceptions *)

Inductive ExcClass := ImportError | OtherException.

Inductive Py (A : Type) : Type :=
| Ret (a : A)
| Exc (cls : ExcClass) (msg : string).

Arguments Ret {A} a.
Arguments Exc {A} cls msg.

(** ** Python strings *)

Module PyStr.

(** The double quote character and the backslash, as one-character strings. *)
Definition dq : string := String (ascii_of_nat 34) EmptyString.
Definition bs : string := String (ascii_of_nat 92) EmptyString.

Definition lower_char (c : ascii) : ascii :=
  let n := nat_of_ascii c in
  if (65 <=? n)%nat && (n <=? 90)%nat then ascii_of_nat (n + 32) else c.

(** [s.lower()] *)
Fixpoint lower (s : string) : string :=
  match s with
  | EmptyString => EmptyString
  | String c s' => String (lower_char c) (lower s')
  end.

(** [needle in hay] on strings *)
Fixpoint py_in (needle hay : string) : bool :=
  String.prefix needle hay ||
  match hay with
  | EmptyString => false
  | String _ hay' => py_in needle hay'
  end.

(** [any(p(x) for x in l)] *)
Definition any {A} (p : A -> bool) (l : list A) : bool := existsb p l.

(** [x in l] on lists of strings *)
Definition mem (x : string) (l : list string) : bool := existsb (String.eqb x) l.

(** [sep.join(l)] *)
Definition join (sep : string) (l : list string) : string := String.concat sep l.

(** [s[:n]] for a non-negative constant [n] *)
Definition take (n : nat) (s : string) : string := String.substring 0 n s.

(** [not s], the truth value of a string *)
Definition is_empty (s : string) : bool :=
  match s with EmptyString => true | _ => false end.

(** [a or b] on strings *)
Definition or_else (a b : string) : string := if is_empty a then b else a.

(** [p] occurs in [s] as a contiguous substring. *)
Definition occurs_in (p s : string) : Prop := exists a b, s = a +:+ p +:+ b.

Lemma prefix_spec (p s : string) :
  String.prefix p s = true <-> exists b, s = p +:+ b.
Proof.
  revert s; induction p as [|c p IH]; intros s; simpl.
  - split; [intros _; exists s; reflexivity | intros _; destruct s; reflexivity].
  - destruct s as [|d s]; simpl.
    + split; [discriminate | intros [b Hb]; discriminate].
    + destruct (Ascii.ascii_dec c d) as [->|Hne].
      * rewrite IH. split; intros [b Hb]; exists b; [now rewrite Hb | now inversion Hb].
      * split; [discriminate | intros [b Hb]; inversion Hb; congruence].
Qed.

Lemma py_in_spec (p s : string) : py_in p s = true <-> occurs_in p s.
Proof.
  unfold occurs_in. induction s as [|c s IH]; cbn [py_in].
  - rewrite orb_false_r, prefix_spec. split.
    + intros [b Hb]. exists EmptyString, b. exact Hb.
    + intros [a [b Hab]]. destruct a as [|x a]; [exists b; exact Hab | discriminate].
  - rewrite orb_true_iff, prefix_spec, IH. split.
    + intros [[b Hb] | [a [b Hab]]].
      * exists EmptyString, b. exact Hb.
      * exists (String c a), b. simpl. now rewrite Hab.
    + intros [a [b Hab]]. destruct a as [|x a]; simpl in Hab.
      * left. exists b. exact Hab.
      * right. exists a, b. now inversion Hab.
Qed.

Lemma py_in_false (p s : string) : py_in p s = false <-> ~ occurs_in p s.
Proof.
  rewrite <- py_in_spec. destruct (py_in p s); split; intros H;
    try reflexivity; try discriminate; try (intros H'; discriminate).
  exfalso; now apply H.
Qed.

Lemma append_assoc (a b c : string) : (a +:+ b) +:+ c = a +:+ (b +:+ c).
Proof.
  induction a as [|x a IH]; [reflexivity|].
  change (String x ((a +:+ b) +:+ c) = String x (a +:+ (b +:+ c))). now rewrite IH.
Qed.

Lemma lower_app (a b : string) : lower (a +:+ b) = lower a +:+ lower b.
Proof. induction a as [|c a IH]; simpl; [reflexivity | now rewrite IH]. Qed.

Lemma lower_char_idempotent (c : ascii) : lower_char (lower_char c) = lower_char c.
Proof.
  unfold lower_char.
  destruct ((65 <=? nat_of_ascii c)%nat && (nat_of_ascii c <=? 90)%nat) eqn:Hc.
  - apply andb_true_iff in Hc. destruct Hc as [H1 H2].
    apply Nat.leb_le in H1, H2.
    rewrite nat_ascii_embedding by lia.
    replace (nat_of_ascii c + 32 <=? 90)%nat with false
      by (symmetry; apply Nat.leb_gt; lia).
    now rewrite andb_false_r.
  - now rewrite Hc.
Qed.

Lemma lower_idempotent (s : string) : lower (lower s) = lower s.
Proof.
  induction s as [|c s IH]; cbn; [reflexivity|].
  now rewrite lower_char_idempotent, IH.
Qed.

Lemma occurs_in_app (p a b : string) : occurs_in p (a +:+ p +:+ b).
Proof. now exists a, b. Qed.

End PyStr.

(** ** [json.dumps] on strings (default [ensure_ascii=True]) *)

Module Json.
Import PyStr.

Definition hex_digit (n : N) : ascii :=
  (if n <? 10 then ascii_of_N (48 + n) else ascii_of_N (87 + n))%N.

(** [format(n, '04x')] for a UTF-16 code unit *)
Definition hex4 (n : N) : string :=
  String (hex_digit (n / 4096 mod 16))
    (String (hex_digit (n / 256 mod 16))
       (String (hex_digit (n / 16 mod 16))
          (String (hex_digit (n mod 16)) EmptyString))).

Definition u_escape (n : N) : string := bs +:+ "u" +:+ hex4 n.

(** A code point outside the basic plane is written as a surrogate pair. *)
Definition escape_code_point (cp : N) : string :=
  (if cp <? 65536 then u_escape cp
   else
     let v := cp - 65536 in
     u_escape (55296 + v / 1024) +:+ u_escape (56320 + v mod 1024))%N.

(** The escape of one ASCII character. *)
Definition escape_ascii (n : N) (c : ascii) : string :=
  (if n =? 34 then bs +:+ dq
   else if n =? 92 then bs +:+ bs
   else if n =? 10 then bs +:+ "n"
   else if n =? 13 then bs +:+ "r"
   else if n =? 9 then bs +:+ "t"
   else if n =? 8 then bs +:+ "b"
   else if n =? 12 then bs +:+ "f"
   else if (n <? 32) || (n =? 127) then u_escape n
   else String c EmptyString)%N.

Definition is_cont (c : ascii) : bool :=
  let n := N_of_ascii c in ((128 <=? n) && (n <? 192))%N.

Definition low6 (c : ascii) : N := (N_of_ascii c mod 64)%N.

(** The body of a JSON string: the UTF-8 bytes are decoded to code points
    and every character outside [' '..'~'] is escaped. *)
Fixpoint escape (s : string) : string :=
  match s with
  | EmptyString => EmptyString
  | String c rest =>
    let n := N_of_ascii c in
    if (n <? 128)%N then escape_ascii n c +:+ escape rest
    else
      match rest with
      | String c2 rest2 =>
        if ((192 <=? n) && (n <? 224))%N && is_cont c2 then
          escape_code_point ((n mod 32) * 64 + low6 c2)%N +:+ escape rest2
        else
          match rest2 with
          | String c3 rest3 =>
            if ((224 <=? n) && (n <? 240))%N && is_cont c2 && is_cont c3 then
              escape_code_point ((n mod 16) * 4096 + low6 c2 * 64 + low6 c3)%N
                +:+ escape rest3
            else
              match rest3 with
              | String c4 rest4 =>
                if ((240 <=? n) && (n <? 248))%N
                   && is_cont c2 && is_cont c3 && is_cont c4 then
                  escape_code_point
                    ((n mod 8) * 262144 + low6 c2 * 4096 + low6 c3 * 64 + low6 c4)%N
                    +:+ escape rest4
                else u_escape n +:+ escape rest
              | EmptyString => u_escape n +:+ escape rest
              end
          | EmptyString => u_escape n +:+ escape rest
          end
      | EmptyString => u_escape n
      end
  end.

(** [json.dumps(s)] for a string [s] *)
Definition dumps_str (s : string) : string := dq +:+ escape s +:+ dq.

(** [json.dumps({"error": msg})] *)
Definition dumps_error (msg : string) : string :=
  "{" +:+ dumps_str "error" +:+ ": " +:+ dumps_str msg +:+ "}".

(** A JSON error string: the serialisation of an object whose only key is
    ["error"], bound to a string. *)
Definition is_error_string (s : string) : Prop :=
  exists msg, s = dumps_error msg.

End Json.

(** ** The tool registry ([polaris/tools/__init__.py]) *)

Module Tools.
Section Registry.
(** [World] is the state the handlers act on (mail box, HPC cluster,
    network, ...); [Args] is the type of argument dicts. *)
Context {World Args : Type}.

(** A handler, called as [handler( **args )]: it returns a string or raises. *)
Definition Handler : Type := Args -> World -> World * Py string.

(** [_HANDLERS]: tool name to handler. *)
Variable _HANDLERS : gmap string Handler.

Definition execute_tool (name : string) (args : Args) (w : World)
  : World * Py string :=
  match _HANDLERS !! name with
  | None => (w, Ret (Json.dumps_error ("Unknown tool: " +:+ name)))
  | Some handler => handler args w
  end.

End Registry.
End Tools.

(** ** A tool handler ([polaris/tools/hpc_tools.py]) *)

Module HpcTools.
Import PyStr.

(** Keyword arguments: the items of the argument dict, in order. *)
Definition Kwargs : Type := list (string * string).

Fixpoint kw_get (key : string) (kwargs : Kwargs) : option string :=
  match kwargs with
  | [] => None
  | (k, v) :: rest => if String.eqb k key then Some v else kw_get key rest
  end.

(** The first keyword that the function does not take. *)
Fixpoint first_unexpected (params : list string) (kwargs : Kwargs) : option string :=
  match kwargs with
  | [] => None
  | (k, _) :: rest => if mem k params then first_unexpected params rest else Some k
  end.

(** The call [handle_monitor_hpc_job( **kwargs )] binds [job_id], [path]
    and the optional [cluster]; it raises [TypeError] otherwise. *)
Definition bind_monitor_hpc_job (kwargs : Kwargs) : Py (string * string * string) :=
  match first_unexpected ["job_id"; "path"; "cluster"] kwargs with
  | Some k =>
    Exc OtherException
        ("handle_monitor_hpc_job() got an unexpected keyword argument '" +:+ k +:+ "'")
  | None =>
    match kw_get "job_id" kwargs, kw_get "path" kwargs with
    | Some job_id, Some path =>
      Ret (job_id, path, default "" (kw_get "cluster" kwargs))
    | None, None =>
      Exc OtherException
          ("handle_monitor_hpc_job() missing 2 required positional arguments: "
           +:+ "'job_id' and 'path'")
    | None, Some _ =>
      Exc OtherException
          "handle_monitor_hpc_job() missing 1 required positional argument: 'job_id'"
    | Some _, None =>
      Exc OtherException
          "handle_monitor_hpc_job() missing 1 required positional argument: 'path'"
    end
  end.

Section Handlers.

Context {World : Type}.

(** [_PhysicsMonitor]: [None] when [hpc_monitor] could not be imported
    ([_import_error] says why); otherwise [monitor_job job_id path cluster]
    acts on the world and gives the JSON text of its result, or raises. *)
Variable _PhysicsMonitor :
  option (string -> string -> option string -> World -> World * Py string).
Variable _import_error : string.

Definition handle_monitor_hpc_job : @Tools.Handler World Kwargs :=
  fun kwargs w =>
    match bind_monitor_hpc_job kwargs with
    | Exc cls e => (w, Exc cls e)
    | Ret (job_id, path, cluster) =>
      match _PhysicsMonitor with
      | None =>
        (w, Ret (Json.dumps_error ("PhysicsMonitor unavailable: " +:+ _import_error)))
      | Some monitor_job =>
        match monitor_job job_id path
                          (if is_empty cluster then None else Some cluster) w with
        | (w', Ret text) => (w', Ret text)
        | (w', Exc _ e) => (w', Ret (Json.dumps_error e))
        end
      end
    end.

(** [HANDLERS], as far as this development goes. *)
Definition HANDLERS : gmap string (@Tools.Handler World Kwargs) :=
  {[ "monitor_hpc_job" := handle_monitor_hpc_job ]}.

End Handlers.
End HpcTools.

(** ** The router ([polaris/router.py]) *)

Module ToolDef.
(** A tool definition dict: [{"name", "description", "input_schema"}].
    Of the schema the router reads the ["required"] list only; the rest
    of it is carried as its text. *)
Record Schema := { required : option (list string); properties : string }.
Record t := {
  name : string;
  description : option string;
  input_schema : option Schema;
}.
End ToolDef.

Module Skill.
(** A skill info dict as the skill registry indexes it, with the types
    the skill loader gives its values.  A key that the dict lacks is
    [None]. *)
Record t := {
  name : string;
  triggers : list string;
  requires_tool : option bool;
  strict_mode : option bool;
  tool_chain : option (list string);
  tools_required : option (list string);
}.

(** [SkillRegistry.match] ([polaris/skills/registry.py]); the index is
    given by its values, in insertion order. *)
Definition match_skills (index : list t) (message : string) : list t :=
  if PyStr.is_empty message then []
  else
    let msg_lower := PyStr.lower message in
    List.filter
      (fun skill_info =>
         PyStr.any (fun trigger => PyStr.py_in (PyStr.lower trigger) msg_lower)
           (triggers skill_info))
      index.
End Skill.

Module Router.
Import PyStr.

Definition MAX_ITERATIONS : Z := 10.
Definition OLLAMA_MODEL_FAST : string := "llama3.1:8b".
Definition OLLAMA_MODEL_FULL : string := "llama70b-lite".

(** *** Tool selection *)

Record OpenAITool := {
  fn_name : string;
  fn_description : string;
  fn_parameters : ToolDef.Schema;
}.

Definition empty_schema : ToolDef.Schema :=
  {| ToolDef.required := None; ToolDef.properties := "{}" |}.

Definition _convert_tools_to_openai_format (anthropic_tools : list ToolDef.t)
  : list OpenAITool :=
  map (fun tool =>
         {| fn_name := ToolDef.name tool;
            fn_description := default "" (ToolDef.description tool);
            fn_parameters := default empty_schema (ToolDef.input_schema tool) |})
      anthropic_tools.

Definition TOOL_KEYWORDS : gmap string (list string) :=
  list_to_map [
    ("search_arxiv", ["arxiv"; "paper"; "논문"; "검색"; "연구"; "search"]);
    ("search_semantic_scholar", ["paper"; "논문"; "semantic"; "scholar"; "검색"]);
    ("download_paper_pdf", ["download"; "pdf"; "다운로드"; "다운"]);
    ("analyze_paper_gemini", ["analyze"; "분석"; "paper"; "논문"]);
    ("analyze_paper_claude", ["analyze"; "분석"; "paper"; "논문"]);
    ("get_calendar_briefing",
       ["calendar"; "schedule"; "일정"; "캘린더"; "스케줄"; "오늘 일정"; "내일 일정"]);
    ("add_calendar_event", ["calendar"; "event"; "일정 추가"; "약속 추가"; "일정 등록"]);
    ("analyze_emails", ["email"; "mail"; "이메일"; "메일"]);
    ("analyze_single_email", ["email"; "mail"; "이메일"; "메일"]);
    ("fetch_mail_digest", ["메일"; "이메일"; "요약"; "digest"; "inbox"]);
    ("fetch_urgent_mails", ["긴급"; "urgent"; "메일"; "이메일"]);
    ("fetch_promo_deals", ["딜"; "프로모션"; "할인"; "coupon"; "deal"]);
    ("propose_mail_actions", ["메일 정리"; "정리"; "archive"; "라벨"; "actions"]);
    ("execute_mail_actions", ["정리 실행"; "archive"; "라벨 적용"; "mark read"]);
    ("monitor_hpc_job", ["hpc"; "job"; "vasp"; "계산"; "클러스터"; "잡"]);
    ("check_hpc_connection", ["hpc"; "connection"; "ssh"; "폴라리스"; "서버"]);
    ("physics_agent_handle", ["physics"; "물리"; "vasp"; "dft"; "시뮬레이션"]);
    ("phd_agent_handle", ["phd"; "박사"; "연구 진행"])
  ].

Definition _select_relevant_tools (tools : list ToolDef.t) (message : string)
  : list ToolDef.t :=
  let msg_lower := lower message in
  List.filter
    (fun tool =>
       let keywords := default [] (TOOL_KEYWORDS !! ToolDef.name tool) in
       any (fun kw => py_in kw msg_lower) keywords)
    tools.

Definition _get_tools_by_name (tools : list ToolDef.t) (tool_names : list string)
  : list ToolDef.t :=
  List.filter (fun tool => mem (ToolDef.name tool) tool_names) tools.

(** *** Skill enforcement *)

Record Enforcement := {
  requires_tool : bool;
  strict_mode : bool;
  allowed_tools : list string;
  chain_tools : list string;
  preflight_tools : list string;
}.

(** [if name not in l: l.append(name)] *)
Definition append_new (l : list string) (name : string) : list string :=
  if mem name l then l else l ++ [name].

(** [{t["name"]: t for t in self.tools}]: a later tool of the same name
    replaces an earlier one. *)
Definition known_tools_of (tools : list ToolDef.t) : gmap string ToolDef.t :=
  fold_left (fun m t => <[ToolDef.name t := t]> m) tools ∅.

(** One turn of the inner loop [for name in ordered]. *)
Definition enforce_name (known_tools : gmap string ToolDef.t)
           (e : Enforcement) (name : string) : Enforcement :=
  let allowed := append_new (allowed_tools e) name in
  let chain := append_new (chain_tools e) name in
  let preflight :=
    match known_tools !! name with
    | None => preflight_tools e
    | Some tool_def =>
      let required :=
        default [] (ToolDef.required
                      (default empty_schema (ToolDef.input_schema tool_def))) in
      match required with
      | [] => append_new (preflight_tools e) name
      | _ :: _ => preflight_tools e
      end
    end in
  {| requires_tool := requires_tool e;
     strict_mode := strict_mode e;
     allowed_tools := allowed;
     chain_tools := chain;
     preflight_tools := preflight |}.

(** [tool_chain if tool_chain else tools_required], each [... or []]. *)
Definition ordered_tools (skill : Skill.t) : list string :=
  match default [] (Skill.tool_chain skill) with
  | [] => default [] (Skill.tools_required skill)
  | tool_chain => tool_chain
  end.

(** One turn of the outer loop [for skill in matched_skills]. *)
Definition enforce_skill (known_tools : gmap string ToolDef.t)
           (e : Enforcement) (skill : Skill.t) : Enforcement :=
  if negb (default false (Skill.requires_tool skill)) then e
  else
    let e1 :=
      {| requires_tool := true;
         strict_mode := strict_mode e || default true (Skill.strict_mode skill);
         allowed_tools := allowed_tools e;
         chain_tools := chain_tools e;
         preflight_tools := preflight_tools e |} in
    fold_left (enforce_name known_tools) (ordered_tools skill) e1.

Definition no_enforcement : Enforcement :=
  {| requires_tool := false; strict_mode := false;
     allowed_tools := []; chain_tools := []; preflight_tools := [] |}.

Definition _resolve_skill_enforcement (tools : list ToolDef.t)
           (matched_skills : list Skill.t) : Enforcement :=
  fold_left (enforce_skill (known_tools_of tools)) matched_skills no_enforcement.

(** [_looks_like_tool_error] *)
Definition _looks_like_tool_error (result_text : string) : bool :=
  let lower := lower result_text in
  (py_in "tool '" lower && py_in "failed" lower)
  || py_in (dq +:+ "error" +:+ dq) lower
  || py_in "'error'" lower.

(** *** The ReAct loop *)

(** What [route] returns: [{"response": ..., "tools_used": ...}]. *)
Record RouteResult := { response : string; tools_used : list string }.

(** One entry of [tool_calls] in an OpenAI-style chat completion. *)
Record ToolCall := { call_id : string; call_name : string; call_arguments : string }.

(** [choice.message]: [content] and [tool_calls] may each be [None]. *)
Record ChatMessage := {
  content : option string;
  tool_calls : option (list ToolCall);
}.

(** [response.choices[0]] *)
Record Choice := { finish_reason : string; message : ChatMessage }.

(** The transcript sent to the OpenAI-compatible backend. *)
Inductive Message :=
| MsgSystem (text : string)
| MsgHistory (role text : string)
| MsgUser (text : string)
| MsgAssistant (m : ChatMessage)
| MsgTool (tool_call_id text : string).

(** The keyword arguments of [client.chat.completions.create]. *)
Record Request := {
  req_model : string;
  req_messages : list Message;
  req_max_tokens : Z;
  req_tools : option (list OpenAITool);
}.

(** What the call does: it raises one of the two exceptions the loop
    catches, or it answers with a choice. *)
Inductive Completion :=
| AuthenticationError
| APIError (e : string)
| Completed (choice : Choice).

(** A content block of a native Anthropic response. *)
Inductive Block {Args : Type} :=
| TextBlock (text : string)
| ToolUseBlock (id name : string) (input : Args)
| OtherBlock.
Arguments Block Args : clear implicits.

Record AnthropicResponse {Args : Type} := {
  stop_reason : string;
  blocks : list (Block Args);
}.
Arguments AnthropicResponse Args : clear implicits.

Inductive AnthropicMessage {Args : Type} :=
| AMsgHistory (role text : string)
| AMsgUser (text : string)
| AMsgAssistant (bs : list (Block Args))
| AMsgToolResults (results : list (string * string)).
Arguments AnthropicMessage Args : clear implicits.

Record AnthropicRequest {Args : Type} := {
  areq_model : string;
  areq_max_tokens : Z;
  areq_system : string;
  areq_tools : option (list ToolDef.t);
  areq_messages : list (AnthropicMessage Args);
}.
Arguments AnthropicRequest Args : clear implicits.

Inductive AnthropicCompletion {Args : Type} :=
| AAuthenticationError
| AAPIError (e : string)
| ACompleted (r : AnthropicResponse Args).
Arguments AnthropicCompletion Args : clear implicits.

(** How a turn ended.  This and the list of executed tools below are not
    part of what the Python function returns: they record what happened
    during the turn, so that properties of a turn can be stated. *)
Inductive Exit :=
| ExitPaidBlocked                  (* anthropic backend without the opt-in *)
| ExitNoSkillTools                 (* requires_tool and no relevant tool *)
| ExitAuthError
| ExitAPIError
| ExitFinal (final_text : string)  (* a response without tool calls *)
| ExitExhausted                    (* max_iterations reached *)
| ExitRaised.                      (* an exception left the function *)

Record Run {World : Type} := {
  result : Py RouteResult;
  exit : Exit;
  executed : list (string * string);   (* tool name, result text; in order *)
  llm_calls : nat;
  world : World;
}.
Arguments Run World : clear implicits.

(** The fields of the router object that a turn reads. *)
Record Config := {
  backend : string;
  allow_paid : bool;
  model : string;
  model_fast : string;
  model_full : string;
  max_iterations : Z;
  tools : list ToolDef.t;
  skill_registry : option (list Skill.t);
}.

Definition REFUSAL_NO_SKILL_TOOLS : string :=
  "이 요청은 도구 실행이 필수인데, 사용 가능한 스킬 도구를 찾지 못했어. "
  +:+ "스킬 설정(tool_chain/tools_required)을 확인해줘.".

Definition REFUSAL_NO_TOOL_RESULT : string :=
  "이 요청은 도구 실행 결과가 있어야 답변할 수 있어. "
  +:+ "현재 도구 호출이 없었거나 모두 실패해서 추정 답변은 제공하지 않을게.".

Definition PAID_API_BLOCKED : string :=
  "This request requires a paid API (Anthropic). "
  +:+ "Set POLARIS_ALLOW_PAID_API=true to enable, "
  +:+ "or use the default Ollama backend.".

Definition FALLBACK : string :=
  "I was unable to complete the request within the allowed steps.".

Definition nl : string := String (ascii_of_nat 10) EmptyString.

(** The block appended to the system prompt when a tool is required. *)
Definition enforcement_block (chain_tools : list string) : string :=
  let chain := join ", " chain_tools in
  nl +:+ nl +:+ "[SKILL TOOL ENFORCEMENT]" +:+ nl
  +:+ "이 요청은 스킬 정책상 도구 호출이 필수야. "
  +:+ "도구 결과 없이 추정 답변을 만들면 안 돼. "
  +:+ "필수 체인(순서): "
  +:+ (if is_empty chain then "없음" else chain) +:+ "." +:+ nl
  +:+ "필수 인자가 부족하면 임의로 채우지 말고 사용자에게 추가 정보를 요청해.".

(** One result of [_execute_preflight_tools]. *)
Record Preflight := { pf_name : string; pf_content : string; pf_ok : bool }.

Section Turn.

(** The collaborators of a turn.  [World] is everything outside the
    router (the LLM backend, what the tools act on, the memory database);
    [Args] is the type of argument dicts. *)
Context {World Args : Type}.

(** [{}] *)
Variable empty_args : Args.

(** [json.loads] of a tool call's argument text; [None] when it raises
    [JSONDecodeError] or [TypeError]. *)
Variable json_loads : string -> option Args.

(** The handlers of [polaris.tools]; [None] when the package cannot be
    imported. *)
Variable registry : option (gmap string (@Tools.Handler World Args)).

(** [self.client.chat.completions.create] (OpenAI-compatible backend) and
    [self.client.messages.create] (Anthropic backend). *)
Variable chat_completions_create : Request -> World -> World * Completion.
Variable messages_create :
  AnthropicRequest Args -> World -> World * AnthropicCompletion Args.

(** [_build_system_prompt(message, has_tools)]: its text is assembled from
    the persona file, the memory database and the vault, which are outside
    this development; it reads the world and does not raise. *)
Variable _build_system_prompt : string -> bool -> World -> string.

(** The persistence steps that follow a turn in [route] (correction
    detection, conversation save, fact extraction): each is wrapped in
    [try/except Exception], and none touches the result. *)
Variable post_turn :
  string -> option (list (string * string)) -> string -> RouteResult -> World -> World.

Variable cfg : Config.

(** [_execute_tool]: errors come back as text. *)
Definition _execute_tool (name : string) (args : Args) (w : World) : World * string :=
  match registry with
  | None => (w, "Tool execution unavailable (polaris.tools not loaded)")
  | Some handlers =>
    match Tools.execute_tool handlers name args w with
    | (w', Ret res) => (w', res)
    | (w', Exc ImportError _) =>
      (w', "Tool execution unavailable (polaris.tools not loaded)")
    | (w', Exc OtherException e) =>
      (w', "Tool '" +:+ name +:+ "' failed: " +:+ e)
    end
  end.

Fixpoint _execute_preflight_tools (tool_names : list string) (w : World)
  : World * list Preflight :=
  match tool_names with
  | [] => (w, [])
  | name :: rest =>
    let '(w1, result_text) := _execute_tool name empty_args w in
    let '(w2, results) := _execute_preflight_tools rest w1 in
    (w2, {| pf_name := name;
            pf_content := result_text;
            pf_ok := negb (_looks_like_tool_error result_text) |} :: results)
  end.

(** The variables a turn updates. *)
Record Loop := {
  l_world : World;
  l_tools_used : list string;
  l_successful_tools : list string;
  l_executed : list (string * string);
  l_llm_calls : nat;
}.

Definition returned (st : Loop) (how : Exit) (text : string) : Run World :=
  {| result := Ret {| response := text; tools_used := l_tools_used st |};
     exit := how;
     executed := l_executed st;
     llm_calls := l_llm_calls st;
     world := l_world st |}.

Definition raised (st : Loop) (what : string) : Run World :=
  {| result := Exc OtherException what;
     exit := ExitRaised;
     executed := l_executed st;
     llm_calls := l_llm_calls st;
     world := l_world st |}.

(** The body of [for tool_call in choice.message.tool_calls]. *)
Definition run_tool_call (acc : Loop * list Message) (tool_call : ToolCall)
  : Loop * list Message :=
  let '(st, messages) := acc in
  let tool_name := call_name tool_call in
  let tool_args := default empty_args (json_loads (call_arguments tool_call)) in
  let '(w', result_text) := _execute_tool tool_name tool_args (l_world st) in
  ({| l_world := w';
      l_tools_used := l_tools_used st ++ [tool_name];
      l_successful_tools :=
        if _looks_like_tool_error result_text then l_successful_tools st
        else l_successful_tools st ++ [tool_name];
      l_executed := l_executed st ++ [(tool_name, result_text)];
      l_llm_calls := l_llm_calls st |},
   messages ++ [MsgTool (call_id tool_call) result_text]).

(** [choice.finish_reason == "tool_calls" or
     (choice.message.tool_calls and len(choice.message.tool_calls) > 0)] *)
Definition wants_tools (choice : Choice) : bool :=
  String.eqb (finish_reason choice) "tool_calls"
  || match tool_calls (message choice) with
     | Some (_ :: _) => true
     | _ => false
     end.

(** [for iteration in range(n)] and what follows it; [last] is the
    variable [choice], unbound before the first iteration. *)
Fixpoint react_ollama (enforcement : Enforcement) (active_model : string)
         (openai_tools : option (list OpenAITool))
         (n : nat) (last : option Choice) (messages : list Message) (st : Loop)
  : Run World :=
  match n with
  | O =>
    match last with
    | None =>
      raised st "UnboundLocalError: local variable 'choice' referenced before assignment"
    | Some choice =>
      returned st ExitExhausted
               (or_else (default "" (content (message choice))) FALLBACK)
    end
  | S n' =>
    let request :=
      {| req_model := active_model; req_messages := messages;
         req_max_tokens := 4096; req_tools := openai_tools |} in
    let '(w1, reply) := chat_completions_create request (l_world st) in
    let st1 :=
      {| l_world := w1;
         l_tools_used := l_tools_used st;
         l_successful_tools := l_successful_tools st;
         l_executed := l_executed st;
         l_llm_calls := S (l_llm_calls st) |} in
    match reply with
    | AuthenticationError =>
      returned st1 ExitAuthError
               "Authentication error: please check the API configuration."
    | APIError e => returned st1 ExitAPIError ("API error: " +:+ e)
    | Completed choice =>
      if wants_tools choice then
        match tool_calls (message choice) with
        | None => raised st1 "TypeError: 'NoneType' object is not iterable"
        | Some calls =>
          let '(st2, messages2) :=
            fold_left run_tool_call calls
                      (st1, messages ++ [MsgAssistant (message choice)]) in
          react_ollama enforcement active_model openai_tools n' (Some choice)
                       messages2 st2
        end
      else
        let final_text := default "" (content (message choice)) in
        if requires_tool enforcement
           && match l_successful_tools st1 with [] => true | _ => false end
        then returned st1 (ExitFinal final_text) REFUSAL_NO_TOOL_RESULT
        else returned st1 (ExitFinal final_text) final_text
    end
  end.

(** The preflight results enter [tools_used], [successful_tools] and the
    system prompt. *)
Definition preflight_names (results : list Preflight) : list string :=
  map pf_name results.

Definition preflight_successes (results : list Preflight) : list string :=
  map pf_name (List.filter pf_ok results).

Definition preflight_block (results : list Preflight) : string :=
  match results with
  | [] => ""
  | _ =>
    nl +:+ join nl
       ("[PREFLIGHT TOOL RESULTS]"
          :: map (fun item => "- " +:+ pf_name item +:+ ": "
                                +:+ take 500 (pf_content item)) results)
  end.

(** [self.skill_registry.match(message) if self.skill_registry else []] *)
Definition matched_skills_of (msg : string) : list Skill.t :=
  match skill_registry cfg with
  | Some index => Skill.match_skills index msg
  | None => []
  end.

Definition _route_ollama (msg : string)
           (conversation_history : option (list (string * string))) (w : World)
  : Run World :=
  let matched_skills := matched_skills_of msg in
  let enforcement := _resolve_skill_enforcement (tools cfg) matched_skills in
  let relevant_tools :=
    match requires_tool enforcement, allowed_tools enforcement with
    | true, _ :: _ => _get_tools_by_name (tools cfg) (allowed_tools enforcement)
    | _, _ => _select_relevant_tools (tools cfg) msg
    end in
  let has_tools := match relevant_tools with [] => false | _ => true end in
  let start :=
    {| l_world := w; l_tools_used := []; l_successful_tools := [];
       l_executed := []; l_llm_calls := 0 |} in
  if requires_tool enforcement && negb has_tools then
    returned start ExitNoSkillTools REFUSAL_NO_SKILL_TOOLS
  else
    let openai_tools :=
      if has_tools then Some (_convert_tools_to_openai_format relevant_tools)
      else None in
    let system_prompt :=
      _build_system_prompt msg has_tools w
      +:+ (if requires_tool enforcement
           then enforcement_block (chain_tools enforcement) else "") in
    let '(w1, preflight_results) :=
      _execute_preflight_tools (preflight_tools enforcement) w in
    let system_prompt := system_prompt +:+ preflight_block preflight_results in
    let messages :=
      [MsgSystem system_prompt]
        ++ map (fun m => MsgHistory (fst m) (snd m)) (default [] conversation_history)
        ++ [MsgUser msg] in
    let active_model := if has_tools then model_full cfg else model_fast cfg in
    react_ollama enforcement active_model openai_tools
                 (Z.to_nat (max_iterations cfg)) None messages
                 {| l_world := w1;
                    l_tools_used := preflight_names preflight_results;
                    l_successful_tools := preflight_successes preflight_results;
                    l_executed :=
                      map (fun item => (pf_name item, pf_content item))
                          preflight_results;
                    l_llm_calls := 0 |}.

(** *** The Anthropic backend *)

(** The body of [for block in response.content]. *)
Definition run_tool_use (acc : Loop * list (string * string)) (block : Block Args)
  : Loop * list (string * string) :=
  let '(st, tool_results) := acc in
  match block with
  | ToolUseBlock tool_use_id tool_name tool_input =>
    let '(w', result_text) := _execute_tool tool_name tool_input (l_world st) in
    ({| l_world := w';
        l_tools_used := l_tools_used st ++ [tool_name];
        l_successful_tools := l_successful_tools st;
        l_executed := l_executed st ++ [(tool_name, result_text)];
        l_llm_calls := l_llm_calls st |},
     tool_results ++ [(tool_use_id, result_text)])
  | _ => acc
  end.

(** [[block.text for block in response.content if block.type == "text"]] *)
Fixpoint text_parts (bs : list (Block Args)) : list string :=
  match bs with
  | [] => []
  | TextBlock text :: rest => text :: text_parts rest
  | _ :: rest => text_parts rest
  end.

Fixpoint react_anthropic (system_prompt : string)
         (api_tools : option (list ToolDef.t))
         (n : nat) (last : option (AnthropicResponse Args))
         (messages : list (AnthropicMessage Args)) (st : Loop)
  : Run World :=
  match n with
  | O =>
    match last with
    | None =>
      raised st "UnboundLocalError: local variable 'response' referenced before assignment"
    | Some response =>
      returned st ExitExhausted
               (match text_parts (blocks response) with
                | [] => FALLBACK
                | parts => join nl parts
                end)
    end
  | S n' =>
    let request :=
      {| areq_model := model cfg; areq_max_tokens := 4096;
         areq_system := system_prompt; areq_tools := api_tools;
         areq_messages := messages |} in
    let '(w1, reply) := messages_create request (l_world st) in
    let st1 :=
      {| l_world := w1;
         l_tools_used := l_tools_used st;
         l_successful_tools := l_successful_tools st;
         l_executed := l_executed st;
         l_llm_calls := S (l_llm_calls st) |} in
    match reply with
    | AAuthenticationError =>
      returned st1 ExitAuthError
               "Authentication error: please check the API key configuration."
    | AAPIError e => returned st1 ExitAPIError ("API error: " +:+ e)
    | ACompleted response =>
      if String.eqb (stop_reason response) "tool_use" then
        let '(st2, tool_results) :=
          fold_left run_tool_use (blocks response) (st1, []) in
        react_anthropic system_prompt api_tools n' (Some response)
                        (messages ++ [AMsgAssistant (blocks response);
                                      AMsgToolResults tool_results])
                        st2
      else
        let final_text := join nl (text_parts (blocks response)) in
        returned st1 (ExitFinal final_text) final_text
    end
  end.

Definition _route_anthropic (msg : string)
           (conversation_history : option (list (string * string))) (w : World)
  : Run World :=
  let messages :=
    map (fun m => AMsgHistory (fst m) (snd m)) (default [] conversation_history)
        ++ [AMsgUser msg] in
  let relevant_tools := _select_relevant_tools (tools cfg) msg in
  let has_tools := match relevant_tools with [] => false | _ => true end in
  react_anthropic (_build_system_prompt msg has_tools w)
                  (if has_tools then Some relevant_tools else None)
                  (Z.to_nat (max_iterations cfg)) None messages
                  {| l_world := w; l_tools_used := []; l_successful_tools := [];
                     l_executed := []; l_llm_calls := 0 |}.

(** *** [route] *)

Definition route (msg : string)
           (conversation_history : option (list (string * string)))
           (session_id : string) (w : World) : Run World :=
  if String.eqb (backend cfg) "anthropic" && negb (allow_paid cfg) then
    {| result := Ret {| response := PAID_API_BLOCKED; tools_used := [] |};
       exit := ExitPaidBlocked; executed := []; llm_calls := 0; world := w |}
  else
    let run :=
      if String.eqb (backend cfg) "anthropic"
      then _route_anthropic msg conversation_history w
      else _route_ollama msg conversation_history w in
    match result run with
    | Ret res =>
      {| result := Ret res; exit := exit run; executed := executed run;
         llm_calls := llm_calls run;
         world := post_turn msg conversation_history session_id res (world run) |}
    | Exc _ _ => run
    end.

(** *** Properties of a turn *)

(** An executed tool whose result does not look like an error. *)
Definition succeeded (entry : string * string) : bool :=
  negb (_looks_like_tool_error (snd entry)).

(** The bookkeeping of the loop agrees with the record of executed tools. *)
Definition consistent (st : Loop) : Prop :=
  l_tools_used st = map fst (l_executed st)
  /\ l_successful_tools st = map fst (List.filter succeeded (l_executed st)).

Lemma run_tool_call_consistent st messages tool_call :
  consistent st -> consistent (fst (run_tool_call (st, messages) tool_call)).
Proof.
  intros [Hused Hok]. unfold run_tool_call.
  destruct (_execute_tool _ _ _) as [w' text]. unfold consistent; cbn.
  rewrite Hused, Hok, List.filter_app, !map_app. cbn [List.filter map fst].
  replace (succeeded (call_name tool_call, text))
    with (negb (_looks_like_tool_error text)) by reflexivity.
  destruct (_looks_like_tool_error text); cbn; split; rewrite ?app_nil_r; reflexivity.
Qed.

Lemma fold_run_tool_call_consistent calls st messages :
  consistent st -> consistent (fst (fold_left run_tool_call calls (st, messages))).
Proof.
  revert st messages; induction calls as [|c calls IH]; intros st messages H;
    cbn [fold_left].
  - exact H.
  - pose proof (run_tool_call_consistent st messages c H) as H1.
    destruct (run_tool_call (st, messages) c) as [st1 m1]. now apply IH.
Qed.

Lemma fold_run_tool_call_count calls st messages :
  let st' := fst (fold_left run_tool_call calls (st, messages)) in
  length (l_tools_used st') = length (l_tools_used st) + length calls
  /\ l_llm_calls st' = l_llm_calls st.
Proof.
  revert st messages; induction calls as [|c calls IH]; intros st messages;
    cbn [fold_left].
  - cbn. split; [lia | reflexivity].
  - destruct (run_tool_call (st, messages) c) as [st1 m1] eqn:E.
    specialize (IH st1 m1). cbn in IH. destruct IH as [IH1 IH2].
    unfold run_tool_call in E. destruct (_execute_tool _ _ _) as [w' text].
    inversion E; subst; clear E. cbn in *.
    rewrite IH1, IH2, length_app. cbn. split; [lia | reflexivity].
Qed.

Lemma no_success_iff (log : list (string * string)) :
  match map fst (List.filter succeeded log) with [] => true | _ => false end
  = forallb (fun entry => _looks_like_tool_error (snd entry)) log.
Proof.
  induction log as [|e log IH]; cbn; [reflexivity|].
  unfold succeeded at 1. destruct (_looks_like_tool_error (snd e)); cbn; [exact IH | reflexivity].
Qed.

(** What the loop hands back: the accumulated [tools_used] is the list of
    executed tools, and a final answer is replaced by the refusal exactly
    when a tool is required and none succeeded. *)
Lemma react_ollama_spec enforcement active_model openai_tools n :
  forall last messages st,
    consistent st ->
    let run := react_ollama enforcement active_model openai_tools n last messages st in
    (forall res, result run = Ret res -> tools_used res = map fst (executed run))
    /\ (forall text, exit run = ExitFinal text ->
        result run =
        Ret {| response :=
                 if requires_tool enforcement
                    && forallb (fun entry => _looks_like_tool_error (snd entry))
                               (executed run)
                 then REFUSAL_NO_TOOL_RESULT else text;
               tools_used := map fst (executed run) |}).
Proof.
  induction n as [|n IH]; intros last messages st Hc; cbn.
  - destruct last as [choice|]; cbn; split; try discriminate.
    intros res H; inversion H; subst; cbn. apply Hc.
  - destruct (chat_completions_create _ _) as [w1 reply].
    destruct reply as [|e|choice]; cbn.
    + split; [|discriminate]. intros res H; inversion H; subst; cbn. apply Hc.
    + split; [|discriminate]. intros res H; inversion H; subst; cbn. apply Hc.
    + destruct (wants_tools choice).
      * destruct (tool_calls (message choice)) as [calls|]; cbn.
        -- match goal with
           | |- context [fold_left run_tool_call calls (?s, ?m)] =>
             pose proof (fold_run_tool_call_consistent calls s m) as Hf;
               destruct (fold_left run_tool_call calls (s, m)) as [st2 m2]
           end.
           apply IH. apply Hf. exact Hc.
        -- split; discriminate.
      * destruct Hc as [Hused Hok]. rewrite Hok, no_success_iff.
        destruct (requires_tool enforcement
                  && forallb (fun entry => _looks_like_tool_error (snd entry))
                             (l_executed st)) eqn:E; cbn; rewrite ?E;
          (split; [intros res H; inversion H; subst; cbn; exact Hused
                  | intros text H; inversion H; subst; now rewrite Hused]).
Qed.

Lemma fold_run_tool_call_extends calls st messages :
  exists more,
    l_executed (fst (fold_left run_tool_call calls (st, messages)))
    = l_executed st ++ more.
Proof.
  revert st messages; induction calls as [|c calls IH]; intros st messages;
    cbn [fold_left].
  - exists []. cbn. now rewrite app_nil_r.
  - destruct (run_tool_call (st, messages) c) as [st1 m1] eqn:E.
    destruct (IH st1 m1) as [more Hmore]. rewrite Hmore.
    unfold run_tool_call in E. destruct (_execute_tool _ _ _) as [w' text].
    inversion E; subst; clear E. cbn.
    eexists. now rewrite <- app_assoc.
Qed.

(** The executed tools of a turn start with those executed before the loop. *)
Lemma react_ollama_extends enforcement active_model openai_tools n :
  forall last messages st,
  exists more,
    executed (react_ollama enforcement active_model openai_tools n last messages st)
    = l_executed st ++ more.
Proof.
  induction n as [|n IH]; intros last messages st; cbn [react_ollama].
  - destruct last; exists []; cbn; now rewrite app_nil_r.
  - destruct (chat_completions_create _ _) as [w1 reply].
    destruct reply as [|e|choice]; try (exists []; cbn; now rewrite app_nil_r).
    destruct (wants_tools choice).
    + destruct (tool_calls (message choice)) as [calls|];
        [|exists []; cbn; now rewrite app_nil_r].
      match goal with
      | |- context [fold_left run_tool_call calls (?s, ?m)] =>
        destruct (fold_run_tool_call_extends calls s m) as [more1 H1];
          destruct (fold_left run_tool_call calls (s, m)) as [st2 m2]
      end.
      destruct (IH (Some choice) m2 st2) as [more2 H2]. rewrite H2.
      cbn in H1. rewrite H1. eexists. now rewrite <- app_assoc.
    + destruct (requires_tool enforcement && _); exists []; cbn; now rewrite app_nil_r.
Qed.

(** The loop calls the LLM at most [n] times; when no response asks for
    more than [k] tools, every call adds at most [k] names to [tools_used]. *)
Lemma react_ollama_bound k enforcement active_model openai_tools n :
  (forall request w choice,
      snd (chat_completions_create request w) = Completed choice ->
      length (default [] (tool_calls (message choice))) <= k) ->
  forall last messages st,
    let run := react_ollama enforcement active_model openai_tools n last messages st in
    llm_calls run <= l_llm_calls st + n
    /\ (forall res, result run = Ret res ->
        length (tools_used res) + k * l_llm_calls st
        <= length (l_tools_used st) + k * llm_calls run).
Proof.
  intros Hk. induction n as [|n IH]; intros last messages st; cbn [react_ollama].
  - destruct last; cbn; (split; [lia|]); intros res H; inversion H; subst; cbn; lia.
  - destruct (chat_completions_create _ _) as [w1 reply] eqn:Hcall.
    destruct reply as [|e|choice];
      try (cbn; (split; [lia|]); intros res H; inversion H; subst; cbn; lia).
    assert (Hlen : length (default [] (tool_calls (message choice))) <= k).
    { eapply Hk. rewrite Hcall. reflexivity. }
    destruct (wants_tools choice).
    + destruct (tool_calls (message choice)) as [calls|];
        [|cbn; split; [lia | discriminate]].
      match goal with
      | |- context [fold_left run_tool_call calls (?s, ?m)] =>
        pose proof (fold_run_tool_call_count calls s m) as Hc;
          destruct (fold_left run_tool_call calls (s, m)) as [st2 m2]
      end.
      cbn in Hc, Hlen. destruct Hc as [Hc1 Hc2].
      specialize (IH (Some choice) m2 st2). cbn zeta in IH.
      destruct IH as [IH1 IH2]. rewrite Hc2 in IH1, IH2. split; [lia|].
      intros res Hres. specialize (IH2 res Hres).
      rewrite Nat.mul_succ_r in IH2. lia.
    + destruct (requires_tool enforcement && _); cbn;
        (split; [lia|]); intros res H; inversion H; subst; cbn; lia.
Qed.

(** The loop returns a dict once it runs at least one iteration, provided
    a response that announces tool calls carries them. *)
Lemma react_ollama_returns enforcement active_model openai_tools n :
  (forall request w choice,
      snd (chat_completions_create request w) = Completed choice ->
      finish_reason choice = "tool_calls" ->
      tool_calls (message choice) <> None) ->
  forall last messages st,
    (n = 0 -> last <> None) ->
    exists res,
      result (react_ollama enforcement active_model openai_tools n last messages st)
      = Ret res.
Proof.
  intros Hwf. induction n as [|n IH]; intros last messages st Hlast; cbn [react_ollama].
  - destruct last; [eexists; reflexivity | now contradiction Hlast].
  - destruct (chat_completions_create _ _) as [w1 reply] eqn:Hcall.
    destruct reply as [|e|choice]; try (eexists; reflexivity).
    destruct (wants_tools choice) eqn:Hw.
    + destruct (tool_calls (message choice)) as [calls|] eqn:Hcalls.
      * destruct (fold_left run_tool_call calls _) as [st2 m2].
        apply IH. discriminate.
      * exfalso. unfold wants_tools in Hw. rewrite Hcalls, orb_false_r in Hw.
        apply String.eqb_eq in Hw.
        eapply Hwf; [rewrite Hcall; reflexivity | exact Hw | exact Hcalls].
    + destruct (requires_tool enforcement && _); eexists; reflexivity.
Qed.

Lemma preflight_consistent tool_names w :
  let results := snd (_execute_preflight_tools tool_names w) in
  map pf_name results = tool_names
  /\ preflight_successes results
     = map fst (List.filter succeeded
                  (map (fun item => (pf_name item, pf_content item)) results)).
Proof.
  revert w; induction tool_names as [|name rest IH]; intros w;
    cbn [_execute_preflight_tools].
  - split; reflexivity.
  - destruct (_execute_tool name empty_args w) as [w1 text].
    specialize (IH w1). destruct (_execute_preflight_tools rest w1) as [w2 results].
    cbn in IH |- *. destruct IH as [IH1 IH2]. unfold preflight_successes in *.
    cbn. rewrite IH1. split; [reflexivity|].
    replace (succeeded (name, text)) with (negb (_looks_like_tool_error text))
      by reflexivity.
    destruct (negb (_looks_like_tool_error text)); cbn; now rewrite IH2.
Qed.

(** [tool_use] blocks of a response. *)
Fixpoint tool_use_count (bs : list (Block Args)) : nat :=
  match bs with
  | [] => 0
  | ToolUseBlock _ _ _ :: rest => S (tool_use_count rest)
  | _ :: rest => tool_use_count rest
  end.

Lemma fold_run_tool_use_count bs st results :
  let st' := fst (fold_left run_tool_use bs (st, results)) in
  length (l_tools_used st') = length (l_tools_used st) + tool_use_count bs
  /\ l_llm_calls st' = l_llm_calls st.
Proof.
  revert st results; induction bs as [|b bs IH]; intros st results;
    cbn [fold_left tool_use_count].
  - cbn. split; [lia | reflexivity].
  - destruct b as [text|id name input|]; cbn [run_tool_use]; try apply IH.
    destruct (_execute_tool name input (l_world st)) as [w' text].
    match goal with
    | |- context [fold_left run_tool_use bs (?s, ?r)] => specialize (IH s r)
    end.
    cbn in IH |- *. destruct IH as [IH1 IH2].
    rewrite IH1, IH2, length_app. cbn. split; [lia | reflexivity].
Qed.

Lemma react_anthropic_bound k system_prompt api_tools n :
  (forall request w response,
      snd (messages_create request w) = ACompleted response ->
      tool_use_count (blocks response) <= k) ->
  forall last messages st,
    let run := react_anthropic system_prompt api_tools n last messages st in
    llm_calls run <= l_llm_calls st + n
    /\ (forall res, result run = Ret res ->
        length (tools_used res) + k * l_llm_calls st
        <= length (l_tools_used st) + k * llm_calls run).
Proof.
  intros Hk. induction n as [|n IH]; intros last messages st; cbn [react_anthropic].
  - destruct last; cbn; (split; [lia|]); intros res H; inversion H; subst; cbn; lia.
  - destruct (messages_create _ _) as [w1 reply] eqn:Hcall.
    destruct reply as [|e|response];
      try (cbn; (split; [lia|]); intros res H; inversion H; subst; cbn; lia).
    assert (Hlen : tool_use_count (blocks response) <= k).
    { eapply Hk. rewrite Hcall. reflexivity. }
    destruct (String.eqb (stop_reason response) "tool_use").
    + match goal with
      | |- context [fold_left run_tool_use ?bs (?s, ?r)] =>
        pose proof (fold_run_tool_use_count bs s r) as Hc;
          destruct (fold_left run_tool_use bs (s, r)) as [st2 results]
      end.
      cbn in Hc. destruct Hc as [Hc1 Hc2].
      match goal with
      | |- context [react_anthropic _ _ n ?l ?m st2] => specialize (IH l m st2)
      end.
      cbn zeta in IH. destruct IH as [IH1 IH2]. rewrite Hc2 in IH1, IH2.
      split; [lia|]. intros res Hres. specialize (IH2 res Hres).
      rewrite Nat.mul_succ_r in IH2. lia.
    + cbn. (split; [lia|]); intros res H; inversion H; subst; cbn; lia.
Qed.

Lemma react_anthropic_returns system_prompt api_tools n :
  forall last messages st,
    (n = 0 -> last <> None) ->
    exists res,
      result (react_anthropic system_prompt api_tools n last messages st) = Ret res.
Proof.
  induction n as [|n IH]; intros last messages st Hlast; cbn [react_anthropic].
  - destruct last; [eexists; reflexivity | now contradiction Hlast].
  - destruct (messages_create _ _) as [w1 reply].
    destruct reply as [|e|response]; try (eexists; reflexivity).
    destruct (String.eqb (stop_reason response) "tool_use");
      [|eexists; reflexivity].
    destruct (fold_left run_tool_use _ _) as [st2 results].
    apply IH. discriminate.
Qed.

(** On the default backend [route] hands back what [_route_ollama] did. *)
Lemma route_ollama_fields msg history session_id w :
  backend cfg <> "anthropic" ->
  let run := route msg history session_id w in
  let run0 := _route_ollama msg history w in
  result run = result run0 /\ exit run = exit run0
  /\ executed run = executed run0 /\ llm_calls run = llm_calls run0.
Proof.
  intros Hb. apply String.eqb_neq in Hb. unfold route. rewrite Hb. cbn.
  destruct (result (_route_ollama msg history w)) eqn:E; cbn; rewrite ?E; auto.
Qed.

Lemma route_anthropic_fields msg history session_id w :
  backend cfg = "anthropic" -> allow_paid cfg = true ->
  let run := route msg history session_id w in
  let run0 := _route_anthropic msg history w in
  result run = result run0 /\ exit run = exit run0
  /\ executed run = executed run0 /\ llm_calls run = llm_calls run0.
Proof.
  intros Hb Hp. apply String.eqb_eq in Hb. unfold route. rewrite Hb, Hp. cbn.
  destruct (result (_route_anthropic msg history w)) eqn:E; cbn; rewrite ?E; auto.
Qed.

(** What a turn of the default backend returns when the LLM gives a final
    answer: the refusal exactly when a tool is required and no executed
    tool, preflight ones included, succeeded. *)
Lemma route_ollama_final msg history w text :
  let enforcement := _resolve_skill_enforcement (tools cfg) (matched_skills_of msg) in
  let run := _route_ollama msg history w in
  exit run = ExitFinal text ->
  result run =
  Ret {| response :=
           if requires_tool enforcement
              && forallb (fun entry => _looks_like_tool_error (snd entry))
                         (executed run)
           then REFUSAL_NO_TOOL_RESULT else text;
         tools_used := map fst (executed run) |}.
Proof.
  cbn zeta. unfold _route_ollama.
  destruct (requires_tool _ && negb _); [discriminate|].
  pose proof (preflight_consistent
                (preflight_tools
                   (_resolve_skill_enforcement (tools cfg) (matched_skills_of msg))) w)
    as Hp.
  destruct (_execute_preflight_tools _ w) as [w1 results]. cbn in Hp.
  intros Hexit. eapply react_ollama_spec; [|exact Hexit].
  split; cbn; [|apply Hp]. unfold preflight_names. now rewrite map_map.
Qed.

(** The text [%error%] between double quotes, as a tool payload carries it. *)
Definition quoted_error : string := dq +:+ "error" +:+ dq.

Lemma route_ollama_preflight_first msg history w :
  exit (_route_ollama msg history w) <> ExitNoSkillTools ->
  exists more,
    map fst (executed (_route_ollama msg history w))
    = preflight_tools (_resolve_skill_enforcement (tools cfg) (matched_skills_of msg))
      ++ more.
Proof.
  unfold _route_ollama.
  destruct (requires_tool _ && negb _); [intros H; now contradiction H|].
  intros _.
  pose proof (preflight_consistent
                (preflight_tools
                   (_resolve_skill_enforcement (tools cfg) (matched_skills_of msg))) w)
    as [Hp _].
  destruct (_execute_preflight_tools _ w) as [w1 results]. cbn in Hp.
  match goal with
  | |- context [react_ollama ?e ?a ?o ?n ?l ?m ?st] =>
    destruct (react_ollama_extends e a o n l m st) as [more Hmore]
  end.
  rewrite Hmore. cbn. rewrite map_app, map_map. cbn.
  change (map (fun x => pf_name x) results) with (map pf_name results).
  rewrite Hp. now exists (map fst more).
Qed.

(** C1: when the enforcement policy of the turn has [requires_tool] true,
    the loop reaches a final (non tool-call) response, and every tool
    executed during the turn, preflight tools included, produced a result
    that counts as an error, [route] returns the refusal text and not the
    model's text; the accumulated [tools_used] is returned with it, and it
    starts with the preflight tools.  (The policy is computed on the default
    backend; the opt-in Anthropic path computes none.) *)
Theorem route_refuses_without_successful_tool msg history session_id w text :
  backend cfg <> "anthropic" ->
  requires_tool (_resolve_skill_enforcement (tools cfg) (matched_skills_of msg)) = true ->
  exit (route msg history session_id w) = ExitFinal text ->
  Forall (fun entry => _looks_like_tool_error (snd entry) = true)
         (executed (route msg history session_id w)) ->
  result (route msg history session_id w)
  = Ret {| response := REFUSAL_NO_TOOL_RESULT;
           tools_used := map fst (executed (route msg history session_id w)) |}
  /\ exists more,
      map fst (executed (route msg history session_id w))
      = preflight_tools (_resolve_skill_enforcement (tools cfg) (matched_skills_of msg))
        ++ more.
Proof.
  intros Hb Hreq Hexit Hall.
  destruct (route_ollama_fields msg history session_id w Hb) as (Hr & He & Hx & _).
  rewrite Hr, Hx in *. rewrite He in Hexit. split.
  - rewrite (route_ollama_final msg history w text Hexit), Hreq.
    rewrite List.Forall_forall in Hall.
    replace (forallb _ _) with true; [reflexivity|].
    symmetry. apply forallb_forall. intros x Hx'. apply Hall. exact Hx'.
  - apply route_ollama_preflight_first. rewrite Hexit. discriminate.
Qed.

(** C4 (amended): a turn calls the LLM at most [max_iterations] times, and
    when no response asks for more than [k] tools the returned [tools_used]
    has at most [|preflight_tools| + k * max_iterations] names; with
    [max_iterations] positive and well-formed responses the turn does return. *)
Theorem route_tools_used_bound k msg history session_id w :
  (forall request w' choice,
      snd (chat_completions_create request w') = Completed choice ->
      length (default [] (tool_calls (message choice))) <= k) ->
  (forall request w' response,
      snd (messages_create request w') = ACompleted response ->
      tool_use_count (blocks response) <= k) ->
  let run := route msg history session_id w in
  let preflight :=
    preflight_tools (_resolve_skill_enforcement (tools cfg) (matched_skills_of msg)) in
  llm_calls run <= Z.to_nat (max_iterations cfg)
  /\ (forall res, result run = Ret res ->
      length (tools_used res) <= length preflight + k * Z.to_nat (max_iterations cfg))
  /\ ((0 < max_iterations cfg)%Z ->
      (forall request w' choice,
          snd (chat_completions_create request w') = Completed choice ->
          finish_reason choice = "tool_calls" ->
          tool_calls (message choice) <> None) ->
      exists res, result run = Ret res).
Proof.
  intros Hk Hk'. cbn zeta.
  destruct (String.eqb (backend cfg) "anthropic") eqn:Hb.
  - destruct (allow_paid cfg) eqn:Hp.
    + apply String.eqb_eq in Hb.
      destruct (route_anthropic_fields msg history session_id w Hb Hp)
        as (Hr & _ & _ & Hl).
      rewrite Hr, Hl. unfold _route_anthropic.
      match goal with
      | |- context [react_anthropic ?sp ?t ?n ?l ?m ?st] =>
        pose proof (react_anthropic_bound k sp t n Hk' l m st) as [B1 B2];
          pose proof (react_anthropic_returns sp t n l m st) as B3;
          set (run := react_anthropic sp t n l m st) in *
      end.
      cbn in B1, B2. split; [exact B1|]. split.
      * intros res Hres. specialize (B2 res Hres).
        assert (k * llm_calls run <= k * Z.to_nat (max_iterations cfg))
          by (apply Nat.mul_le_mono_l; exact B1).
        lia.
      * intros Hpos _. apply B3. intros Hz _. lia.
    + unfold route. rewrite Hb, Hp. cbn. split; [lia|]. split.
      * intros res H; inversion H; subst; cbn. lia.
      * intros _ _. eexists; reflexivity.
  - apply String.eqb_neq in Hb.
    destruct (route_ollama_fields msg history session_id w Hb) as (Hr & _ & _ & Hl).
    rewrite Hr, Hl. unfold _route_ollama.
    destruct (requires_tool _ && negb _).
    + cbn. split; [lia|]. split.
      * intros res H; inversion H; subst; cbn. lia.
      * intros _ _. eexists; reflexivity.
    + pose proof (preflight_consistent
                    (preflight_tools
                       (_resolve_skill_enforcement (tools cfg) (matched_skills_of msg)))
                    w) as [Hp _].
      destruct (_execute_preflight_tools _ w) as [w1 results]. cbn in Hp.
      match goal with
      | |- context [react_ollama ?e ?a ?o ?n ?l ?m ?st] =>
        pose proof (react_ollama_bound k e a o n Hk l m st) as [B1 B2];
          pose proof (fun H => react_ollama_returns e a o n H l m st) as B3;
          set (run := react_ollama e a o n l m st) in *
      end.
      cbn in B1, B2. split; [exact B1|]. split.
      * intros res Hres. specialize (B2 res Hres).
        unfold preflight_names in B2. rewrite Hp in B2.
        assert (k * llm_calls run <= k * Z.to_nat (max_iterations cfg))
          by (apply Nat.mul_le_mono_l; exact B1).
        lia.
      * intros Hpos Hwf. apply B3; [exact Hwf|]. intros Hz _. lia.
Qed.

(** C9: a tool result counts as successful iff its lowercased text holds
    neither ["error"] in double quotes nor ['error'] in single quotes, and
    not both [tool '] and [failed]; the loop adds the tool to its list of
    successes exactly then.  So a payload that merely carries an error field
    counts as failed, and a turn whose executed tools all returned such
    payloads is refused when a tool is required. *)
Theorem tool_success_criterion :
  (forall text,
      _looks_like_tool_error text = false <->
      ~ occurs_in quoted_error (lower text)
      /\ ~ occurs_in "'error'" (lower text)
      /\ ~ (occurs_in "tool '" (lower text) /\ occurs_in "failed" (lower text)))
  /\ (forall st messages tool_call,
         let text :=
           snd (_execute_tool (call_name tool_call)
                  (default empty_args (json_loads (call_arguments tool_call)))
                  (l_world st)) in
         let st' := fst (run_tool_call (st, messages) tool_call) in
         l_tools_used st' = l_tools_used st ++ [call_name tool_call]
         /\ l_successful_tools st'
            = if _looks_like_tool_error text then l_successful_tools st
              else l_successful_tools st ++ [call_name tool_call])
  /\ (forall text,
         occurs_in quoted_error (lower text) -> _looks_like_tool_error text = true)
  /\ (forall msg history session_id w text,
         backend cfg <> "anthropic" ->
         requires_tool
           (_resolve_skill_enforcement (tools cfg) (matched_skills_of msg)) = true ->
         exit (route msg history session_id w) = ExitFinal text ->
         Forall (fun entry => occurs_in quoted_error (lower (snd entry)))
                (executed (route msg history session_id w)) ->
         result (route msg history session_id w)
         = Ret {| response := REFUSAL_NO_TOOL_RESULT;
                  tools_used :=
                    map fst (executed (route msg history session_id w)) |}).
Proof.
  assert (Hmark : forall text,
             occurs_in quoted_error (lower text) -> _looks_like_tool_error text = true).
  { intros text H. apply py_in_spec in H. unfold _looks_like_tool_error.
    fold quoted_error. rewrite H. now rewrite orb_true_r. }
  split; [|split; [|split; [exact Hmark|]]].
  - intros text. unfold _looks_like_tool_error. fold quoted_error.
    rewrite !orb_false_iff, andb_false_iff, !py_in_false. split.
    + intros [[[H|H] Hq] Hs]; repeat split; try assumption; intros [H1 H2]; tauto.
    + intros (Hq & Hs & Hboth). repeat split; try assumption.
      destruct (py_in "tool '" (lower text)) eqn:E1.
      * right. intros H2. apply Hboth. split; [now apply py_in_spec | exact H2].
      * left. now apply py_in_false.
  - intros st messages tool_call. cbn zeta. unfold run_tool_call.
    destruct (_execute_tool _ _ _) as [w' text]. cbn. split; reflexivity.
  - intros msg history session_id w text Hb Hreq Hexit Hall.
    destruct (route_ollama_fields msg history session_id w Hb) as (Hr & He & Hx & _).
    rewrite Hr, Hx in *. rewrite He in Hexit.
    rewrite (route_ollama_final msg history w text Hexit), Hreq.
    replace (forallb _ _) with true; [reflexivity|].
    symmetry. apply forallb_forall. intros x Hx'. apply Hmark.
    rewrite List.Forall_forall in Hall. now apply Hall.
Qed.

(** *** Further properties of a turn *)

Lemma fold_run_tool_use_names bs st results :
  l_tools_used st = map fst (l_executed st) ->
  let st' := fst (fold_left run_tool_use bs (st, results)) in
  l_tools_used st' = map fst (l_executed st').
Proof.
  revert st results; induction bs as [|b bs IH]; intros st results H;
    cbn [fold_left].
  - exact H.
  - destruct b as [text|id name input|]; cbn [run_tool_use]; try now apply IH.
    destruct (_execute_tool name input (l_world st)) as [w' text].
    apply IH. cbn. now rewrite H, map_app.
Qed.

(** The Anthropic loop keeps [tools_used] equal to the names of the tools
    it executed, and hands a final answer back as it is. *)
Lemma react_anthropic_spec system_prompt api_tools n :
  forall last messages st,
    l_tools_used st = map fst (l_executed st) ->
    let run := react_anthropic system_prompt api_tools n last messages st in
    (forall res, result run = Ret res -> tools_used res = map fst (executed run))
    /\ (forall text, exit run = ExitFinal text ->
        result run = Ret {| response := text;
                            tools_used := map fst (executed run) |}).
Proof.
  induction n as [|n IH]; intros last messages st Hc; cbn [react_anthropic].
  - destruct last as [response|]; cbn; split; try discriminate.
    intros res H; inversion H; subst; cbn. exact Hc.
  - destruct (messages_create _ _) as [w1 reply].
    destruct reply as [|e|response]; cbn.
    + split; [|discriminate]. intros res H; inversion H; subst; cbn. exact Hc.
    + split; [|discriminate]. intros res H; inversion H; subst; cbn. exact Hc.
    + destruct (String.eqb (stop_reason response) "tool_use").
      * match goal with
        | |- context [fold_left run_tool_use ?bs (?s, ?r)] =>
          pose proof (fold_run_tool_use_names bs s r) as Hf;
            destruct (fold_left run_tool_use bs (s, r)) as [st2 results]
        end.
        apply IH. apply Hf. exact Hc.
      * cbn. split.
        -- intros res H; inversion H; subst; cbn. exact Hc.
        -- intros text H; inversion H; subst. now rewrite Hc.
Qed.

Lemma route_ollama_names msg history w res :
  result (_route_ollama msg history w) = Ret res ->
  tools_used res = map fst (executed (_route_ollama msg history w)).
Proof.
  unfold _route_ollama.
  destruct (requires_tool _ && negb _).
  - intros H; inversion H; reflexivity.
  - pose proof (preflight_consistent
                  (preflight_tools
                     (_resolve_skill_enforcement (tools cfg) (matched_skills_of msg))) w)
      as Hp.
    destruct (_execute_preflight_tools _ w) as [w1 results]. cbn in Hp.
    apply react_ollama_spec.
    split; cbn; [|apply Hp]. unfold preflight_names. now rewrite map_map.
Qed.

(** What [route] hands back of a run, whatever the backend. *)
Lemma route_fields msg history session_id w :
  let run := route msg history session_id w in
  (String.eqb (backend cfg) "anthropic" && negb (allow_paid cfg) = true
   /\ result run = Ret {| response := PAID_API_BLOCKED; tools_used := [] |}
   /\ exit run = ExitPaidBlocked /\ executed run = [] /\ llm_calls run = 0)
  \/ (exists run0,
         run0 = (if String.eqb (backend cfg) "anthropic"
                 then _route_anthropic msg history w
                 else _route_ollama msg history w)
         /\ String.eqb (backend cfg) "anthropic" && negb (allow_paid cfg) = false
         /\ result run = result run0 /\ exit run = exit run0
         /\ executed run = executed run0 /\ llm_calls run = llm_calls run0).
Proof.
  cbn zeta. unfold route.
  destruct (String.eqb (backend cfg) "anthropic" && negb (allow_paid cfg)) eqn:E.
  - left. cbn. repeat split.
  - right. eexists. split; [reflexivity|]. split; [reflexivity|].
    destruct (result (if String.eqb (backend cfg) "anthropic"
                      then _route_anthropic msg history w
                      else _route_ollama msg history w)) eqn:R; cbn; rewrite ?R; auto.
Qed.

(** X1: whatever the backend, the [tools_used] that [route] returns is the
    list of the names of the tools executed during the turn, in the order of
    their execution. *)
Theorem route_tools_used_are_executed msg history session_id w res :
  result (route msg history session_id w) = Ret res ->
  tools_used res = map fst (executed (route msg history session_id w)).
Proof.
  destruct (route_fields msg history session_id w)
    as [(_ & Hr & _ & Hx & _) | (run0 & Hrun & _ & Hr & _ & Hx & _)];
    rewrite Hr, Hx.
  - intros H; inversion H; reflexivity.
  - subst run0. destruct (String.eqb (backend cfg) "anthropic").
    + unfold _route_anthropic. apply react_anthropic_spec. reflexivity.
    + apply route_ollama_names.
Qed.

(** X2: the Anthropic backend applies no skill enforcement: when the model
    gives a final answer, [route] returns its text, the text blocks joined
    by newlines, whatever the matched skills require and whatever tools
    ran. *)
Theorem route_anthropic_returns_final_text msg history session_id w text :
  backend cfg = "anthropic" ->
  allow_paid cfg = true ->
  exit (route msg history session_id w) = ExitFinal text ->
  result (route msg history session_id w)
  = Ret {| response := text;
           tools_used := map fst (executed (route msg history session_id w)) |}.
Proof.
  intros Hb Hp.
  destruct (route_anthropic_fields msg history session_id w Hb Hp)
    as (Hr & He & Hx & _).
  rewrite Hr, He, Hx. unfold _route_anthropic. apply react_anthropic_spec. reflexivity.
Qed.

(** X3: a router built with [max_iterations <= 0] never answers: no LLM
    call is made, and unless the turn is refused before the loop it ends in
    the exception that the unbound loop variable raises. *)
Theorem route_without_iterations msg history session_id w :
  (max_iterations cfg <= 0)%Z ->
  let run := route msg history session_id w in
  llm_calls run = 0
  /\ (exit run = ExitPaidBlocked
      \/ exit run = ExitNoSkillTools
      \/ (exit run = ExitRaised
          /\ exists what, result run = Exc OtherException what)).
Proof.
  intros Hmax. cbn zeta.
  assert (Hn : Z.to_nat (max_iterations cfg) = 0) by lia.
  destruct (route_fields msg history session_id w)
    as [(_ & _ & He & _ & Hl) | (run0 & Hrun & _ & Hr & He & _ & Hl)];
    rewrite He, Hl; [auto|].
  rewrite Hr. subst run0. destruct (String.eqb (backend cfg) "anthropic").
  - unfold _route_anthropic. rewrite Hn. cbn. split; [reflexivity|].
    right. right. split; [reflexivity | now eexists].
  - unfold _route_ollama. destruct (requires_tool _ && negb _).
    + cbn. auto.
    + destruct (_execute_preflight_tools _ w) as [w1 results]. rewrite Hn. cbn.
      split; [reflexivity|]. right. right. split; [reflexivity | now eexists].
Qed.

(** A model that asks for tools in every response. *)
Definition always_wants_tools : Prop :=
  forall request w,
  exists choice calls,
    snd (chat_completions_create request w) = Completed choice
    /\ wants_tools choice = true
    /\ tool_calls (message choice) = Some calls.

Lemma react_ollama_cut_off enforcement active_model openai_tools n :
  always_wants_tools ->
  forall last messages st,
    (n = 0 -> last <> None) ->
    let run := react_ollama enforcement active_model openai_tools n last messages st in
    exit run = ExitExhausted
    /\ llm_calls run = l_llm_calls st + n
    /\ exists res, result run = Ret res.
Proof.
  intros Halways. induction n as [|n IH]; intros last messages st Hlast;
    cbn [react_ollama].
  - destruct last as [choice|]; [|now contradiction Hlast].
    cbn. split; [reflexivity|]. split; [lia | now eexists].
  - destruct (Halways {| req_model := active_model; req_messages := messages;
                         req_max_tokens := 4096; req_tools := openai_tools |}
                      (l_world st)) as (choice & calls & Hreply & Hwants & Hcalls).
    destruct (chat_completions_create _ _) as [w1 reply]. cbn in Hreply. subst reply.
    rewrite Hwants, Hcalls.
    match goal with
    | |- context [fold_left run_tool_call calls (?s, ?m)] =>
      pose proof (fold_run_tool_call_count calls s m) as [_ Hc];
        destruct (fold_left run_tool_call calls (s, m)) as [st2 m2]
    end.
    cbn in Hc. specialize (IH (Some choice) m2 st2). cbn zeta in IH.
    destruct IH as (H1 & H2 & H3); [discriminate|].
    rewrite H1, H2, Hc. split; [reflexivity|]. split; [lia | exact H3].
Qed.

(** X4: on the default backend, a model that asks for tools in every
    response is cut off: unless the turn is refused before the loop,
    [route] returns after exactly [max_iterations] LLM calls, on the
    exhausted path. *)
Theorem route_cuts_off_endless_tool_use msg history session_id w :
  backend cfg <> "anthropic" ->
  (0 < max_iterations cfg)%Z ->
  always_wants_tools ->
  let run := route msg history session_id w in
  exit run = ExitNoSkillTools
  \/ (exit run = ExitExhausted
      /\ llm_calls run = Z.to_nat (max_iterations cfg)
      /\ exists res, result run = Ret res).
Proof.
  intros Hb Hmax Halways. cbn zeta.
  destruct (route_ollama_fields msg history session_id w Hb) as (Hr & He & _ & Hl).
  rewrite Hr, He, Hl. unfold _route_ollama.
  destruct (requires_tool _ && negb _); [now left|]. right.
  destruct (_execute_preflight_tools _ w) as [w1 results].
  match goal with
  | |- context [react_ollama ?e ?a ?o ?n ?l ?m ?st] =>
    destruct (react_ollama_cut_off e a o n Halways l m st) as (H1 & H2 & H3)
  end.
  - lia.
  - rewrite H1, H2. cbn. auto.
Qed.

Lemma get_tools_by_name_none (registered : list ToolDef.t) (names : list string) :
  (forall tool, In tool registered -> ~ In (ToolDef.name tool) names) ->
  _get_tools_by_name registered names = [].
Proof.
  unfold _get_tools_by_name. induction registered as [|tool rest IH]; intros Hnone;
    [reflexivity|].
  cbn [List.filter]. destruct (mem (ToolDef.name tool) names) eqn:Hm.
  - exfalso. apply (Hnone tool (or_introl eq_refl)).
    unfold mem in Hm. apply existsb_exists in Hm. destruct Hm as (x & Hin & Heq).
    apply String.eqb_eq in Heq. now subst x.
  - apply IH. intros t Ht. apply Hnone. now right.
Qed.

(** X5: when the matched skills require a tool and none of the tools they
    name is registered, the turn is refused before anything runs: no LLM
    call, no tool execution (preflight included), an empty [tools_used]. *)
Theorem route_refuses_unregistered_skill_tools msg history session_id w :
  backend cfg <> "anthropic" ->
  let enforcement :=
    _resolve_skill_enforcement (tools cfg) (matched_skills_of msg) in
  requires_tool enforcement = true ->
  allowed_tools enforcement <> [] ->
  (forall tool, In tool (tools cfg) ->
                ~ In (ToolDef.name tool) (allowed_tools enforcement)) ->
  let run := route msg history session_id w in
  result run = Ret {| response := REFUSAL_NO_SKILL_TOOLS; tools_used := [] |}
  /\ exit run = ExitNoSkillTools
  /\ llm_calls run = 0
  /\ executed run = [].
Proof.
  intros Hb. cbn zeta. intros Hreq Hallowed Hnone.
  destruct (route_ollama_fields msg history session_id w Hb) as (Hr & He & Hx & Hl).
  rewrite Hr, He, Hx, Hl. unfold _route_ollama. rewrite Hreq.
  destruct (allowed_tools _) as [|name names] eqn:Hal; [now contradiction Hallowed|].
  assert (Hempty : _get_tools_by_name (tools cfg) (name :: names) = [])
    by (apply get_tools_by_name_none; exact Hnone).
  rewrite Hempty. cbn. repeat split.
Qed.

End Turn.

(** *** Scenarios

    Concrete turns, after the repository's router tests: the world is the
    number of LLM calls made so far, and the LLM replays a script. *)

Definition quoted (s : string) : string := dq +:+ s +:+ dq.

Definition tool (name : string) (required : list string) : ToolDef.t :=
  {| ToolDef.name := name;
     ToolDef.description := Some "x";
     ToolDef.input_schema :=
       Some {| ToolDef.required := Some required; ToolDef.properties := "{}" |} |}.

Definition stop_with (text : string) : Completion :=
  Completed {| finish_reason := "stop";
               message := {| content := Some text; tool_calls := None |} |}.

Definition call_tools (names : list string) : Completion :=
  Completed {| finish_reason := "tool_calls";
               message :=
                 {| content := None;
                    tool_calls :=
                      Some (map (fun name =>
                                   {| call_id := "call_" +:+ name;
                                      call_name := name;
                                      call_arguments := "{}" |}) names) |} |}.

Definition scripted (script : list Completion) (request : Request) (w : nat)
  : nat * Completion :=
  (S w, nth w script (stop_with "")).

Definition no_anthropic (request : AnthropicRequest HpcTools.Kwargs) (w : nat)
  : nat * AnthropicCompletion HpcTools.Kwargs :=
  (w, AAuthenticationError).

(** [json.loads] on the argument texts of the scripts. *)
Definition loads (text : string) : option HpcTools.Kwargs :=
  if String.eqb text "{}" then Some [] else None.

Definition plain_prompt (msg : string) (has_tools : bool) (w : nat) : string :=
  "You are Polaris.".

Definition keep_world (msg : string) (history : option (list (string * string)))
           (session_id : string) (res : RouteResult) (w : nat) : nat := w.

Definition skill (name trigger tool_name : string) : Skill.t :=
  {| Skill.name := name;
     Skill.triggers := [trigger];
     Skill.requires_tool := Some true;
     Skill.strict_mode := Some true;
     Skill.tool_chain := Some [tool_name];
     Skill.tools_required := Some [tool_name] |}.

Definition config (tools : list ToolDef.t) (skills : option (list Skill.t)) : Config :=
  {| backend := "ollama"; allow_paid := false;
     model := OLLAMA_MODEL_FAST;
     model_fast := OLLAMA_MODEL_FAST; model_full := OLLAMA_MODEL_FULL;
     max_iterations := MAX_ITERATIONS;
     tools := tools; skill_registry := skills |}.

(** The HPC monitor is required, and the LLM calls it without arguments. *)
Definition hpc_config : Config :=
  config [tool "monitor_hpc_job" ["job_id"; "path"]]
         (Some [skill "hpc_monitor" "계산" "monitor_hpc_job"]).

Definition hpc_registry : option (gmap string (@Tools.Handler nat HpcTools.Kwargs)) :=
  Some (HpcTools.HANDLERS None "No module named 'hpc_monitor'").

Definition hpc_script : list Completion :=
  [call_tools ["monitor_hpc_job"]; stop_with "hallucinated"].

Definition hpc_turn : Run nat :=
  route [] loads hpc_registry (scripted hpc_script) no_anthropic
        plain_prompt keep_world hpc_config "계산 상태 알려줘" None "s1" 0.

(** The paper search is required, and its handler answers with a payload
    that carries an error field. *)
Definition arxiv_config : Config :=
  config [tool "search_arxiv" ["query"]]
         (Some [skill "arxiv_analysis" "논문" "search_arxiv"]).

Definition arxiv_payload : string :=
  "{" +:+ quoted "papers" +:+ ": [], " +:+ quoted "error" +:+ ": null}".

Definition arxiv_registry : option (gmap string (@Tools.Handler nat HpcTools.Kwargs)) :=
  Some {[ "search_arxiv" :=
            fun (_ : HpcTools.Kwargs) (w : nat) => (w, Ret arxiv_payload) ]}.

Definition arxiv_script : list Completion :=
  [call_tools ["search_arxiv"]; stop_with "no papers"].

Definition arxiv_turn : Run nat :=
  route [] loads arxiv_registry (scripted arxiv_script) no_anthropic
        plain_prompt keep_world arxiv_config "MoS2 논문 분석해줘" None "s1" 0.

(** No skill; the first response asks for eleven searches at once. *)
Definition eager_script : list Completion :=
  [call_tools (repeat "search_arxiv" 11); stop_with "done"].

Definition eager_turn : Run nat :=
  route [] loads arxiv_registry (scripted eager_script) no_anthropic
        plain_prompt keep_world (config [tool "search_arxiv" ["query"]] None)
        "MoS2 논문 검색해줘" None "s1" 0.

(** The HPC turn: the one tool call fails, and the answer is refused. *)
Lemma route_refuses_without_successful_tool_witness :
  result hpc_turn
  = Ret {| response := REFUSAL_NO_TOOL_RESULT; tools_used := ["monitor_hpc_job"] |}.
Proof.
  refine (proj1 (route_refuses_without_successful_tool
                   [] loads hpc_registry (scripted hpc_script)
                   no_anthropic plain_prompt keep_world hpc_config
                   "계산 상태 알려줘" None "s1" 0 "hallucinated" _ _ _ _)).
  - discriminate.
  - vm_compute. reflexivity.
  - vm_compute. reflexivity.
  - vm_compute. repeat constructor.
Defined.

(** The paper turn: the payload carries an error field, and the answer is
    refused. *)
Lemma tool_success_criterion_witness :
  _looks_like_tool_error arxiv_payload = true
  /\ result arxiv_turn
     = Ret {| response := REFUSAL_NO_TOOL_RESULT; tools_used := ["search_arxiv"] |}.
Proof.
  destruct (tool_success_criterion
              [] loads arxiv_registry (scripted arxiv_script)
              no_anthropic plain_prompt keep_world arxiv_config)
    as (_ & _ & Hmark & Hturn).
  assert (Hocc : occurs_in quoted_error (lower arxiv_payload)).
  { apply py_in_spec. vm_compute. reflexivity. }
  split.
  - apply Hmark. exact Hocc.
  - refine (Hturn "MoS2 논문 분석해줘" None "s1" 0 "no papers" _ _ _ _).
    + discriminate.
    + vm_compute. reflexivity.
    + vm_compute. reflexivity.
    + change (executed arxiv_turn) with [("search_arxiv", arxiv_payload)].
      constructor; [exact Hocc | constructor].
Defined.

(** C4, as stated, fails: with the default [max_iterations] of 10 a single
    response that asks for eleven tools puts eleven names in [tools_used]. *)
Lemma tools_used_exceeds_max_iterations :
  max_iterations (config [tool "search_arxiv" ["query"]] None) = 10%Z
  /\ exists res,
      result eager_turn = Ret res
      /\ length (tools_used res) = 11
      /\ ~ (Z.of_nat (length (tools_used res))
            <= max_iterations (config [tool "search_arxiv" ["query"]] None))%Z.
Proof.
  split; [reflexivity|].
  eexists. split; [vm_compute; reflexivity|]. split; [reflexivity|].
  vm_compute. intros H. apply H. reflexivity.
Qed.

Lemma scripted_arxiv_one_call request w choice :
  snd (scripted arxiv_script request w) = Completed choice ->
  length (default [] (tool_calls (message choice))) <= 1.
Proof.
  unfold scripted, arxiv_script. cbn [snd].
  destruct w as [|[|[|w]]]; cbn; intros H; inversion H; subst; cbn; lia.
Qed.

(** The paper turn again: one tool per response, no preflight tool. *)
Lemma route_tools_used_bound_witness :
  llm_calls arxiv_turn <= 10
  /\ (forall res, result arxiv_turn = Ret res -> length (tools_used res) <= 0 + 1 * 10)
  /\ exists res, result arxiv_turn = Ret res.
Proof.
  destruct (route_tools_used_bound
              [] loads arxiv_registry (scripted arxiv_script)
              no_anthropic plain_prompt keep_world arxiv_config
              1 "MoS2 논문 분석해줘" None "s1" 0)
    as (H1 & H2 & H3).
  - exact scripted_arxiv_one_call.
  - intros request w' response H. discriminate H.
  - split; [exact H1|]. split; [exact H2|]. apply H3.
    + reflexivity.
    + intros request w' choice H Hfin.
      unfold scripted, arxiv_script in H. cbn [snd] in H.
      destruct w' as [|[|[|w']]]; cbn in H; inversion H; subst; cbn;
        try discriminate; cbn in Hfin; discriminate.
Defined.

(** *** More scenarios *)

(** The paid backend, opted in; the HPC skill is matched, and the model
    answers at once. *)
Definition paid_config : Config :=
  {| backend := "anthropic"; allow_paid := true;
     model := "claude"; model_fast := OLLAMA_MODEL_FAST;
     model_full := OLLAMA_MODEL_FULL; max_iterations := MAX_ITERATIONS;
     tools := [tool "monitor_hpc_job" ["job_id"; "path"]];
     skill_registry := Some [skill "hpc_monitor" "계산" "monitor_hpc_job"] |}.

Definition paid_answer (request : AnthropicRequest HpcTools.Kwargs) (w : nat)
  : nat * AnthropicCompletion HpcTools.Kwargs :=
  (S w, ACompleted {| stop_reason := "end_turn";
                      blocks := [TextBlock "hallucinated"] |}).

Definition paid_turn : Run nat :=
  route [] loads hpc_registry (scripted hpc_script) paid_answer
        plain_prompt keep_world paid_config "계산 상태 알려줘" None "s1" 0.

(** A router without iterations, and one with three. *)
Definition bounded_config (n : Z) : Config :=
  {| backend := "ollama"; allow_paid := false;
     model := OLLAMA_MODEL_FAST; model_fast := OLLAMA_MODEL_FAST;
     model_full := OLLAMA_MODEL_FULL; max_iterations := n;
     tools := [tool "search_arxiv" ["query"]]; skill_registry := None |}.

(** A model that asks for one more search, whatever it is told. *)
Definition insistent (request : Request) (w : nat) : nat * Completion :=
  (S w, call_tools ["search_arxiv"]).

Definition insistent_turn (n : Z) : Run nat :=
  route [] loads arxiv_registry insistent no_anthropic plain_prompt keep_world
        (bounded_config n) "MoS2 논문 검색해줘" None "s1" 0.

(** The HPC skill is matched, and no tool is registered. *)
Definition bare_turn : Run nat :=
  route [] loads hpc_registry (scripted hpc_script) no_anthropic plain_prompt
        keep_world (config [] (Some [skill "hpc_monitor" "계산" "monitor_hpc_job"]))
        "계산 상태 알려줘" None "s1" 0.

(** The paper turn executed one search, and says so. *)
Lemma route_tools_used_are_executed_witness :
  map fst (executed arxiv_turn) = ["search_arxiv"].
Proof.
  symmetry.
  apply (route_tools_used_are_executed
           [] loads arxiv_registry (scripted arxiv_script) no_anthropic
           plain_prompt keep_world arxiv_config "MoS2 논문 분석해줘" None "s1" 0
           {| response := REFUSAL_NO_TOOL_RESULT; tools_used := ["search_arxiv"] |}).
  vm_compute. reflexivity.
Defined.

(** On the paid backend the unsupported answer goes through. *)
Lemma route_anthropic_returns_final_text_witness :
  requires_tool
    (_resolve_skill_enforcement (tools paid_config)
                                (matched_skills_of paid_config "계산 상태 알려줘"))
  = true
  /\ result paid_turn = Ret {| response := "hallucinated"; tools_used := [] |}.
Proof.
  split; [vm_compute; reflexivity|].
  apply (route_anthropic_returns_final_text
           [] loads hpc_registry (scripted hpc_script) paid_answer plain_prompt
           keep_world paid_config "계산 상태 알려줘" None "s1" 0 "hallucinated").
  - reflexivity.
  - reflexivity.
  - vm_compute. reflexivity.
Defined.

(** Without iterations the turn raises. *)
Lemma route_without_iterations_witness :
  llm_calls (insistent_turn 0) = 0
  /\ exists what, result (insistent_turn 0) = Exc OtherException what.
Proof.
  destruct (route_without_iterations
              [] loads arxiv_registry insistent no_anthropic plain_prompt keep_world
              (bounded_config 0) "MoS2 논문 검색해줘" None "s1" 0)
    as (Hcalls & [Hexit | [Hexit | (_ & Hraise)]]).
  - cbn. lia.
  - vm_compute in Hexit. discriminate Hexit.
  - vm_compute in Hexit. discriminate Hexit.
  - split; [exact Hcalls | exact Hraise].
Defined.

Lemma insistent_always_wants_tools : always_wants_tools insistent.
Proof.
  intros request w. unfold insistent, call_tools. cbn.
  eexists. eexists. split; [reflexivity|]. split; reflexivity.
Qed.

(** With three iterations the insistent model is called three times. *)
Lemma route_cuts_off_endless_tool_use_witness :
  exit (insistent_turn 3) = ExitExhausted
  /\ llm_calls (insistent_turn 3) = 3
  /\ exists res, result (insistent_turn 3) = Ret res.
Proof.
  destruct (route_cuts_off_endless_tool_use
              [] loads arxiv_registry insistent no_anthropic plain_prompt keep_world
              (bounded_config 3) "MoS2 논문 검색해줘" None "s1" 0)
    as [Hexit | H].
  - discriminate.
  - cbn. lia.
  - exact insistent_always_wants_tools.
  - vm_compute in Hexit. discriminate Hexit.
  - exact H.
Defined.

(** Nothing is registered under the name the skill asks for. *)
Lemma route_refuses_unregistered_skill_tools_witness :
  result bare_turn = Ret {| response := REFUSAL_NO_SKILL_TOOLS; tools_used := [] |}
  /\ llm_calls bare_turn = 0.
Proof.
  destruct (route_refuses_unregistered_skill_tools
              [] loads hpc_registry (scripted hpc_script) no_anthropic plain_prompt
              keep_world
              (config [] (Some [skill "hpc_monitor" "계산" "monitor_hpc_job"]))
              "계산 상태 알려줘" None "s1" 0)
    as (Hres & _ & Hcalls & _).
  - discriminate.
  - vm_compute. reflexivity.
  - vm_compute. discriminate.
  - intros tool [].
  - split; [exact Hres | exact Hcalls].
Defined.

(** *** The enforcement policy against its specification *)

(** The ordered union of the specification: every name once, in the order
    of first appearance. *)
Equations? first_seen (l : list string) : list string by wf (length l) lt :=
  first_seen [] := [];
  first_seen (x :: l) :=
    x :: first_seen (List.filter (fun y => negb (String.eqb y x)) l).
Proof.
  clear first_seen.
  induction l as [|y l IH]; cbn; [lia|]. destruct (negb (String.eqb y x)); cbn; lia.
Qed.

Definition ordered_union (ls : list (list string)) : list string :=
  first_seen (concat ls).

(** The policy as the specification states it, over all matched skills. *)
Definition spec_requires_tool (skills : list Skill.t) : bool :=
  existsb (fun skill => default false (Skill.requires_tool skill)) skills.

Definition spec_strict_mode (skills : list Skill.t) : bool :=
  existsb (fun skill => default false (Skill.strict_mode skill)) skills.

Definition spec_tools (skills : list Skill.t) : list string :=
  ordered_union (map ordered_tools skills).

(** The matched skills that require a tool: the only ones the code reads. *)
Definition requiring (skills : list Skill.t) : list Skill.t :=
  List.filter (fun skill => default false (Skill.requires_tool skill)) skills.

Lemma first_seen_In (l : list string) (x : string) : In x (first_seen l) <-> In x l.
Proof.
  funelim (first_seen l); simp first_seen; [tauto|].
  cbn. rewrite H, List.filter_In. split.
  - intros [->|[Hin _]]; auto.
  - intros [->|Hin]; [now left|].
    destruct (String.eqb_spec x0 x) as [->|Hne]; [now left|].
    right. split; [exact Hin | reflexivity].
Qed.

Lemma first_seen_NoDup (l : list string) : List.NoDup (first_seen l).
Proof.
  funelim (first_seen l); simp first_seen; constructor; [|assumption].
  rewrite first_seen_In, List.filter_In. intros [_ Hx].
  now rewrite String.eqb_refl in Hx.
Qed.

Lemma mem_app (x : string) (l1 l2 : list string) :
  mem x (l1 ++ l2) = mem x l1 || mem x l2.
Proof. unfold mem. apply existsb_app. Qed.

Lemma filter_filter {A} (f g : A -> bool) (l : list A) :
  List.filter f (List.filter g l) = List.filter (fun x => g x && f x) l.
Proof.
  induction l as [|x l IH]; cbn; [reflexivity|].
  destruct (g x); cbn; [destruct (f x)|]; now rewrite IH.
Qed.

Lemma filter_new_nil (l : list string) :
  List.filter (fun y => negb (mem y [])) l = l.
Proof.
  induction l as [|x l IH]; [reflexivity|].
  cbn [List.filter]. change (negb (mem x [])) with true. cbn iota. now rewrite IH.
Qed.

(** The append-if-new loop computes the first-seen order of the new names. *)
Lemma fold_append_new (l acc : list string) :
  fold_left append_new l acc
  = acc ++ first_seen (List.filter (fun y => negb (mem y acc)) l).
Proof.
  revert acc; induction l as [|x l IH]; intros acc; cbn [fold_left List.filter].
  - simp first_seen. now rewrite app_nil_r.
  - unfold append_new at 2. destruct (mem x acc) eqn:Hx; cbn [negb].
    + apply IH.
    + rewrite IH. simp first_seen. rewrite <- app_assoc. cbn [app].
      do 3 f_equal. rewrite filter_filter. apply List.filter_ext. intros y.
      rewrite mem_app. cbn. now rewrite orb_false_r, negb_orb.
Qed.

Lemma fold_enforce_name known names e :
  let e' := fold_left (enforce_name known) names e in
  requires_tool e' = requires_tool e
  /\ strict_mode e' = strict_mode e
  /\ allowed_tools e' = fold_left append_new names (allowed_tools e)
  /\ chain_tools e' = fold_left append_new names (chain_tools e).
Proof.
  revert e; induction names as [|x names IH]; intros e; cbn [fold_left].
  - repeat split.
  - specialize (IH (enforce_name known e x)). cbn zeta in IH.
    destruct IH as (H1 & H2 & H3 & H4). rewrite H1, H2, H3, H4. repeat split.
Qed.

Lemma fold_enforce_skill known skills e :
  let e' := fold_left (enforce_skill known) skills e in
  requires_tool e' = requires_tool e || spec_requires_tool skills
  /\ strict_mode e'
     = strict_mode e
       || existsb (fun skill => default true (Skill.strict_mode skill))
                  (requiring skills)
  /\ allowed_tools e'
     = fold_left append_new (concat (map ordered_tools (requiring skills)))
                 (allowed_tools e)
  /\ chain_tools e'
     = fold_left append_new (concat (map ordered_tools (requiring skills)))
                 (chain_tools e).
Proof.
  revert e; induction skills as [|skill skills IH]; intros e; cbn [fold_left].
  - cbn. rewrite !orb_false_r. repeat split.
  - specialize (IH (enforce_skill known e skill)). cbn zeta in IH.
    destruct IH as (H1 & H2 & H3 & H4). rewrite H1, H2, H3, H4.
    unfold enforce_skill, spec_requires_tool, requiring. cbn [existsb List.filter].
    destruct (default false (Skill.requires_tool skill)); cbn [negb].
    + match goal with
      | |- context [fold_left (enforce_name known) ?n ?e0] =>
        destruct (fold_enforce_name known n e0) as (F1 & F2 & F3 & F4)
      end.
      rewrite F1, F2, F3, F4. cbn [map concat existsb requires_tool strict_mode
                                   allowed_tools chain_tools].
      rewrite !fold_left_app, orb_true_r, orb_assoc. repeat split.
    + cbn. repeat split.
Qed.

(** C5, as stated, fails: a matched skill that does not require a tool
    contributes neither its [strict_mode] flag nor its tools. *)
Lemma enforcement_ignores_optional_skill :
  let optional :=
    {| Skill.name := "notes"; Skill.triggers := ["note"];
       Skill.requires_tool := Some false; Skill.strict_mode := Some true;
       Skill.tool_chain := Some ["search_arxiv"];
       Skill.tools_required := Some [] |} in
  let policy := _resolve_skill_enforcement [] [optional] in
  spec_strict_mode [optional] = true /\ strict_mode policy = false
  /\ spec_tools [optional] = ["search_arxiv"] /\ allowed_tools policy = []
  /\ chain_tools policy = [].
Proof. cbn zeta. repeat split. Qed.

(** C5 (amended): [requires_tool] is the OR of the matched skills' flags;
    [strict_mode] is the OR of the [strict_mode] flags of the matched
    skills that require a tool (a missing flag counting as true); and
    [allowed_tools] and [chain_tools] are both the ordered union, in
    first-seen order, of the tool chains (else required tools) of the
    matched skills that require a tool. *)
Theorem enforcement_policy (tools : list ToolDef.t) (matched_skills : list Skill.t) :
  let policy := _resolve_skill_enforcement tools matched_skills in
  requires_tool policy = spec_requires_tool matched_skills
  /\ strict_mode policy
     = existsb (fun skill => default true (Skill.strict_mode skill))
               (requiring matched_skills)
  /\ allowed_tools policy = spec_tools (requiring matched_skills)
  /\ chain_tools policy = spec_tools (requiring matched_skills)
  /\ List.NoDup (allowed_tools policy)
  /\ (forall name,
         In name (allowed_tools policy) <->
         exists skill,
           In skill matched_skills
           /\ default false (Skill.requires_tool skill) = true
           /\ In name (ordered_tools skill)).
Proof.
  cbn zeta. unfold _resolve_skill_enforcement.
  destruct (fold_enforce_skill (known_tools_of tools) matched_skills no_enforcement)
    as (H1 & H2 & H3 & H4).
  cbn [no_enforcement requires_tool strict_mode allowed_tools chain_tools] in *.
  assert (Hunion : fold_left append_new
                             (concat (map ordered_tools (requiring matched_skills))) []
                   = spec_tools (requiring matched_skills)).
  { rewrite fold_append_new. cbn [app]. unfold spec_tools, ordered_union. f_equal.
    apply filter_new_nil. }
  rewrite H1, H2, H3, H4, Hunion. repeat split; try reflexivity.
  - apply first_seen_NoDup.
  - unfold spec_tools, ordered_union. rewrite first_seen_In, in_concat.
    intros (names & Hnames & Hin). apply in_map_iff in Hnames.
    destruct Hnames as (skill & <- & Hskill). apply List.filter_In in Hskill.
    exists skill. tauto.
  - intros (skill & Hin & Hreq & Hname).
    unfold spec_tools, ordered_union. rewrite first_seen_In, in_concat.
    exists (ordered_tools skill). split; [|exact Hname].
    apply in_map. apply List.filter_In. tauto.
Qed.

(** *** Which tools run before the first model call *)

(** [known_tools.get(name)]: among the registered definitions of one
    name, the last. *)
Definition registered_as (tools : list ToolDef.t) (name : string) : option ToolDef.t :=
  List.find (fun tool => String.eqb (ToolDef.name tool) name) (rev tools).

(** [not tool_def.get("input_schema", {}).get("required", [])] *)
Definition needs_no_argument (tool_def : ToolDef.t) : bool :=
  match default [] (ToolDef.required
                      (default empty_schema (ToolDef.input_schema tool_def))) with
  | [] => true
  | _ :: _ => false
  end.

Definition runs_unasked (tools : list ToolDef.t) (name : string) : bool :=
  match registered_as tools name with
  | Some tool_def => needs_no_argument tool_def
  | None => false
  end.

Lemma find_app {A} (f : A -> bool) (l1 l2 : list A) :
  List.find f (l1 ++ l2)
  = match List.find f l1 with Some x => Some x | None => List.find f l2 end.
Proof.
  induction l1 as [|x l1 IH]; cbn; [reflexivity|]. now destruct (f x).
Qed.

Lemma allowed_tools_NoDup (tools : list ToolDef.t) (matched_skills : list Skill.t) :
  List.NoDup (allowed_tools (_resolve_skill_enforcement tools matched_skills)).
Proof.
  unfold _resolve_skill_enforcement.
  destruct (fold_enforce_skill (known_tools_of tools) matched_skills no_enforcement)
    as (_ & _ & H3 & _).
  rewrite H3, fold_append_new. cbn [no_enforcement allowed_tools app].
  apply first_seen_NoDup.
Qed.

Lemma fold_insert_lookup (tools : list ToolDef.t) (m : gmap string ToolDef.t)
      (name : string) :
  fold_left (fun m t => <[ToolDef.name t := t]> m) tools m !! name
  = match registered_as tools name with
    | Some tool_def => Some tool_def
    | None => m !! name
    end.
Proof.
  unfold registered_as. revert m.
  induction tools as [|tool tools IH]; intros m; cbn [fold_left rev].
  - reflexivity.
  - rewrite IH, find_app. cbn [List.find].
    destruct (List.find _ (rev tools)); [reflexivity|].
    destruct (String.eqb_spec (ToolDef.name tool) name) as [<-|Hne].
    + apply lookup_insert_eq.
    + now apply lookup_insert_ne.
Qed.

Lemma known_tools_of_lookup (tools : list ToolDef.t) (name : string) :
  known_tools_of tools !! name = registered_as tools name.
Proof.
  unfold known_tools_of. rewrite fold_insert_lookup.
  destruct (registered_as tools name); [reflexivity | apply lookup_empty].
Qed.

Lemma mem_In (x : string) (l : list string) : mem x l = true <-> In x l.
Proof.
  unfold mem. rewrite existsb_exists. split.
  - intros (y & Hin & Heq). apply String.eqb_eq in Heq. now subst.
  - intros Hin. exists x. split; [exact Hin | apply String.eqb_refl].
Qed.

Lemma enforce_name_preflight tools e name :
  preflight_tools e = List.filter (runs_unasked tools) (allowed_tools e) ->
  preflight_tools (enforce_name (known_tools_of tools) e name)
  = List.filter (runs_unasked tools)
                (allowed_tools (enforce_name (known_tools_of tools) e name)).
Proof.
  intros Hinv. unfold enforce_name. cbn [preflight_tools allowed_tools].
  rewrite known_tools_of_lookup.
  assert (Hrun : runs_unasked tools name
                 = match registered_as tools name with
                   | Some tool_def => needs_no_argument tool_def
                   | None => false
                   end) by reflexivity.
  destruct (mem name (allowed_tools e)) eqn:Hmem.
  - replace (append_new (allowed_tools e) name) with (allowed_tools e)
      by (unfold append_new; now rewrite Hmem).
    destruct (registered_as tools name) as [tool_def|]; [|exact Hinv].
    unfold needs_no_argument in Hrun.
    destruct (default [] _); [|exact Hinv].
    unfold append_new. replace (mem name (preflight_tools e)) with true; [exact Hinv|].
    symmetry. apply mem_In. rewrite Hinv. apply List.filter_In.
    split; [now apply mem_In | exact Hrun].
  - replace (append_new (allowed_tools e) name) with (allowed_tools e ++ [name])
      by (unfold append_new; now rewrite Hmem).
    rewrite List.filter_app. cbn [List.filter]. rewrite <- Hinv.
    assert (Hnew : mem name (preflight_tools e) = false).
    { destruct (mem name (preflight_tools e)) eqn:Hpre; [|reflexivity].
      apply mem_In in Hpre. rewrite Hinv in Hpre. apply List.filter_In in Hpre.
      destruct Hpre as [Hin _]. apply mem_In in Hin. congruence. }
    destruct (registered_as tools name) as [tool_def|].
    + unfold needs_no_argument in Hrun. rewrite Hrun.
      destruct (default [] _).
      * unfold append_new. now rewrite Hnew.
      * now rewrite app_nil_r.
    + rewrite Hrun. now rewrite app_nil_r.
Qed.

Lemma enforce_skill_preflight tools e skill :
  preflight_tools e = List.filter (runs_unasked tools) (allowed_tools e) ->
  preflight_tools (enforce_skill (known_tools_of tools) e skill)
  = List.filter (runs_unasked tools)
                (allowed_tools (enforce_skill (known_tools_of tools) e skill)).
Proof.
  intros Hinv. unfold enforce_skill.
  destruct (negb (default false (Skill.requires_tool skill))); [exact Hinv|].
  match goal with
  | |- context [fold_left _ _ ?e0] =>
    assert (H0 : preflight_tools e0
                 = List.filter (runs_unasked tools) (allowed_tools e0)) by exact Hinv;
    generalize dependent e0
  end.
  induction (ordered_tools skill) as [|name names IH]; intros e0 H0; cbn [fold_left].
  - exact H0.
  - apply IH. now apply enforce_name_preflight.
Qed.

(** X6: the tools run before the first model call are the allowed tools,
    in their order, whose registered definition (the last one of that
    name) lists no required argument; an allowed name that is not
    registered is never among them, and no name is run twice. *)
Theorem preflight_tools_are_argument_free (tools : list ToolDef.t)
        (matched_skills : list Skill.t) :
  let policy := _resolve_skill_enforcement tools matched_skills in
  preflight_tools policy = List.filter (runs_unasked tools) (allowed_tools policy)
  /\ List.NoDup (preflight_tools policy)
  /\ (forall name,
         In name (preflight_tools policy) ->
         exists tool_def,
           In tool_def tools /\ ToolDef.name tool_def = name
           /\ needs_no_argument tool_def = true).
Proof.
  cbn zeta.
  assert (Hinv : preflight_tools (_resolve_skill_enforcement tools matched_skills)
                 = List.filter (runs_unasked tools)
                     (allowed_tools (_resolve_skill_enforcement tools matched_skills))).
  { unfold _resolve_skill_enforcement.
    assert (H0 : preflight_tools no_enforcement
                 = List.filter (runs_unasked tools) (allowed_tools no_enforcement))
      by reflexivity.
    generalize dependent no_enforcement.
    induction matched_skills as [|skill skills IH]; intros e0 H0; cbn [fold_left].
    - exact H0.
    - apply IH. now apply enforce_skill_preflight. }
  split; [exact Hinv|]. split.
  - rewrite Hinv. apply List.NoDup_filter.
    apply allowed_tools_NoDup.
  - intros name Hin. rewrite Hinv in Hin. apply List.filter_In in Hin.
    destruct Hin as [_ Hrun]. unfold runs_unasked, registered_as in Hrun.
    destruct (List.find _ (rev tools)) as [tool_def|] eqn:Hfind; [|discriminate].
    apply List.find_some in Hfind. destruct Hfind as [Hin Heq].
    exists tool_def. split; [now apply in_rev | split; [now apply String.eqb_eq | exact Hrun]].
Qed.

(** A chain of a connection check, which takes no argument, and a job
    monitor, which takes two. *)
Definition hpc_chain : Skill.t :=
  {| Skill.name := "hpc_monitor"; Skill.triggers := ["계산"];
     Skill.requires_tool := Some true; Skill.strict_mode := None;
     Skill.tool_chain := Some ["check_hpc_connection"; "monitor_hpc_job"];
     Skill.tools_required := None |}.

Definition hpc_tools : list ToolDef.t :=
  [tool "check_hpc_connection" []; tool "monitor_hpc_job" ["job_id"; "path"]].

Lemma preflight_tools_are_argument_free_witness :
  preflight_tools (_resolve_skill_enforcement hpc_tools [hpc_chain])
  = ["check_hpc_connection"]
  /\ exists tool_def,
      In tool_def hpc_tools /\ ToolDef.name tool_def = "check_hpc_connection"
      /\ needs_no_argument tool_def = true.
Proof.
  split; [vm_compute; reflexivity|].
  apply (proj2 (proj2 (preflight_tools_are_argument_free hpc_tools [hpc_chain]))
               "check_hpc_connection").
  vm_compute. left. reflexivity.
Defined.

(** *** Skill matching and keyword selection *)

Lemma is_empty_lower (s : string) : is_empty (lower s) = is_empty s.
Proof. now destruct s. Qed.

Lemma any_exists {A} (p : A -> bool) (l : list A) :
  any p l = true <-> exists x, In x l /\ p x = true.
Proof. apply existsb_exists. Qed.

(** X8: [SkillRegistry.match] keeps, in the order of the index, the
    skills one of whose triggers, lower-cased, occurs in the lower-cased
    message; an empty message matches no skill, and the result does not
    depend on the case of the message's ASCII letters. *)
Theorem match_skills_spec (index : list Skill.t) (message : string) :
  (forall skill,
      In skill (Skill.match_skills index message) <->
      message <> ""
      /\ In skill index
      /\ exists trigger,
          In trigger (Skill.triggers skill)
          /\ occurs_in (lower trigger) (lower message))
  /\ Skill.match_skills index (lower message) = Skill.match_skills index message
  /\ (forall more,
         Skill.match_skills (index ++ more) message
         = Skill.match_skills index message ++ Skill.match_skills more message).
Proof.
  unfold Skill.match_skills. split; [|split].
  - intros skill. destruct message as [|c message]; cbn [is_empty].
    + split; [intros [] | intros [H _]; congruence].
    + rewrite List.filter_In, any_exists. split.
      * intros [Hin (trigger & Htrigger & Hocc)]. split; [discriminate|].
        split; [exact Hin|]. exists trigger. split; [exact Htrigger|].
        now apply py_in_spec.
      * intros (_ & Hin & trigger & Htrigger & Hocc). split; [exact Hin|].
        exists trigger. split; [exact Htrigger|]. now apply py_in_spec.
  - now rewrite is_empty_lower, lower_idempotent.
  - intros more. destruct (is_empty message); [reflexivity|].
    apply List.filter_app.
Qed.

(** X9: [_select_relevant_tools] keeps, in registration order, the tools
    one of whose keywords in [TOOL_KEYWORDS] occurs in the lower-cased
    message; a tool without an entry there is never selected, and the
    selection does not depend on the case of the message's ASCII letters. *)
Theorem select_relevant_tools_spec (registered : list ToolDef.t) (message : string) :
  (forall tool,
      In tool (_select_relevant_tools registered message) <->
      In tool registered
      /\ exists keywords kw,
          TOOL_KEYWORDS !! ToolDef.name tool = Some keywords
          /\ In kw keywords /\ occurs_in kw (lower message))
  /\ _select_relevant_tools registered (lower message)
     = _select_relevant_tools registered message
  /\ (forall more,
         _select_relevant_tools (registered ++ more) message
         = _select_relevant_tools registered message
             ++ _select_relevant_tools more message).
Proof.
  unfold _select_relevant_tools. split; [|split].
  - intros tool. rewrite List.filter_In, any_exists. split.
    + intros [Hin (kw & Hkw & Hocc)]. split; [exact Hin|].
      destruct (TOOL_KEYWORDS !! ToolDef.name tool) as [keywords|]; [|destruct Hkw].
      exists keywords, kw. split; [reflexivity|]. split; [exact Hkw|].
      now apply py_in_spec.
    + intros [Hin (keywords & kw & Hsome & Hkw & Hocc)]. split; [exact Hin|].
      rewrite Hsome. exists kw. split; [exact Hkw | now apply py_in_spec].
  - now rewrite lower_idempotent.
  - intros more. apply List.filter_app.
Qed.

End Router.

(** ** Tool errors, from the registry to the router *)

Module ToolErrors.
Import PyStr.

(** The text [_execute_tool] returns for a handler call that raised [e]. *)
Definition failure_text (name e : string) : string :=
  "Tool '" +:+ name +:+ "' failed: " +:+ e.

Definition UNAVAILABLE : string :=
  "Tool execution unavailable (polaris.tools not loaded)".

Lemma failure_text_not_json (name e : string) :
  ~ Json.is_error_string (failure_text name e).
Proof. intros [msg H]. discriminate H. Qed.

Lemma unavailable_not_json : ~ Json.is_error_string UNAVAILABLE.
Proof. intros [msg H]. discriminate H. Qed.

(** A cluster that refuses the connection. *)
Definition unreachable (job_id path : string) (cluster : option string) (w : nat)
  : nat * Py string :=
  (S w, Exc OtherException "connection refused").

Definition hpc_handlers : gmap string (@Tools.Handler nat HpcTools.Kwargs) :=
  HpcTools.HANDLERS (Some unreachable) "".

Definition MISSING_ARGUMENTS : string :=
  "handle_monitor_hpc_job() missing 2 required positional arguments: "
  +:+ "'job_id' and 'path'".

(** C7, as stated, fails: called without its arguments (the router passes
    [{}] when the LLM's argument text does not parse), the handler call
    raises; the exception leaves the registry's [execute_tool], and the text
    the router makes of it is not JSON. *)
Lemma handler_exception_is_not_json :
  Tools.execute_tool hpc_handlers "monitor_hpc_job" [] 0
  = (0, Exc OtherException MISSING_ARGUMENTS)
  /\ Router._execute_tool (Some hpc_handlers) "monitor_hpc_job" [] 0
     = (0, "Tool 'monitor_hpc_job' failed: " +:+ MISSING_ARGUMENTS)
  /\ ~ Json.is_error_string ("Tool 'monitor_hpc_job' failed: " +:+ MISSING_ARGUMENTS).
Proof.
  split; [vm_compute; reflexivity|]. split; [vm_compute; reflexivity|].
  apply (failure_text_not_json "monitor_hpc_job" MISSING_ARGUMENTS).
Qed.

(** C7 (amended): for a name without a handler, the registry's
    [execute_tool] returns the JSON error string
    [{"error": "Unknown tool: <name>"}], and the router passes it on.  An
    exception raised in the body of a handler that guards its body, as
    [handle_monitor_hpc_job] does, is rendered by the handler itself into a
    JSON error string.  An exception that leaves the handler call, such as
    the [TypeError] of a call with missing arguments, leaves [execute_tool]
    too; the router's [_execute_tool] catches it and returns a plain text,
    which is not a JSON error string: [Tool '<name>' failed: <e>], or the
    unavailability notice for an [ImportError]. *)
Theorem tool_errors_become_text {World Args : Type}
        (handlers : gmap string (@Tools.Handler World Args))
        (name : string) (args : Args) (w : World) :
  (handlers !! name = None ->
   Tools.execute_tool handlers name args w
   = (w, Ret (Json.dumps_error ("Unknown tool: " +:+ name)))
   /\ Json.is_error_string (Json.dumps_error ("Unknown tool: " +:+ name))
   /\ Router._execute_tool (Some handlers) name args w
      = (w, Json.dumps_error ("Unknown tool: " +:+ name)))
  /\ (forall handler w' cls e,
         handlers !! name = Some handler ->
         handler args w = (w', Exc cls e) ->
         Tools.execute_tool handlers name args w = (w', Exc cls e)
         /\ Router._execute_tool (Some handlers) name args w
            = (w', match cls with
                   | ImportError => UNAVAILABLE
                   | OtherException => failure_text name e
                   end)
         /\ ~ Json.is_error_string
              (snd (Router._execute_tool (Some handlers) name args w)))
  /\ (forall handler w' text,
         handlers !! name = Some handler ->
         handler args w = (w', Ret text) ->
         Router._execute_tool (Some handlers) name args w = (w', text))
  /\ (forall monitor_job import_error job_id path w' cls e,
         monitor_job job_id path None w = (w', Exc cls e) ->
         Tools.execute_tool (HpcTools.HANDLERS (Some monitor_job) import_error)
                            "monitor_hpc_job" [("job_id", job_id); ("path", path)] w
         = (w', Ret (Json.dumps_error e))).
Proof.
  unfold Router._execute_tool, Tools.execute_tool, Tools.Handler in *.
  split; [|split; [|split]].
  - intros Hnone. rewrite Hnone.
    repeat split. now eexists.
  - intros handler w' cls e Hsome Hraise. rewrite Hsome, Hraise.
    split; [reflexivity|]. destruct cls; (split; [reflexivity|]); cbn [snd].
    + apply unavailable_not_json.
    + apply failure_text_not_json.
  - intros handler w' text Hsome Hret. now rewrite Hsome, Hret.
  - intros monitor_job import_error job_id path w' cls e Hraise.
    unfold HpcTools.HANDLERS. rewrite lookup_singleton_eq.
    unfold HpcTools.handle_monitor_hpc_job. cbn. now rewrite Hraise.
Qed.

(** An unknown tool, a call without arguments, and an unreachable cluster. *)
Lemma tool_errors_become_text_witness :
  Tools.execute_tool hpc_handlers "nonexistent_tool_xyz" [] 0
  = (0, Ret (Json.dumps_error "Unknown tool: nonexistent_tool_xyz"))
  /\ Router._execute_tool (Some hpc_handlers) "monitor_hpc_job" [] 0
     = (0, failure_text "monitor_hpc_job" MISSING_ARGUMENTS)
  /\ Tools.execute_tool hpc_handlers "monitor_hpc_job"
                        [("job_id", "12345"); ("path", "/lus/relax")] 0
     = (1, Ret (Json.dumps_error "connection refused")).
Proof.
  destruct (tool_errors_become_text hpc_handlers "nonexistent_tool_xyz" [] 0)
    as (Hunknown & _ & _).
  destruct (tool_errors_become_text hpc_handlers "monitor_hpc_job" [] 0)
    as (_ & Hraise & _ & Hguard).
  split; [|split].
  - apply Hunknown. vm_compute. reflexivity.
  - refine (proj1 (proj2 (Hraise _ 0 OtherException MISSING_ARGUMENTS _ _))).
    + vm_compute. reflexivity.
    + vm_compute. reflexivity.
  - apply (Hguard unreachable "" "12345" "/lus/relax" 1 OtherException
                  "connection refused").
    reflexivity.
Defined.

(** *** Which error texts the router counts as failures *)

Lemma quoted_error_is_flagged (text : string) :
  occurs_in Router.quoted_error (lower text) ->
  Router._looks_like_tool_error text = true.
Proof.
  intros H. apply py_in_spec in H. unfold Router._looks_like_tool_error.
  fold Router.quoted_error. rewrite H. now rewrite orb_true_r.
Qed.

Lemma dumps_error_is_flagged (msg : string) :
  Router._looks_like_tool_error (Json.dumps_error msg) = true.
Proof.
  apply quoted_error_is_flagged.
  change (Json.dumps_error msg)
    with ("{" +:+ Router.quoted_error +:+ (": " +:+ Json.dumps_str msg +:+ "}")).
  rewrite !lower_app.
  change (lower Router.quoted_error) with Router.quoted_error.
  apply occurs_in_app.
Qed.

Lemma failure_text_is_flagged (name e : string) :
  Router._looks_like_tool_error (failure_text name e) = true.
Proof.
  unfold Router._looks_like_tool_error, failure_text.
  assert (Htool : py_in "tool '" (lower ("Tool '" +:+ name +:+ "' failed: " +:+ e))
                  = true).
  { apply py_in_spec. exists "", (lower (name +:+ "' failed: " +:+ e)).
    now rewrite (lower_app "Tool '"). }
  assert (Hfailed : py_in "failed" (lower ("Tool '" +:+ name +:+ "' failed: " +:+ e))
                    = true).
  { apply py_in_spec. exists ("tool '" +:+ lower name +:+ "' "), (": " +:+ lower e).
    rewrite (lower_app "Tool '"), (lower_app name), (lower_app "' failed: ").
    change (lower "Tool '") with "tool '".
    change (lower "' failed: ") with ("' " +:+ "failed" +:+ ": ").
    now rewrite !append_assoc. }
  now rewrite Htool, Hfailed.
Qed.

(** X7: of the texts [_execute_tool] makes of a failed call, the router
    counts as failures the registry's JSON error for an unknown tool, the
    JSON error a guarded handler returns, and the text for an exception that
    left the handler.  The notice that the tool package could not be
    imported is not counted as a failure: with the package missing, every
    tool call of the loop is recorded as a success. *)
Theorem failed_tool_calls_are_recognised {World Args : Type}
        (registry : option (gmap string (@Tools.Handler World Args)))
        (name : string) (args : Args) (w : World) :
  let text := snd (Router._execute_tool registry name args w) in
  (forall handlers,
      registry = Some handlers -> handlers !! name = None ->
      Router._looks_like_tool_error text = true)
  /\ (forall handlers handler w' e,
         registry = Some handlers -> handlers !! name = Some handler ->
         handler args w = (w', Exc OtherException e) ->
         Router._looks_like_tool_error text = true)
  /\ (forall handlers handler w' msg,
         registry = Some handlers -> handlers !! name = Some handler ->
         handler args w = (w', Ret (Json.dumps_error msg)) ->
         Router._looks_like_tool_error text = true)
  /\ (forall handlers handler w' e,
         registry = Some handlers -> handlers !! name = Some handler ->
         handler args w = (w', Exc ImportError e) ->
         text = UNAVAILABLE /\ Router._looks_like_tool_error text = false)
  /\ (registry = None ->
      text = UNAVAILABLE
      /\ forall empty_args json_loads st messages tool_call,
          Router.l_successful_tools
            (fst (Router.run_tool_call empty_args json_loads registry
                                       (st, messages) tool_call))
          = Router.l_successful_tools st ++ [Router.call_name tool_call]).
Proof.
  cbn zeta. unfold Router._execute_tool, Tools.execute_tool, Tools.Handler in *.
  split; [|split; [|split; [|split]]].
  - intros handlers -> Hnone. rewrite Hnone. apply dumps_error_is_flagged.
  - intros handlers handler w' e -> Hsome Hraise. rewrite Hsome, Hraise.
    apply failure_text_is_flagged.
  - intros handlers handler w' msg -> Hsome Hret. rewrite Hsome, Hret.
    apply dumps_error_is_flagged.
  - intros handlers handler w' e -> Hsome Hraise. rewrite Hsome, Hraise.
    split; reflexivity.
  - intros ->. split; [reflexivity|].
    intros empty_args json_loads st messages tool_call. reflexivity.
Qed.

(** An unknown tool is a failure; a tool of the missing package is not. *)
Lemma failed_tool_calls_are_recognised_witness :
  Router._looks_like_tool_error
    (snd (Router._execute_tool (Some hpc_handlers) "nonexistent_tool_xyz" [] 0)) = true
  /\ Router._looks_like_tool_error
       (snd (Router._execute_tool
               (@None (gmap string (@Tools.Handler nat HpcTools.Kwargs)))
               "monitor_hpc_job" [] 0)) = false.
Proof.
  split.
  - apply (proj1 (failed_tool_calls_are_recognised
                    (Some hpc_handlers) "nonexistent_tool_xyz" [] 0) hpc_handlers).
    + reflexivity.
    + vm_compute. reflexivity.
  - destruct (failed_tool_calls_are_recognised
                (@None (gmap string (@Tools.Handler nat HpcTools.Kwargs)))
                "monitor_hpc_job" [] 0) as (_ & _ & _ & _ & Hnone).
    destruct (Hnone eq_refl) as [Htext _]. rewrite Htext. reflexivity.
Defined.

End ToolErrors.

(** ** Tool discovery ([polaris/tools/__init__.py]) *)

Module Discovery.
Import PyStr.

(** [s.endswith(suffix)] *)
Fixpoint endswith (suffix s : string) : bool :=
  String.eqb s suffix
  || match s with
     | EmptyString => false
     | String _ s' => endswith suffix s'
     end.

Section Discover.

Context {Handler : Type}.

(** What importing a tool module gives: its [TOOLS] and [HANDLERS]
    attributes, each of which may be missing; the items of [HANDLERS] are in
    the order of the dict. *)
Record ToolModule := {
  TOOLS : option (list ToolDef.t);
  HANDLERS : option (list (string * Handler));
}.

(** The two module globals. *)
Record Registry := {
  _TOOL_DEFS : list ToolDef.t;
  _HANDLERS : gmap string Handler;
}.

(** [_HANDLERS[name] = fn] for the items of one module. *)
Definition bind_all (handlers : list (string * Handler)) (m : gmap string Handler)
  : gmap string Handler :=
  fold_left (fun m item => <[fst item := snd item]> m) handlers m.

(** The body of the loop over [pkgutil.iter_modules]: a module is given by
    its name and by what importing it would give, [None] when the import
    raises. *)
Definition collect (reg : Registry) (found : string * option ToolModule) : Registry :=
  if negb (endswith "_tools" (fst found)) then reg
  else
    match snd found with
    | None => reg
    | Some module =>
      {| _TOOL_DEFS := _TOOL_DEFS reg ++ default [] (TOOLS module);
         _HANDLERS := bind_all (default [] (HANDLERS module)) (_HANDLERS reg) |}
    end.

Definition _discover_tools (modules : list (string * option ToolModule)) : Registry :=
  fold_left collect modules {| _TOOL_DEFS := []; _HANDLERS := ∅ |}.

(** [get_all_tools] *)
Definition get_all_tools (reg : Registry) : list ToolDef.t := _TOOL_DEFS reg.

(** The modules that are loaded: named [*_tools], and imported. *)
Definition loaded (modules : list (string * option ToolModule)) : list ToolModule :=
  flat_map (fun found =>
              if endswith "_tools" (fst found)
              then match snd found with Some module => [module] | None => [] end
              else [])
           modules.

(** The handler bound to a name last. *)
Definition bound_last (items : list (string * Handler)) (name : string)
  : option Handler :=
  option_map snd (List.find (fun item => String.eqb (fst item) name) (rev items)).

Lemma endswith_spec (suffix s : string) :
  endswith suffix s = true <-> exists a, s = a +:+ suffix.
Proof.
  induction s as [|c s IH]; cbn [endswith].
  - rewrite orb_false_r, String.eqb_eq. split.
    + intros <-. now exists "".
    + intros [a Ha]. destruct a; [exact Ha | discriminate Ha].
  - rewrite orb_true_iff, String.eqb_eq, IH. split.
    + intros [<- | [a ->]]; [now exists "" | now exists (String c a)].
    + intros [a Ha]. destruct a as [|x a].
      * left. exact Ha.
      * right. change (String x a +:+ suffix) with (String x (a +:+ suffix)) in Ha.
        inversion Ha. now exists a.
Qed.

Lemma bind_all_lookup (items : list (string * Handler)) (m : gmap string Handler)
      (name : string) :
  bind_all items m !! name
  = match bound_last items name with
    | Some fn => Some fn
    | None => m !! name
    end.
Proof.
  unfold bind_all, bound_last. revert m.
  induction items as [|item items IH]; intros m; cbn [fold_left rev].
  - reflexivity.
  - rewrite IH, Router.find_app. cbn [List.find].
    destruct (List.find _ (rev items)) as [found|]; [reflexivity|].
    destruct (String.eqb_spec (fst item) name) as [<-|Hne]; cbn [option_map].
    + apply lookup_insert_eq.
    + now apply lookup_insert_ne.
Qed.

Lemma bound_last_app (items more : list (string * Handler)) (name : string) :
  bound_last (items ++ more) name
  = match bound_last more name with
    | Some fn => Some fn
    | None => bound_last items name
    end.
Proof.
  unfold bound_last. rewrite rev_app_distr, Router.find_app.
  now destruct (List.find _ (rev more)).
Qed.

Lemma fold_collect (modules : list (string * option ToolModule)) (reg : Registry) :
  _TOOL_DEFS (fold_left collect modules reg)
  = _TOOL_DEFS reg ++ concat (map (fun module => default [] (TOOLS module)) (loaded modules))
  /\ forall name,
      _HANDLERS (fold_left collect modules reg) !! name
      = match bound_last
                (concat (map (fun module => default [] (HANDLERS module)) (loaded modules)))
                name with
        | Some fn => Some fn
        | None => _HANDLERS reg !! name
        end.
Proof.
  revert reg. induction modules as [|[module_name imported] modules IH]; intros reg.
  - cbn. now rewrite app_nil_r.
  - cbn [fold_left]. destruct (IH (collect reg (module_name, imported))) as [IH1 IH2].
    unfold loaded in *. cbn [flat_map]. unfold collect in *. cbn [fst snd] in *.
    destruct (endswith "_tools" module_name); cbn [negb] in *;
      [destruct imported as [module|]|]; cbn [app map concat] in *;
      try (split; assumption).
    split.
    + rewrite IH1. cbn [_TOOL_DEFS]. now rewrite app_assoc.
    + intros name. rewrite IH2, bound_last_app. cbn [_HANDLERS].
      rewrite bind_all_lookup.
      now destruct (bound_last (concat _) name).
Qed.

(** X22: tool discovery.  The tool definitions are those of the loaded
    modules (named [*_tools], import succeeded), in module order, duplicates
    kept; the handler of a name is the one bound last among the loaded
    modules, and a name no loaded module binds has none.  A module whose
    name does not end in [_tools], or whose import raises, changes
    nothing. *)
Theorem discover_tools_spec (modules : list (string * option ToolModule)) :
  get_all_tools (_discover_tools modules)
  = concat (map (fun module => default [] (TOOLS module)) (loaded modules))
  /\ (forall name,
         _HANDLERS (_discover_tools modules) !! name
         = bound_last
             (concat (map (fun module => default [] (HANDLERS module)) (loaded modules)))
             name)
  /\ (forall before after module_name imported,
         modules = before ++ (module_name, imported) :: after ->
         (forall a, module_name <> a +:+ "_tools") \/ imported = None ->
         _discover_tools modules = _discover_tools (before ++ after)).
Proof.
  unfold get_all_tools, _discover_tools. split; [|split].
  - now rewrite (proj1 (fold_collect modules _)).
  - intros name. rewrite (proj2 (fold_collect modules _)). cbn [_HANDLERS].
    rewrite lookup_empty. now destruct (bound_last _ name).
  - intros before after module_name imported -> Hskip.
    assert (Hsame : forall reg, collect reg (module_name, imported) = reg).
    { intros reg. unfold collect. cbn [fst snd].
      destruct (endswith "_tools" module_name) eqn:Hname; [|reflexivity].
      destruct Hskip as [Hname'| ->]; [|reflexivity].
      apply endswith_spec in Hname. destruct Hname as [a Ha].
      now contradiction (Hname' a). }
    rewrite !fold_left_app. cbn [fold_left]. now rewrite Hsame.
Qed.

End Discover.

(** Two tool modules that both bind [search_arxiv], a helper module, and a
    module that fails to import. *)
Definition found_modules : list (string * option (@ToolModule nat)) :=
  [("arxiv_tools",
    Some {| TOOLS := Some [Router.tool "search_arxiv" ["query"]];
            HANDLERS := Some [("search_arxiv", 1)] |});
   ("helpers", Some {| TOOLS := None; HANDLERS := Some [("search_arxiv", 2)] |});
   ("mailops_tools", None);
   ("paper_tools",
    Some {| TOOLS := Some [Router.tool "search_arxiv" ["query"; "limit"]];
            HANDLERS := Some [("search_arxiv", 3)] |})].

Lemma discover_tools_spec_witness :
  _HANDLERS (_discover_tools found_modules) !! "search_arxiv" = Some 3
  /\ length (get_all_tools (_discover_tools found_modules)) = 2
  /\ _discover_tools found_modules
     = _discover_tools
         [("arxiv_tools",
           Some {| TOOLS := Some [Router.tool "search_arxiv" ["query"]];
                   HANDLERS := Some [("search_arxiv", 1)] |});
          ("helpers", Some {| TOOLS := None; HANDLERS := Some [("search_arxiv", 2)] |});
          ("paper_tools",
           Some {| TOOLS := Some [Router.tool "search_arxiv" ["query"; "limit"]];
                   HANDLERS := Some [("search_arxiv", 3)] |})].
Proof.
  destruct (discover_tools_spec found_modules) as (Htools & Hhandlers & Hskip).
  split; [rewrite Hhandlers; reflexivity|].
  split; [rewrite Htools; reflexivity|].
  apply (Hskip [("arxiv_tools", _); ("helpers", _)] [("paper_tools", _)]
               "mailops_tools" None).
  - reflexivity.
  - right. reflexivity.
Defined.

End Discovery.

(** ** The approval gate ([polaris/approval_gate.py]) *)

Module ApprovalGate.
Import PyStr.

Inductive RiskLevel := AUTO | CONFIRM | CRITICAL.

(** [risk.value] *)
Definition value (risk : RiskLevel) : string :=
  match risk with
  | AUTO => "AUTO"
  | CONFIRM => "CONFIRM"
  | CRITICAL => "CRITICAL"
  end.

Definition is_auto (risk : RiskLevel) : bool :=
  match risk with AUTO => true | _ => false end.

Definition TOOL_RISK_MAP : gmap string RiskLevel :=
  list_to_map [
    ("arxiv_search", AUTO);
    ("get_schedule", AUTO);
    ("list_physics_jobs", AUTO);
    ("phd_handle", AUTO);
    ("download_pdf", CONFIRM);
    ("analyze_paper", CONFIRM);
    ("check_physics_job", CONFIRM);
    ("analyze_emails", CONFIRM);
    ("submit_physics_job", CRITICAL);
    ("send_email_reply", CRITICAL)
  ].

(** [TOOL_RISK_MAP.get(tool_name, RiskLevel.CONFIRM)] *)
Definition risk_of (tool_name : string) : RiskLevel :=
  default CONFIRM (TOOL_RISK_MAP !! tool_name).

(** [_TIMEOUTS[risk]], in seconds; there is no entry for [AUTO]. *)
Definition _TIMEOUTS (risk : RiskLevel) : option Z :=
  match risk with
  | AUTO => None
  | CONFIRM => Some 300%Z
  | CRITICAL => Some 1800%Z
  end.

(** [str(n)] for a non-negative integer *)
Definition str_of_Z (n : Z) : string :=
  DecimalString.NilZero.string_of_uint (N.to_uint (Z.to_N n)).

(** What [execute_with_approval] returns. *)
Record Approval {Result : Type} := {
  approved : bool;
  result : option Result;
  approval_level : string;
}.
Arguments Approval Result : clear implicits.

Section Gate.

(** [World] is what the executed tool acts on, [Value] the type of argument
    values and [Result] of tool results; an argument dict is the list of its
    items. *)
Context {World Value Result : Type}.

(** [repr(v)] *)
Variable repr : Value -> string.

(** The callback id drawn from [uuid.uuid4()], and what the user does with
    the request: [Some true] (approve), [Some false] (deny), or [None] when
    the wait times out. *)
Variable callback_id : string.
Variable user_reply : string -> option bool.

(** A message handed to the transport: [bot.send_message]. *)
Record Sent := { to_chat : Z; text : string; with_buttons : list string }.

(** The state a gated execution acts on: the world of the tools, the
    messages sent so far, the pending approvals ([self._pending]) and the
    calls made to the execute function. *)
Record State := {
  world : World;
  sent : list Sent;
  pending : gset string;
  calls : list (list (string * Value));
}.

(** A computation on the state that returns or raises. *)
Definition M (A : Type) : Type := State -> State * Py A.

Definition ret {A} (a : A) : M A := fun st => (st, Ret a).

Definition bind {A B} (m : M A) (k : A -> M B) : M B :=
  fun st =>
    match m st with
    | (st', Ret a) => k a st'
    | (st', Exc cls e) => (st', Exc cls e)
    end.

Notation "x <- m ;; k" := (bind m (fun x => k))
  (at level 100, m at next level, right associativity).

Definition send_message (chat_id : Z) (text : string) (buttons : list string)
  : M unit :=
  fun st =>
    ({| world := world st;
        sent := sent st ++ [{| to_chat := chat_id; text := text;
                               with_buttons := buttons |}];
        pending := pending st;
        calls := calls st |}, Ret tt).

Definition set_pending (f : gset string -> gset string) : M unit :=
  fun st =>
    ({| world := world st; sent := sent st; pending := f (pending st);
        calls := calls st |}, Ret tt).

(** [_format_args] *)
Definition _format_args (args : list (string * Value)) : string :=
  let text := join ", " (map (fun kv => fst kv +:+ "=" +:+ repr (snd kv)) args) in
  if (200 <? String.length text)%nat then take 200 text +:+ "..." else text.

(** [_call]: the execute function is invoked with the argument dict. *)
Definition _call (execute_fn : list (string * Value) -> World -> World * Py Result)
           (tool_args : list (string * Value)) : M Result :=
  fun st =>
    let '(w', outcome) := execute_fn tool_args (world st) in
    ({| world := w'; sent := sent st; pending := pending st;
        calls := calls st ++ [tool_args] |}, outcome).

Definition _request_approval (chat_id : Z) (tool_name : string)
           (tool_args : list (string * Value)) (risk : RiskLevel) : M bool :=
  match _TIMEOUTS risk with
  | None => fun st => (st, Exc OtherException ("KeyError: " +:+ value risk))
  | Some timeout =>
    let minutes := str_of_Z (timeout / 60) in
    let text :=
      match risk with
      | CRITICAL =>
        "[CRITICAL] Tool: " +:+ tool_name +:+ Router.nl
        +:+ "Args: " +:+ _format_args tool_args +:+ Router.nl +:+ Router.nl
        +:+ "This action is classified as CRITICAL." +:+ Router.nl
        +:+ "Please confirm within " +:+ minutes +:+ " minutes."
      | _ =>
        "[CONFIRM] Tool: " +:+ tool_name +:+ Router.nl
        +:+ "Args: " +:+ _format_args tool_args +:+ Router.nl +:+ Router.nl
        +:+ "Approve execution? (timeout: " +:+ minutes +:+ " min)"
      end in
    _ <- send_message chat_id text
                      ["approve:" +:+ callback_id; "deny:" +:+ callback_id] ;;
    _ <- set_pending (fun p => {[callback_id]} ∪ p) ;;
    match user_reply callback_id with
    | Some answer =>
      (* [handle_callback] pops the entry and resolves the future *)
      _ <- set_pending (fun p => p ∖ {[callback_id]}) ;;
      ret answer
    | None =>
      _ <- set_pending (fun p => p ∖ {[callback_id]}) ;;
      _ <- send_message chat_id
                        ("Approval request for '" +:+ tool_name
                         +:+ "' timed out. Action denied.") [] ;;
      ret false
    end
  end.

Definition execute_with_approval (tool_name : string)
           (tool_args : list (string * Value))
           (execute_fn : list (string * Value) -> World -> World * Py Result)
           (bot : option unit) (chat_id : option Z) : M (Approval Result) :=
  let risk := risk_of tool_name in
  if is_auto risk then
    res <- _call execute_fn tool_args ;;
    ret {| approved := true; result := Some res; approval_level := value risk |}
  else
    match bot, chat_id with
    | Some _, Some chat =>
      ok <- _request_approval chat tool_name tool_args risk ;;
      if ok : bool then
        res <- _call execute_fn tool_args ;;
        ret {| approved := true; result := Some res; approval_level := value risk |}
      else
        ret {| approved := false; result := None; approval_level := value risk |}
    | _, _ =>
      ret {| approved := false; result := None; approval_level := value risk |}
    end.

(** C2: the case analysis of [execute_with_approval].  For an [AUTO] tool
    the execute function is called at once, exactly once, with the given
    arguments; no message is sent; and the function's result comes back
    with [approved = true] (an exception of the function is not caught).
    For a [CONFIRM] or [CRITICAL] tool without a bot or a chat id the answer
    is [approved = false] with no result, and nothing happens: no call, no
    message.  A tool missing from the risk table is [CONFIRM].  Whatever is
    returned carries the tool's risk tier as [approval_level]. *)
Theorem execute_with_approval_cases
        (tool_name : string) (tool_args : list (string * Value))
        (execute_fn : list (string * Value) -> World -> World * Py Result)
        (bot : option unit) (chat_id : option Z) (st : State) :
  let risk := risk_of tool_name in
  let st' := fst (execute_with_approval tool_name tool_args execute_fn bot chat_id st) in
  let out := snd (execute_with_approval tool_name tool_args execute_fn bot chat_id st) in
  (risk = AUTO ->
   sent st' = sent st
   /\ calls st' = calls st ++ [tool_args]
   /\ world st' = fst (execute_fn tool_args (world st))
   /\ out = match snd (execute_fn tool_args (world st)) with
            | Ret res =>
              Ret {| approved := true; result := Some res; approval_level := "AUTO" |}
            | Exc cls e => Exc cls e
            end)
  /\ ((risk = CONFIRM \/ risk = CRITICAL) ->
      (bot = None \/ chat_id = None) ->
      st' = st
      /\ out = Ret {| approved := false; result := None;
                      approval_level := value risk |})
  /\ (TOOL_RISK_MAP !! tool_name = None -> risk = CONFIRM)
  /\ (forall answer, out = Ret answer -> approval_level answer = value risk).
Proof.
  cbn zeta. unfold execute_with_approval.
  split; [|split; [|split]].
  - intros Hrisk. rewrite Hrisk. cbn [is_auto]. unfold bind, _call, ret.
    destruct (execute_fn tool_args (world st)) as [w' [res|cls e]]; cbn;
      repeat split.
  - intros Hrisk Hmissing.
    assert (Hauto : is_auto (risk_of tool_name) = false)
      by (destruct Hrisk as [-> | ->]; reflexivity).
    rewrite Hauto.
    destruct Hmissing as [-> | ->]; [|destruct bot]; cbn; split; reflexivity.
  - intros Hnone. unfold risk_of. now rewrite Hnone.
  - intros answer.
    destruct (is_auto (risk_of tool_name)).
    + unfold bind, _call, ret.
      destruct (execute_fn tool_args (world st)) as [w' [res|cls e]]; cbn;
        intros H; inversion H; reflexivity.
    + destruct bot as [b|]; [destruct chat_id as [chat|]|];
        try (cbn; intros H; inversion H; reflexivity).
      unfold bind at 1.
      destruct (_request_approval chat tool_name tool_args (risk_of tool_name) st)
        as [st1 [[|]|cls e]]; cbn.
      * unfold bind, _call, ret.
        destruct (execute_fn tool_args (world st1)) as [w' [res|cls e]]; cbn;
          intros H; inversion H; reflexivity.
      * intros H; inversion H; reflexivity.
      * discriminate.
Qed.

(** With a transport, the execute function runs only after an approval:
    a denial or a timeout returns [approved = false] without a call. *)
Lemma execute_with_approval_unapproved
      (tool_name : string) (tool_args : list (string * Value))
      (execute_fn : list (string * Value) -> World -> World * Py Result)
      (chat : Z) (st : State) :
  risk_of tool_name <> AUTO ->
  user_reply callback_id <> Some true ->
  let st' := fst (execute_with_approval tool_name tool_args execute_fn
                                        (Some tt) (Some chat) st) in
  calls st' = calls st
  /\ snd (execute_with_approval tool_name tool_args execute_fn (Some tt) (Some chat) st)
     = Ret {| approved := false; result := None;
              approval_level := value (risk_of tool_name) |}.
Proof.
  intros Hrisk Hreply. cbn zeta. unfold execute_with_approval.
  destruct (risk_of tool_name) eqn:E; [now contradiction Hrisk| |];
    cbn [is_auto]; unfold _request_approval; cbn [_TIMEOUTS];
    (destruct (user_reply callback_id) as [[|]|]; [now contradiction Hreply| |]);
    cbn; split; reflexivity.
Qed.

Definition TIMED_OUT (tool_name : string) : string :=
  "Approval request for '" +:+ tool_name +:+ "' timed out. Action denied.".

(** X10: with a transport, a [CONFIRM] or [CRITICAL] tool is executed
    exactly when the user approves, and then once, after the request.  The
    request is one message to the given chat carrying the two buttons of the
    callback id; a timeout adds a second message and a denial none.  A
    denial or a timeout leaves the world of the tools as it was, and the
    callback id is no longer pending afterwards. *)
Theorem approval_decides_execution
        (tool_name : string) (tool_args : list (string * Value))
        (execute_fn : list (string * Value) -> World -> World * Py Result)
        (chat : Z) (st : State) :
  risk_of tool_name <> AUTO ->
  let st' := fst (execute_with_approval tool_name tool_args execute_fn
                                        (Some tt) (Some chat) st) in
  let out := snd (execute_with_approval tool_name tool_args execute_fn
                                        (Some tt) (Some chat) st) in
  (exists request,
      to_chat request = chat
      /\ with_buttons request = ["approve:" +:+ callback_id; "deny:" +:+ callback_id]
      /\ match user_reply callback_id with
         | Some true =>
           sent st' = sent st ++ [request]
           /\ calls st' = calls st ++ [tool_args]
           /\ world st' = fst (execute_fn tool_args (world st))
           /\ out = match snd (execute_fn tool_args (world st)) with
                    | Ret res =>
                      Ret {| approved := true; result := Some res;
                             approval_level := value (risk_of tool_name) |}
                    | Exc cls e => Exc cls e
                    end
         | Some false =>
           sent st' = sent st ++ [request]
           /\ calls st' = calls st /\ world st' = world st
           /\ out = Ret {| approved := false; result := None;
                           approval_level := value (risk_of tool_name) |}
         | None =>
           sent st' = sent st ++ [request;
                                  {| to_chat := chat; text := TIMED_OUT tool_name;
                                     with_buttons := [] |}]
           /\ calls st' = calls st /\ world st' = world st
           /\ out = Ret {| approved := false; result := None;
                           approval_level := value (risk_of tool_name) |}
         end)
  /\ callback_id ∉ pending st'.
Proof.
  intros Hrisk. cbn zeta. unfold execute_with_approval.
  destruct (risk_of tool_name) eqn:E; [now contradiction Hrisk| |];
    cbn [is_auto]; unfold _request_approval; cbn [_TIMEOUTS];
    (destruct (user_reply callback_id) as [[|]|] eqn:Hreply);
    unfold bind, send_message, set_pending, _call, ret; cbn;
    try (destruct (execute_fn tool_args (world st)) as [w' [res|cls e]]; cbn);
    (split; [refine (ex_intro _ {| to_chat := chat; text := _;
                                   with_buttons := _ |} _);
             cbn; split; [reflexivity|]; split; [reflexivity|];
             rewrite <- ?app_assoc; repeat split; reflexivity
            | apply not_elem_of_difference; right; now apply elem_of_singleton]).
Qed.

End Gate.

(** A gate in a world that counts the searches run, after
    [tests/test_approval.py]. *)
Definition search (args : list (string * string)) (w : nat) : nat * Py string :=
  (S w, Ret "3 papers").

Definition idle : @State nat string :=
  {| world := 0; sent := []; pending := ∅; calls := [] |}.

Definition gate (tool_name : string) (bot : option unit) (chat_id : option Z)
  : @State nat string * Py (Approval string) :=
  execute_with_approval (fun v => v) "c0ffee" (fun _ => Some true)
                        tool_name [("query", "MoS2")] search bot chat_id idle.

(** An AUTO search without a bot; a CONFIRM download without a bot; a
    CRITICAL reply without a chat id; an unlisted tool. *)
Lemma execute_with_approval_cases_witness :
  (sent (fst (gate "arxiv_search" None None)) = []
   /\ calls (fst (gate "arxiv_search" None None)) = [[("query", "MoS2")]]
   /\ snd (gate "arxiv_search" None None)
      = Ret {| approved := true; result := Some "3 papers";
               approval_level := "AUTO" |})
  /\ (fst (gate "download_pdf" None (Some 7%Z)) = idle
      /\ snd (gate "download_pdf" None (Some 7%Z))
         = Ret {| approved := false; result := None; approval_level := "CONFIRM" |})
  /\ (fst (gate "send_email_reply" (Some tt) None) = idle
      /\ snd (gate "send_email_reply" (Some tt) None)
         = Ret {| approved := false; result := None; approval_level := "CRITICAL" |})
  /\ risk_of "unknown_tool_xyz" = CONFIRM.
Proof.
  pose proof (fun name bot chat =>
                execute_with_approval_cases
                  (fun v => v) "c0ffee" (fun _ => Some true)
                  name [("query", "MoS2")] search bot chat idle) as H.
  cbn zeta in H. fold gate in H.
  split; [|split; [|split]].
  - destruct (H "arxiv_search" None None) as (Hauto & _).
    destruct Hauto as (H1 & H2 & _ & H4); [vm_compute; reflexivity|].
    split; [exact H1|]. split; [exact H2 | exact H4].
  - destruct (H "download_pdf" None (Some 7%Z)) as (_ & Hdeny & _).
    apply Hdeny; [left; vm_compute; reflexivity | left; reflexivity].
  - destruct (H "send_email_reply" (Some tt) None) as (_ & Hdeny & _).
    apply Hdeny; [right; vm_compute; reflexivity | right; reflexivity].
  - destruct (H "unknown_tool_xyz" None None) as (_ & _ & Hunknown & _).
    apply Hunknown. vm_compute. reflexivity.
Defined.

(** A download that the user approves. *)
Lemma approval_decides_execution_witness :
  calls (fst (gate "download_pdf" (Some tt) (Some 7%Z))) = [[("query", "MoS2")]]
  /\ snd (gate "download_pdf" (Some tt) (Some 7%Z))
     = Ret {| approved := true; result := Some "3 papers";
              approval_level := "CONFIRM" |}.
Proof.
  destruct (approval_decides_execution
              (fun v => v) "c0ffee" (fun _ => Some true)
              "download_pdf" [("query", "MoS2")] search 7%Z idle)
    as [(request & _ & _ & Hcase) _].
  - intros H. vm_compute in H. discriminate H.
  - cbn match in Hcase. destruct Hcase as (_ & Hcalls & _ & Hout).
    split; [exact Hcalls | exact Hout].
Defined.

(** *** The callback of the approval buttons *)

(** [data.split(":", 1)] for a text with a colon; [None] without one. *)
Fixpoint split_colon (s : string) : option (string * string) :=
  match s with
  | EmptyString => None
  | String c rest =>
    if Ascii.eqb c ":" then Some (EmptyString, rest)
    else
      match split_colon rest with
      | Some (action, callback_id) => Some (String c action, callback_id)
      | None => None
      end
  end.

(** A callback query, as far as the handler reads it. *)
Record CallbackQuery := { data : option string; message_text : string }.

(** What the handler tells Telegram. *)
Inductive Reply :=
| Answer (text : string)
| EditMessageText (text : string).

(** [self._pending] maps a callback id to its future; of the future the
    handler reads [done()].  [resolved] is the future on which
    [set_result] was called, by its callback id, and the value set.  The
    Telegram calls are taken to return. *)
Record Handled := {
  pending_after : gmap string bool;
  resolved : option (string * bool);
  replies : list Reply;
}.

Definition handle_callback (_pending : gmap string bool) (callback_query : CallbackQuery)
  : Handled :=
  match split_colon (default "" (data callback_query)) with
  | None => {| pending_after := _pending; resolved := None; replies := [] |}
  | Some (action, callback_id) =>
    let future := _pending !! callback_id in
    let popped := delete callback_id _pending in
    match future with
    | Some false =>
      if String.eqb action "approve" then
        {| pending_after := popped;
           resolved := Some (callback_id, true);
           replies := [Answer "Approved";
                       EditMessageText (message_text callback_query +:+ Router.nl
                                        +:+ Router.nl +:+ "-- Approved --")] |}
      else
        {| pending_after := popped;
           resolved := Some (callback_id, false);
           replies := [Answer "Denied";
                       EditMessageText (message_text callback_query +:+ Router.nl
                                        +:+ Router.nl +:+ "-- Denied --")] |}
    | _ =>
      {| pending_after := popped; resolved := None;
         replies := [Answer "This request has expired."] |}
    end
  end.

Lemma split_colon_none (s : string) :
  split_colon s = None <-> ~ occurs_in ":" s.
Proof.
  induction s as [|c s IH]; cbn [split_colon].
  - split; [|reflexivity]. intros _ (a & b & H). destruct a; discriminate H.
  - destruct (Ascii.eqb_spec c ":") as [->|Hne].
    + split; [discriminate|]. intros H. exfalso. apply H. now exists "", s.
    + destruct (split_colon s) as [[action callback_id]|].
      * split; [discriminate|]. intros H. exfalso.
        destruct IH as [_ IH]. enough (@None (string * string) = None -> False) by auto.
        intros _. assert (Hs : ~ occurs_in ":" s).
        { intros (a & b & Hab). apply H. exists (String c a), b. cbn. now rewrite Hab. }
        specialize (IH Hs). discriminate IH.
      * split; [|reflexivity]. intros _ (a & b & Hab).
        destruct IH as [IH _]. apply (IH eq_refl).
        destruct a as [|x a]; cbn in Hab.
        -- inversion Hab. congruence.
        -- inversion Hab. now exists a, b.
Qed.

Lemma split_colon_first (action callback_id : string) :
  ~ occurs_in ":" action ->
  split_colon (action +:+ ":" +:+ callback_id) = Some (action, callback_id).
Proof.
  induction action as [|c action IH]; intros Hfree.
  - reflexivity.
  - change (String c action +:+ ":" +:+ callback_id)
      with (String c (action +:+ ":" +:+ callback_id)).
    cbn [split_colon]. destruct (Ascii.eqb_spec c ":") as [->|Hne].
    + exfalso. apply Hfree. now exists "", action.
    + rewrite IH; [reflexivity|].
      intros (a & b & Hab). apply Hfree. exists (String c a), b. cbn. now rewrite Hab.
Qed.

(** X11: the callback of an approval button.  Data without a colon is
    ignored.  Otherwise the data is split at its first colon into an action
    and a callback id, and the id is taken out of the pending requests
    whatever follows.  A future that was pending and not done is resolved:
    with [True] for the action [approve] and with [False] for every other
    action.  For an unknown id or a future already done nothing is resolved
    and the user is told that the request has expired; so a second callback
    with the same data resolves nothing. *)
Theorem handle_callback_spec (_pending : gmap string bool)
        (callback_query : CallbackQuery) :
  let text := default "" (data callback_query) in
  let handled := handle_callback _pending callback_query in
  (~ occurs_in ":" text ->
   handled = {| pending_after := _pending; resolved := None; replies := [] |})
  /\ (forall action callback_id,
         text = action +:+ ":" +:+ callback_id -> ~ occurs_in ":" action ->
         pending_after handled = delete callback_id _pending
         /\ (_pending !! callback_id = Some false ->
             resolved handled = Some (callback_id, String.eqb action "approve")
             /\ exists notice edited, replies handled = [Answer notice; EditMessageText edited])
         /\ (_pending !! callback_id <> Some false ->
             resolved handled = None
             /\ replies handled = [Answer "This request has expired."]))
  /\ resolved (handle_callback (pending_after handled) callback_query) = None.
Proof.
  cbn zeta. unfold handle_callback. split; [|split].
  - intros Hfree. apply split_colon_none in Hfree. now rewrite Hfree.
  - intros action callback_id Htext Hfree.
    rewrite Htext, (split_colon_first action callback_id Hfree).
    destruct (_pending !! callback_id) as [[|]|] eqn:Hfuture.
    + split; [reflexivity|]. split; [discriminate|]. intros _. now split.
    + destruct (String.eqb action "approve"); (split; [reflexivity|]);
        (split; [intros _; split; [reflexivity | now eexists; eexists]
                | intros H; now contradiction H]).
    + split; [reflexivity|]. split; [discriminate|]. intros _. now split.
  - destruct (split_colon (default "" (data callback_query)))
      as [[action callback_id]|] eqn:Hsplit.
    + assert (Hgone : forall rest : gmap string bool,
                 delete callback_id rest !! callback_id = None)
        by (intros rest; apply lookup_delete_eq).
      destruct (_pending !! callback_id) as [[|]|];
        [|destruct (String.eqb action "approve")|];
        cbn [pending_after]; rewrite Hgone; reflexivity.
    + reflexivity.
Qed.

(** The approval of a pending request, and its replay. *)
Lemma handle_callback_spec_witness :
  let first := handle_callback {[ "c0ffee" := false ]}
                               {| data := Some "approve:c0ffee";
                                  message_text := "[CONFIRM] Tool: download_pdf" |} in
  resolved first = Some ("c0ffee", true)
  /\ pending_after first = delete "c0ffee" {[ "c0ffee" := false ]}.
Proof.
  cbn zeta.
  destruct (handle_callback_spec
              {[ "c0ffee" := false ]}
              {| data := Some "approve:c0ffee";
                 message_text := "[CONFIRM] Tool: download_pdf" |})
    as (_ & Hsplit & _).
  destruct (Hsplit "approve" "c0ffee") as (Hpending & Hresolved & _).
  - reflexivity.
  - apply split_colon_none. reflexivity.
  - split; [|exact Hpending].
    destruct Hresolved as [Hresolved _]; [vm_compute; reflexivity|].
    exact Hresolved.
Defined.

End ApprovalGate.

(** ** The ensemble voter ([rlm_wrapper.py]) *)

Module Ensemble.
Import PyStr.

(** The voting part of [RLMConfig].  The values come from
    [config/RLM_CONFIG.yaml], which is not part of the sources: they are
    parameters here.  Confidences and the threshold are Python floats; they
    are modelled by the rationals they stand for. *)
Record RLMConfig := {
  n_inferences : Z;
  min_quorum : Z;
  confidence_threshold : Q;
  fallback_category : string;
}.

Definition UNCERTAIN : string := "UNCERTAIN".

(** What a classification function may hand back: a [str], or some other
    object (shown by its [str()]). *)
Inductive PyVal :=
| VStr (s : string)
| VOther (shown : string).

Definition py_str (v : PyVal) : string :=
  match v with VStr s => s | VOther shown => shown end.

(** [isinstance(r, str) and r in ['ACTION', 'FYI']] *)
Definition is_vote (r : PyVal) : bool :=
  match r with
  | VStr s => mem s ["ACTION"; "FYI"]
  | VOther _ => false
  end.

(** [[r for r in results if isinstance(r, str) and r in [...]]] *)
Fixpoint votes_of (results : list PyVal) : list string :=
  match results with
  | [] => []
  | VStr s :: rest =>
    if mem s ["ACTION"; "FYI"] then s :: votes_of rest else votes_of rest
  | VOther _ :: rest => votes_of rest
  end.

(** [collections.Counter]: the counts, in order of first insertion. *)
Fixpoint counter_add (c : list (string * nat)) (x : string) : list (string * nat) :=
  match c with
  | [] => [(x, 1)]
  | (k, n) :: c' =>
    if String.eqb k x then (k, S n) :: c' else (k, n) :: counter_add c' x
  end.

Definition Counter (l : list string) : list (string * nat) :=
  fold_left counter_add l [].

(** [max(items, key=itemgetter(1))]: the first item of maximal count. *)
Fixpoint first_max (best : string * nat) (items : list (string * nat))
  : string * nat :=
  match items with
  | [] => best
  | item :: rest =>
    if (snd best <? snd item)%nat then first_max item rest else first_max best rest
  end.

(** [c.most_common(1)] *)
Definition most_common_1 (c : list (string * nat)) : list (string * nat) :=
  match c with
  | [] => []
  | item :: rest => [first_max item rest]
  end.

(** [a / b] on non-negative integers *)
Definition true_div (a b : nat) : Q := Qred (Z.of_nat a # Pos.of_nat b).

Definition Qltb (a b : Q) : bool :=
  (Qnum a * Zpos (Qden b) <? Qnum b * Zpos (Qden a))%Z.

(** One line of the audit log (without its timestamp). *)
Record AuditEntry := {
  subject : string;
  total_inferences : Z;
  successful : nat;
  votes : list string;
  failures : list string;
}.

Section Voter.

Context {Mail : Type}.

(** [mail.get('subject', 'Unknown')] *)
Variable subject_of : Mail -> option string.

Variable config : RLMConfig.

(** The classification function: the outcome of its [i]-th call on a
    mail.  The calls run in worker threads; [asyncio.gather] hands their
    results back in the order of the calls. *)
Variable classify_func : Mail -> nat -> Py PyVal.

(** [_single_inference]: an exception becomes an [ERROR: ...] string. *)
Definition _single_inference (mail : Mail) (inference_num : nat) : PyVal :=
  match classify_func mail inference_num with
  | Ret res => res
  | Exc _ e => VStr ("ERROR: " +:+ e)
  end.

(** [[... for i in range(n_inferences)]], gathered *)
Definition inferences (mail : Mail) : list PyVal :=
  map (_single_inference mail) (seq 0 (Z.to_nat (n_inferences config))).

Definition vote_classify (mail : Mail) (audit_log : list AuditEntry)
  : list AuditEntry * Py (string * Q * list string) :=
  let results := inferences mail in
  let successful_votes := votes_of results in
  let audit_log :=
    audit_log ++
      [{| subject := default "Unknown" (subject_of mail);
          total_inferences := n_inferences config;
          successful := length successful_votes;
          votes := successful_votes;
          failures := map py_str (List.filter (fun r => negb (is_vote r)) results) |}] in
  if (Z.of_nat (length successful_votes) <? min_quorum config)%Z then
    (audit_log, Ret (fallback_category config, 0%Q, successful_votes))
  else
    match most_common_1 (Counter successful_votes) with
    | [] => (audit_log, Exc OtherException "IndexError: list index out of range")
    | (majority_vote, majority_count) :: _ =>
      let confidence := true_div majority_count (length successful_votes) in
      if Qltb confidence (confidence_threshold config) then
        (audit_log, Ret (fallback_category config, confidence, successful_votes))
      else
        (audit_log, Ret (majority_vote, confidence, successful_votes))
    end.

End Voter.

(** Scenario S4 of the specification: five inferences, quorum 3,
    threshold 0.7. *)
Definition s4_config : RLMConfig :=
  {| n_inferences := 5; min_quorum := 3; confidence_threshold := 7 # 10;
     fallback_category := UNCERTAIN |}.

Definition s4_classifier (mail : unit) (i : nat) : Py PyVal :=
  Ret (VStr (nth i ["ACTION"; "FYI"; "FYI"; "ACTION"; "ACTION"] "")).

Definition agreeing_classifier (mail : unit) (i : nat) : Py PyVal :=
  if (i =? 1)%nat then Exc OtherException "timeout" else Ret (VStr "FYI").

(** *** Counting votes *)

(** [c[x]] *)
Fixpoint get (c : list (string * nat)) (x : string) : nat :=
  match c with
  | [] => 0
  | (k, n) :: c' => if String.eqb k x then n else get c' x
  end.

Lemma get_counter_add c x y :
  get (counter_add c x) y = if String.eqb x y then S (get c y) else get c y.
Proof.
  induction c as [|[k n] c IH]; cbn.
  - destruct (String.eqb x y); reflexivity.
  - destruct (String.eqb_spec k x) as [->|Hkx]; cbn.
    + destruct (String.eqb x y); reflexivity.
    + rewrite IH. destruct (String.eqb_spec k y) as [->|Hky]; [|reflexivity].
      destruct (String.eqb_spec x y) as [->|]; [now contradiction Hkx | reflexivity].
Qed.

Lemma counter_add_keys c x :
  forall k, In k (map fst (counter_add c x)) <-> k = x \/ In k (map fst c).
Proof.
  induction c as [|[k0 n] c IH]; intros k; cbn.
  - intuition.
  - destruct (String.eqb_spec k0 x) as [->|Hne]; cbn.
    + intuition.
    + rewrite IH. intuition.
Qed.

Lemma counter_add_NoDup c x :
  List.NoDup (map fst c) -> List.NoDup (map fst (counter_add c x)).
Proof.
  induction c as [|[k n] c IH]; cbn; intros H.
  - constructor; [intros [] | constructor].
  - inversion H as [|? ? Hnotin Hnd]; subst.
    destruct (String.eqb_spec k x) as [->|Hne]; cbn.
    + now constructor.
    + constructor; [|now apply IH].
      rewrite counter_add_keys. intros [->|Hin]; [now apply Hne | now apply Hnotin].
Qed.

Lemma Counter_from l : forall c,
  let c' := fold_left counter_add l c in
  (List.NoDup (map fst c) -> List.NoDup (map fst c'))
  /\ forall y, get c' y = get c y + count_occ String.string_dec l y.
Proof.
  induction l as [|x l IH]; intros c; cbn [fold_left].
  - cbn. split; [auto | intros y; lia].
  - destruct (IH (counter_add c x)) as [IH1 IH2]. split.
    + intros H. now apply IH1, counter_add_NoDup.
    + intros y. rewrite IH2, get_counter_add. cbn [count_occ].
      destruct (String.string_dec x y) as [->|Hne].
      * rewrite String.eqb_refl. lia.
      * apply String.eqb_neq in Hne. rewrite Hne. lia.
Qed.

Lemma In_get c k n : List.NoDup (map fst c) -> In (k, n) c -> get c k = n.
Proof.
  induction c as [|[k0 n0] c IH]; cbn; intros Hnd Hin; [contradiction|].
  inversion Hnd as [|? ? Hnotin Hnd']; subst.
  destruct Hin as [Heq|Hin].
  - inversion Heq; subst. now rewrite String.eqb_refl.
  - destruct (String.eqb_spec k0 k) as [->|_]; [|now apply IH].
    exfalso. apply Hnotin. change k with (fst (k, n)). now apply in_map.
Qed.

Lemma get_In c k : 0 < get c k -> In (k, get c k) c.
Proof.
  induction c as [|[k0 n0] c IH]; cbn; intros H; [lia|].
  destruct (String.eqb_spec k0 k) as [->|_]; [now left | right; now apply IH].
Qed.

Lemma first_max_spec items : forall best,
  In (first_max best items) (best :: items)
  /\ forall item, In item (best :: items) -> snd item <= snd (first_max best items).
Proof.
  induction items as [|i items IH]; intros best; cbn [first_max].
  - split; [now left | intros item [<-|[]]; lia].
  - destruct (Nat.ltb_spec (snd best) (snd i)) as [Hlt|Hge].
    + destruct (IH i) as [H1 H2]. split.
      * right. exact H1.
      * intros item [<-|Hin]; [|now apply H2].
        specialize (H2 i (or_introl eq_refl)). lia.
    + destruct (IH best) as [H1 H2]. split.
      * destruct H1 as [H1|H1]; [now left | right; now right].
      * intros item [<-|[<-|Hin]].
        -- apply H2. now left.
        -- specialize (H2 best (or_introl eq_refl)). lia.
        -- apply H2. now right.
Qed.

(** The most common vote is a most frequent one. *)
Lemma most_common_1_spec l label count :
  most_common_1 (Counter l) = [(label, count)] ->
  count = count_occ String.string_dec l label
  /\ forall other, count_occ String.string_dec l other <= count.
Proof.
  unfold Counter. destruct (Counter_from l []) as [Hnd Hget].
  specialize (Hnd (List.NoDup_nil _)). cbn in Hget.
  destruct (fold_left counter_add l []) as [|b c] eqn:E; cbn; [discriminate|].
  intros H; inversion H as [Hmax]; clear H.
  destruct (first_max_spec c b) as [Hin Hle]. rewrite Hmax in Hin, Hle. split.
  - rewrite <- Hget. symmetry. now apply In_get.
  - intros other. destruct (count_occ String.string_dec l other) as [|m] eqn:Hm; [lia|].
    rewrite <- Hm, <- Hget.
    apply (Hle (other, get (b :: c) other)), get_In. rewrite Hget. lia.
Qed.

Lemma most_common_1_exists l :
  l <> [] -> exists label count, most_common_1 (Counter l) = [(label, count)].
Proof.
  intros Hl. unfold Counter. destruct (Counter_from l []) as [_ Hget]. cbn in Hget.
  destruct (fold_left counter_add l []) as [|b c] eqn:E.
  - destruct l as [|x l]; [now contradiction Hl|].
    specialize (Hget x). cbn in Hget.
    destruct (String.string_dec x x); [lia | contradiction].
  - cbn. destruct (first_max b c) as [label count]. now exists label, count.
Qed.

Lemma fold_counter_add_repeat label k : forall n,
  fold_left counter_add (repeat label k) [(label, n)] = [(label, n + k)].
Proof.
  induction k as [|k IH]; intros n; cbn [repeat fold_left counter_add].
  - now rewrite Nat.add_0_r.
  - rewrite String.eqb_refl, IH. do 2 f_equal. lia.
Qed.

Lemma Counter_repeat label k : Counter (repeat label (S k)) = [(label, S k)].
Proof.
  unfold Counter. cbn [repeat fold_left counter_add].
  now rewrite fold_counter_add_repeat.
Qed.

Lemma true_div_same n : n <> 0 -> true_div n n = 1%Q.
Proof.
  intros Hn. unfold true_div. change 1%Q with (Qred 1). apply Qred_complete.
  unfold Qeq. cbn. destruct n as [|n]; [contradiction|].
  rewrite Znat.positive_nat_Z || rewrite <- Pos.of_nat_succ. lia.
Qed.

Lemma votes_of_filter results :
  map VStr (votes_of results) = List.filter is_vote results.
Proof.
  induction results as [|[s|shown] rest IH]; cbn [votes_of List.filter is_vote].
  - reflexivity.
  - destruct (mem s ["ACTION"; "FYI"]); cbn; now rewrite IH.
  - exact IH.
Qed.

(** C3: with the configured fallback category [UNCERTAIN],
    [vote_classify] runs [n_inferences] inferences and keeps, in order, the
    results that are the string [ACTION] or [FYI].  Below the quorum it
    returns [(UNCERTAIN, 0.0, successes)].  Otherwise, for [(label, count)]
    the most common vote, which is a most frequent label and exists as soon
    as there is a success, it returns [(label, count/successes, successes)],
    with [UNCERTAIN] for the label when [count/successes] is below the
    threshold.  All-identical successes meeting the quorum give confidence
    exactly 1, and that label for a threshold of at most 1. *)
Theorem vote_classify_cases {Mail : Type} (subject_of : Mail -> option string)
        (config : RLMConfig) (classify_func : Mail -> nat -> Py PyVal)
        (mail : Mail) (audit_log : list AuditEntry) :
  fallback_category config = UNCERTAIN ->
  let results := inferences config classify_func mail in
  let successes := votes_of results in
  let out := snd (vote_classify subject_of config classify_func mail audit_log) in
  length results = Z.to_nat (n_inferences config)
  /\ map VStr successes = List.filter is_vote results
  /\ ((Z.of_nat (length successes) < min_quorum config)%Z ->
      out = Ret (UNCERTAIN, 0%Q, successes))
  /\ ((min_quorum config <= Z.of_nat (length successes))%Z ->
      forall label count,
        most_common_1 (Counter successes) = [(label, count)] ->
        let confidence := true_div count (length successes) in
        count = count_occ String.string_dec successes label
        /\ (forall other, count_occ String.string_dec successes other <= count)
        /\ out = Ret (if Qltb confidence (confidence_threshold config)
                      then UNCERTAIN else label,
                      confidence, successes))
  /\ (successes <> [] ->
      exists label count, most_common_1 (Counter successes) = [(label, count)])
  /\ (forall label k,
         successes = repeat label (S k) ->
         (min_quorum config <= Z.of_nat (S k))%Z ->
         exists category,
           out = Ret (category, 1%Q, successes)
           /\ ((confidence_threshold config <= 1)%Q -> category = label)).
Proof.
  intros Hfallback. cbn zeta.
  assert (Hcase : (min_quorum config
                   <= Z.of_nat (length (votes_of (inferences config classify_func mail))))%Z ->
                  forall label count,
                    most_common_1 (Counter (votes_of (inferences config classify_func mail)))
                    = [(label, count)] ->
                    snd (vote_classify subject_of config classify_func mail audit_log)
                    = Ret (if Qltb (true_div count
                                      (length (votes_of (inferences config classify_func mail))))
                                   (confidence_threshold config)
                           then UNCERTAIN else label,
                           true_div count
                             (length (votes_of (inferences config classify_func mail))),
                           votes_of (inferences config classify_func mail))).
  { intros Hq label count Hmost. unfold vote_classify.
    apply Z.ltb_ge in Hq. rewrite Hq, Hmost, Hfallback.
    now destruct (Qltb _ _). }
  split; [|split; [|split; [|split; [|split]]]].
  - unfold inferences. now rewrite length_map, length_seq.
  - apply votes_of_filter.
  - intros Hq. unfold vote_classify. apply Z.ltb_lt in Hq. now rewrite Hq, Hfallback.
  - intros Hq label count Hmost.
    destruct (most_common_1_spec _ _ _ Hmost) as [Hcount Hmax].
    split; [exact Hcount|]. split; [exact Hmax|]. now apply Hcase.
  - apply most_common_1_exists.
  - intros label k Hall Hq.
    assert (Hmost : most_common_1
                      (Counter (votes_of (inferences config classify_func mail)))
                    = [(label, S k)])
      by (rewrite Hall, Counter_repeat; reflexivity).
    rewrite Hall, repeat_length in Hcase at 1.
    specialize (Hcase Hq label (S k) Hmost).
    rewrite Hall, repeat_length, true_div_same in Hcase by discriminate.
    rewrite Hcase, Hall. eexists. split; [reflexivity|].
    intros Hthr.
    replace (Qltb 1 (confidence_threshold config)) with false; [reflexivity|].
    symmetry. unfold Qltb. apply Z.ltb_ge. unfold Qle in Hthr. cbn in *. lia.
Qed.

(** Scenario S4 is uncertain at 3/5; four agreeing votes out of five
    inferences give the label with confidence 1. *)
Lemma vote_classify_cases_witness :
  snd (vote_classify (fun _ => None) s4_config s4_classifier tt [])
  = Ret (UNCERTAIN, 3 # 5, ["ACTION"; "FYI"; "FYI"; "ACTION"; "ACTION"])
  /\ exists category,
      snd (vote_classify (fun _ => None) s4_config agreeing_classifier tt [])
      = Ret (category, 1%Q, ["FYI"; "FYI"; "FYI"; "FYI"])
      /\ category = "FYI".
Proof.
  split.
  - destruct (vote_classify_cases (fun _ => None) s4_config s4_classifier tt []
                                  eq_refl)
      as (_ & _ & _ & Hmajority & _).
    destruct (Hmajority ltac:(vm_compute; discriminate) "ACTION" 3 eq_refl)
      as (_ & _ & Hout).
    exact Hout.
  - destruct (vote_classify_cases (fun _ => None) s4_config agreeing_classifier tt []
                                  eq_refl)
      as (_ & _ & _ & _ & _ & Hsame).
    destruct (Hsame "FYI" 3 eq_refl ltac:(vm_compute; discriminate))
      as (category & Hout & Hlabel).
    exists category. split; [exact Hout|]. apply Hlabel. vm_compute. discriminate.
Defined.

(** *** What a vote can return *)

Definition is_label (v : string) : Prop := v = "ACTION" \/ v = "FYI".

Lemma votes_of_labels (results : list PyVal) : Forall is_label (votes_of results).
Proof.
  induction results as [|[s|shown] rest IH]; cbn [votes_of]; [constructor| |exact IH].
  destruct (mem s ["ACTION"; "FYI"]) eqn:Hmem; [|exact IH].
  constructor; [|exact IH]. unfold mem in Hmem. cbn in Hmem.
  destruct (String.eqb_spec s "ACTION") as [->|_]; [now left|].
  destruct (String.eqb_spec s "FYI") as [->|_]; [now right | discriminate].
Qed.

Lemma votes_of_length (results : list PyVal) :
  length (votes_of results) <= length results.
Proof.
  induction results as [|[s|shown] rest IH]; cbn [votes_of length]; [lia| |lia].
  destruct (mem s ["ACTION"; "FYI"]); cbn [length]; lia.
Qed.

Lemma failures_length (results : list PyVal) :
  length (votes_of results)
  + length (List.filter (fun r => negb (is_vote r)) results)
  = length results.
Proof.
  induction results as [|[s|shown] rest IH];
    cbn [votes_of List.filter is_vote length negb]; [reflexivity| |lia].
  destruct (mem s ["ACTION"; "FYI"]); cbn [negb length]; lia.
Qed.

Lemma count_labels (votes : list string) :
  Forall is_label votes ->
  count_occ String.string_dec votes "ACTION" + count_occ String.string_dec votes "FYI"
  = length votes.
Proof.
  induction 1 as [|v votes [-> | ->] _ IH]; cbn [count_occ length]; [reflexivity| |].
  - destruct (String.string_dec "ACTION" "ACTION"); [|contradiction].
    destruct (String.string_dec "ACTION" "FYI"); [discriminate|]. lia.
  - destruct (String.string_dec "FYI" "ACTION"); [discriminate|].
    destruct (String.string_dec "FYI" "FYI"); [|contradiction]. lia.
Qed.

Lemma true_div_value (a b : nat) :
  b <> 0 -> (true_div a b == Z.of_nat a # Pos.of_nat b)%Q.
Proof. intros _. apply Qred_correct. Qed.

Lemma true_div_range (a b : nat) :
  a <= b -> b <> 0 -> (0 <= true_div a b)%Q /\ (true_div a b <= 1)%Q.
Proof.
  intros Hle Hb. rewrite (true_div_value a b Hb). unfold Qle. cbn. split; lia.
Qed.

Lemma true_div_half (a b : nat) :
  b <= 2 * a -> b <> 0 -> (1 # 2 <= true_div a b)%Q.
Proof.
  intros Hle Hb. rewrite (true_div_value a b Hb). unfold Qle. cbn. lia.
Qed.

Lemma Qltb_false (a b : Q) : Qltb a b = false <-> (b <= a)%Q.
Proof. unfold Qltb, Qle. rewrite Z.ltb_ge. reflexivity. Qed.

(** X12: what [vote_classify] can return.  The votes handed back are the
    successful ones, each [ACTION] or [FYI], at most [n_inferences] of
    them; the confidence lies between 0 and 1; the category is [ACTION],
    [FYI] or the fallback category.  A category other than the fallback
    means that the quorum was met and that the confidence, which is the
    share of that category among the successes, is at least one half and
    at least the threshold.  The function raises exactly when no inference
    succeeded although the quorum is zero or negative. *)
Theorem vote_classify_range {Mail : Type} (subject_of : Mail -> option string)
        (config : RLMConfig) (classify_func : Mail -> nat -> Py PyVal)
        (mail : Mail) (audit_log : list AuditEntry) :
  let successes := votes_of (inferences config classify_func mail) in
  let out := snd (vote_classify subject_of config classify_func mail audit_log) in
  (forall category confidence votes,
      out = Ret (category, confidence, votes) ->
      votes = successes
      /\ Forall is_label votes
      /\ length votes <= Z.to_nat (n_inferences config)
      /\ (0 <= confidence)%Q /\ (confidence <= 1)%Q
      /\ (is_label category \/ category = fallback_category config)
      /\ (category <> fallback_category config ->
          (min_quorum config <= Z.of_nat (length votes))%Z
          /\ (confidence
              == Z.of_nat (count_occ String.string_dec votes category)
                 # Pos.of_nat (length votes))%Q
          /\ (1 # 2 <= confidence)%Q
          /\ (confidence_threshold config <= confidence)%Q))
  /\ ((exists cls what, out = Exc cls what) <->
      successes = [] /\ (min_quorum config <= 0)%Z).
Proof.
  cbn zeta. unfold vote_classify.
  pose proof (votes_of_labels (inferences config classify_func mail)) as Hlabels.
  assert (Hlen : length (votes_of (inferences config classify_func mail))
                 <= Z.to_nat (n_inferences config)).
  { etransitivity; [apply votes_of_length|].
    unfold inferences. now rewrite length_map, length_seq. }
  destruct (Z.ltb_spec (Z.of_nat (length (votes_of (inferences config classify_func mail))))
                       (min_quorum config)) as [Hq|Hq]; cbn [snd].
  { split.
    - intros category confidence votes H. inversion H; subst.
      split; [reflexivity|]. split; [exact Hlabels|]. split; [exact Hlen|].
      split; [discriminate|]. split; [discriminate|]. split; [now right|].
      intros Hne. now contradiction Hne.
    - split; [intros (cls & what & H); discriminate H|].
      intros [Hnil Hzero]. rewrite Hnil in Hq. cbn in Hq. lia. }
  destruct (votes_of (inferences config classify_func mail)) as [|v votes0] eqn:Hvotes.
  { cbn. split; [discriminate|]. split; [|now eexists; eexists].
    intros _. split; [reflexivity|]. cbn in Hq. lia. }
  destruct (most_common_1_exists (v :: votes0)) as (label & count & Hmost);
    [discriminate|].
  rewrite Hmost. destruct (most_common_1_spec _ _ _ Hmost) as [Hcount Hmax].
  pose proof (count_labels _ Hlabels) as Hsum.
  assert (Hhalf : length (v :: votes0) <= 2 * count).
  { pose proof (Hmax "ACTION"). pose proof (Hmax "FYI"). lia. }
  assert (Hle : count <= length (v :: votes0)).
  { rewrite Hcount. apply count_occ_bound. }
  assert (Hpos : length (v :: votes0) <> 0) by discriminate.
  destruct (true_div_range count (length (v :: votes0)) Hle Hpos) as [H0 H1].
  assert (Hlabel : is_label label).
  { assert (Hin : In label (v :: votes0)).
    { apply (count_occ_In String.string_dec). cbn [length] in Hhalf. lia. }
    rewrite List.Forall_forall in Hlabels. now apply Hlabels. }
  split.
  - intros category confidence votes H.
    destruct (Qltb (true_div count (length (v :: votes0))) (confidence_threshold config))
      eqn:Hthr; cbn [snd] in H; inversion H; subst; clear H.
    + split; [reflexivity|]. split; [exact Hlabels|]. split; [exact Hlen|].
      split; [exact H0|]. split; [exact H1|]. split; [now right|].
      intros Hne. now contradiction Hne.
    + split; [reflexivity|]. split; [exact Hlabels|]. split; [exact Hlen|].
      split; [exact H0|]. split; [exact H1|]. split; [now left|].
      intros _. split; [exact Hq|]. split; [now apply true_div_value|].
      split; [now apply true_div_half | now apply Qltb_false].
  - split.
    + intros (cls & what & H).
      destruct (Qltb _ _); cbn [snd] in H; discriminate H.
    + intros [Hnil _]. discriminate Hnil.
Qed.

(** Four agreeing votes out of five inferences: the quorum of three is
    met, and the confidence 1 is not below the threshold. *)
Lemma vote_classify_range_witness :
  snd (vote_classify (fun _ => None) s4_config agreeing_classifier tt [])
  = Ret ("FYI", 1%Q, ["FYI"; "FYI"; "FYI"; "FYI"])
  /\ (min_quorum s4_config <= 4)%Z
  /\ (confidence_threshold s4_config <= 1)%Q.
Proof.
  assert (Hout : snd (vote_classify (fun _ => None) s4_config agreeing_classifier tt [])
                 = Ret ("FYI", 1%Q, ["FYI"; "FYI"; "FYI"; "FYI"]))
    by (vm_compute; reflexivity).
  split; [exact Hout|].
  destruct (vote_classify_range (fun _ => None) s4_config agreeing_classifier tt [])
    as [Hret _].
  destruct (Hret "FYI" 1%Q ["FYI"; "FYI"; "FYI"; "FYI"] Hout)
    as (_ & _ & _ & _ & _ & _ & H).
  destruct H as (Hquorum & _ & _ & Hthr); [discriminate|].
  split; [exact Hquorum | exact Hthr].
Defined.

(** X13: every call of [vote_classify] appends one entry to the audit
    log, whatever it returns or raises: the entry counts the inferences
    and the successes and lists the votes, and its failures are the
    remaining results, one for each inference that gave no vote. *)
Theorem vote_classify_audit {Mail : Type} (subject_of : Mail -> option string)
        (config : RLMConfig) (classify_func : Mail -> nat -> Py PyVal)
        (mail : Mail) (audit_log : list AuditEntry) :
  exists entry,
    fst (vote_classify subject_of config classify_func mail audit_log)
    = audit_log ++ [entry]
    /\ subject entry = default "Unknown" (subject_of mail)
    /\ total_inferences entry = n_inferences config
    /\ votes entry = votes_of (inferences config classify_func mail)
    /\ successful entry = length (votes entry)
    /\ successful entry + length (failures entry) = Z.to_nat (n_inferences config).
Proof.
  eexists. split.
  - unfold vote_classify.
    destruct (Z.of_nat _ <? min_quorum config)%Z; [reflexivity|].
    destruct (most_common_1 _) as [|[majority_vote majority_count] rest];
      [reflexivity|].
    destruct (Qltb _ _); reflexivity.
  - cbn. repeat split. rewrite length_map, failures_length.
    unfold inferences. now rewrite length_map, length_seq.
Qed.

End Ensemble.

(** ** Contradictions and the wrapper ([rlm_wrapper.py]) *)

Module Wrapper.
Import PyStr.

(** One line of [corrections.jsonl], decoded to a dict, as far as it is
    read: the values under ["subject"] and ["corrected_label"], which are
    strings when present. *)
Record Correction := {
  c_subject : option string;
  c_corrected_label : option string;
}.

(** The metadata dict of [classify_with_ensemble], in its two shapes. *)
Inductive Metadata :=
| Contradicted (contradiction : string) (votes : list string)
| Voted (votes : list string) (confidence : Q) (n_inferences : Z) (quorum_met : bool).

Definition CONTRADICTION : string :=
  "CONTRADICTION: Subject has conflicting labels: ".

Section Controller.

Context {Mail : Type}.
Variable subject_of : Mail -> option string.
Variable config : Ensemble.RLMConfig.
Variable classify_func : Mail -> nat -> Py Ensemble.PyVal.

(** [self.config.contradiction_mode] *)
Variable contradiction_mode : string.

(** The lines of the corrections file that decode; [None] when the file
    does not exist. *)
Variable corrections_file : option (list Correction).

(** [str()] of a set of labels: the order of its elements is not fixed. *)
Variable show_labels : gset (option string) -> string.

(** [RecursiveController.check_contradictions] *)
Definition check_contradictions (subject : string) : option string :=
  if String.eqb contradiction_mode "disabled" then None
  else
    match corrections_file with
    | None => None
    | Some corrections =>
      let matches :=
        List.filter (fun c => bool_decide (c_subject c = Some subject)) corrections in
      if (length matches <? 2)%nat then None
      else
        let labels : gset (option string) :=
          list_to_set (map c_corrected_label matches) in
        if (1 <? size labels)%nat then Some (CONTRADICTION +:+ show_labels labels)
        else None
    end.

(** [RLMWrapper.classify_with_ensemble] *)
Definition classify_with_ensemble (mail : Mail) (audit_log : list Ensemble.AuditEntry)
  : list Ensemble.AuditEntry * Py (string * Q * Metadata) :=
  let subject := default "Unknown" (subject_of mail) in
  let vote :=
    match Ensemble.vote_classify subject_of config classify_func mail audit_log with
    | (audit_log', Ret (category, confidence, votes)) =>
      (audit_log',
       Ret (category, confidence,
            Voted votes confidence (Ensemble.n_inferences config)
                  (Ensemble.min_quorum config <=? Z.of_nat (length votes))%Z))
    | (audit_log', Exc cls e) => (audit_log', Exc cls e)
    end in
  match check_contradictions subject with
  | Some contradiction =>
    if is_empty contradiction then vote
    else
      (audit_log,
       Ret (Ensemble.fallback_category config, 0%Q, Contradicted contradiction []))
  | None => vote
  end.

(** Two corrections of one subject that disagree on the label. *)
Definition conflicting (subject : string) (corrections : list Correction) : Prop :=
  exists c1 c2,
    In c1 corrections /\ In c2 corrections
    /\ c_subject c1 = Some subject /\ c_subject c2 = Some subject
    /\ c_corrected_label c1 <> c_corrected_label c2.

Lemma two_elements (labels : gset (option string)) :
  1 < size labels <-> exists x y, x ∈ labels /\ y ∈ labels /\ x <> y.
Proof.
  split.
  - intros Hsize.
    destruct (size_pos_elem_of labels) as [x Hx]; [lia|].
    assert (Hsub : ({[x]} : gset (option string)) ⊆ labels)
      by (now apply singleton_subseteq_l).
    pose proof (size_difference labels {[x]} Hsub) as Hdiff.
    rewrite size_singleton in Hdiff.
    destruct (size_pos_elem_of (labels ∖ {[x]})) as [y Hy]; [lia|].
    apply elem_of_difference in Hy. destruct Hy as [Hy Hne].
    exists x, y. split; [exact Hx|]. split; [exact Hy|].
    intros ->. apply Hne. now apply elem_of_singleton.
  - intros (x & y & Hx & Hy & Hne).
    destruct (decide (1 < size labels)) as [|Hsmall]; [assumption|].
    exfalso. apply Hne.
    assert (Hone : size labels = 1).
    { assert (size labels <> 0); [|lia].
      apply size_non_empty_iff. intros Hempty. rewrite Hempty in Hx.
      now apply not_elem_of_empty in Hx. }
    destruct (size_1_elem_of labels Hone) as [z Hz].
    apply leibniz_equiv in Hz. subst labels.
    apply elem_of_singleton in Hx, Hy. congruence.
Qed.

Lemma two_members {A} (a b : A) (l : list A) :
  In a l -> In b l -> a <> b -> 2 <= length l.
Proof.
  destruct l as [|x [|y l]]; cbn; [tauto| |lia].
  intros [<-|[]] [<-|[]] H. now contradiction H.
Qed.

Lemma in_matches (subject : string) (corrections : list Correction) (c : Correction) :
  In c (List.filter (fun c => bool_decide (c_subject c = Some subject)) corrections)
  <-> In c corrections /\ c_subject c = Some subject.
Proof. rewrite List.filter_In, bool_decide_eq_true. reflexivity. Qed.

Lemma labels_of_matches (subject : string) (corrections : list Correction) :
  1 < size (list_to_set (C := gset (option string))
              (map c_corrected_label
                   (List.filter (fun c => bool_decide (c_subject c = Some subject))
                                corrections)))
  <-> conflicting subject corrections.
Proof.
  rewrite two_elements. unfold conflicting. split.
  - intros (x & y & Hx & Hy & Hne).
    apply elem_of_list_to_set, list_elem_of_In, in_map_iff in Hx, Hy.
    destruct Hx as (c1 & <- & Hc1), Hy as (c2 & <- & Hc2).
    apply in_matches in Hc1, Hc2. exists c1, c2. tauto.
  - intros (c1 & c2 & H1 & H2 & S1 & S2 & Hne).
    exists (c_corrected_label c1), (c_corrected_label c2).
    split; [|split; [|exact Hne]];
      apply elem_of_list_to_set, list_elem_of_In, in_map, in_matches; tauto.
Qed.

(** X14: [check_contradictions] reports a contradiction exactly when the
    detection is not disabled, the corrections file exists, and two of its
    corrections carry the given subject, exactly, with different labels (a
    missing label being different from every label).  The report is never
    the empty string. *)
Theorem check_contradictions_spec (subject : string) :
  (check_contradictions subject <> None <->
   contradiction_mode <> "disabled"
   /\ exists corrections,
       corrections_file = Some corrections /\ conflicting subject corrections)
  /\ (forall report,
         check_contradictions subject = Some report -> is_empty report = false).
Proof.
  unfold check_contradictions. split.
  - destruct (String.eqb_spec contradiction_mode "disabled") as [Hmode|Hmode].
    + split; [intros H; now contradiction H | intros [H _]; now contradiction H].
    + destruct corrections_file as [corrections|].
      * pose proof (labels_of_matches subject corrections) as Hlabels.
        destruct (Nat.ltb_spec
                    (length (List.filter
                               (fun c => bool_decide (c_subject c = Some subject))
                               corrections)) 2) as [Hfew|Hmany].
        -- split; [intros H; now contradiction H|].
           intros (_ & corrections' & Heq & Hconflict). inversion Heq; subst.
           exfalso. destruct Hconflict as (c1 & c2 & H1 & H2 & S1 & S2 & Hne).
           assert (2 <= length (List.filter
                                  (fun c => bool_decide (c_subject c = Some subject))
                                  corrections')); [|lia].
           apply (two_members c1 c2); [now apply in_matches ..|congruence].
        -- destruct (Nat.ltb_spec 1
                       (size (list_to_set (C := gset (option string))
                                (map c_corrected_label
                                     (List.filter
                                        (fun c => bool_decide (c_subject c = Some subject))
                                        corrections))))) as [Htwo|Hone].
           ++ split; [|discriminate]. intros _. split; [exact Hmode|].
              exists corrections. split; [reflexivity | now apply Hlabels].
           ++ split; [intros H; now contradiction H|].
              intros (_ & corrections' & Heq & Hconflict). inversion Heq; subst.
              apply Hlabels in Hconflict. lia.
      * split; [intros H; now contradiction H|].
        intros (_ & corrections & Heq & _). discriminate Heq.
  - intros report.
    destruct (String.eqb contradiction_mode "disabled"); [discriminate|].
    destruct corrections_file as [corrections|]; [|discriminate].
    destruct (_ <? 2)%nat; [discriminate|].
    destruct (1 <? _)%nat; [|discriminate].
    intros H. inversion H. reflexivity.
Qed.

(** X15: [classify_with_ensemble].  When the subject of the mail has
    conflicting corrections (and the detection is on), the answer is the
    fallback category with confidence 0 and no votes, the audit log is
    untouched, and the classification function plays no part.  Otherwise
    the answer is that of [vote_classify], which logs its entry, and the
    metadata says whether the quorum was met; a quorum that was not met goes
    with the fallback category and confidence 0. *)
Theorem classify_with_ensemble_cases (mail : Mail)
        (audit_log : list Ensemble.AuditEntry) :
  let subject := default "Unknown" (subject_of mail) in
  let voted := Ensemble.vote_classify subject_of config classify_func mail audit_log in
  (check_contradictions subject <> None ->
   exists report,
     check_contradictions subject = Some report
     /\ classify_with_ensemble mail audit_log
        = (audit_log,
           Ret (Ensemble.fallback_category config, 0%Q, Contradicted report [])))
  /\ (check_contradictions subject = None ->
      fst (classify_with_ensemble mail audit_log) = fst voted
      /\ (forall cls e,
             snd voted = Exc cls e ->
             snd (classify_with_ensemble mail audit_log) = Exc cls e)
      /\ (forall category confidence votes,
             snd voted = Ret (category, confidence, votes) ->
             exists quorum_met,
               snd (classify_with_ensemble mail audit_log)
               = Ret (category, confidence,
                      Voted votes confidence (Ensemble.n_inferences config) quorum_met)
               /\ (quorum_met = true <->
                   (Ensemble.min_quorum config <= Z.of_nat (length votes))%Z)
               /\ (quorum_met = false ->
                   category = Ensemble.fallback_category config
                   /\ confidence = 0%Q))).
Proof.
  cbn zeta. split.
  - intros Hsome.
    destruct (check_contradictions (default "Unknown" (subject_of mail)))
      as [report|] eqn:Hcheck; [|now contradiction Hsome].
    exists report. split; [reflexivity|]. unfold classify_with_ensemble.
    rewrite Hcheck.
    now rewrite (proj2 (check_contradictions_spec _) report Hcheck).
  - intros Hnone. unfold classify_with_ensemble. rewrite Hnone.
    destruct (Ensemble.vote_classify subject_of config classify_func mail audit_log)
      as [audit_log' [[[category confidence] votes]|cls e]] eqn:Hvote.
    + split; [reflexivity|]. split; [discriminate|].
      intros category' confidence' votes' H. cbn [snd] in H. inversion H; subst.
      eexists. split; [reflexivity|]. split; [apply Z.leb_le|].
      intros Hunmet. apply Z.leb_gt in Hunmet.
      unfold Ensemble.vote_classify in Hvote.
      destruct (Z.ltb_spec
                  (Z.of_nat (length (Ensemble.votes_of
                                       (Ensemble.inferences config classify_func mail))))
                  (Ensemble.min_quorum config)) as [Hq|Hq].
      * inversion Hvote. split; reflexivity.
      * exfalso.
        destruct (Ensemble.most_common_1 _) as [|[majority_vote majority_count] rest];
          [discriminate Hvote|].
        destruct (Ensemble.Qltb _ _); inversion Hvote; subst; lia.
    + split; [reflexivity|]. split; [|discriminate].
      intros cls' e' H. cbn [snd] in *. inversion H. reflexivity.
Qed.

End Controller.

(** Two corrections of one subject, as in the corrections file: the user
    moved the mail to ACTION, and later to FYI. *)
Definition corrected_twice : list Correction :=
  [{| c_subject := Some "Seminar"; c_corrected_label := Some "ACTION" |};
   {| c_subject := Some "Invoice"; c_corrected_label := Some "FYI" |};
   {| c_subject := Some "Seminar"; c_corrected_label := Some "FYI" |}].

Definition show_size (labels : gset (option string)) : string :=
  if (size labels =? 2)%nat then "{'ACTION', 'FYI'}" else "{...}".

Lemma check_contradictions_spec_witness :
  check_contradictions "exact" (Some corrected_twice) show_size "Seminar"
  = Some (CONTRADICTION +:+ "{'ACTION', 'FYI'}")
  /\ is_empty (CONTRADICTION +:+ "{'ACTION', 'FYI'}") = false
  /\ conflicting "Seminar" corrected_twice.
Proof.
  assert (Hcheck : check_contradictions "exact" (Some corrected_twice) show_size
                                        "Seminar"
                   = Some (CONTRADICTION +:+ "{'ACTION', 'FYI'}"))
    by (vm_compute; reflexivity).
  destruct (check_contradictions_spec
              "exact" (Some corrected_twice) show_size "Seminar")
    as [Hiff Hreport].
  split; [exact Hcheck|]. split; [exact (Hreport _ Hcheck)|].
  destruct (proj1 Hiff) as (_ & corrections & Hfile & Hconflict).
  - rewrite Hcheck. discriminate.
  - inversion Hfile; subst. exact Hconflict.
Defined.

Lemma classify_with_ensemble_cases_witness :
  exists report,
    classify_with_ensemble (fun _ : unit => Some "Seminar") Ensemble.s4_config
                           Ensemble.s4_classifier "exact" (Some corrected_twice)
                           show_size tt []
    = ([], Ret ("UNCERTAIN", 0%Q, Contradicted report [])).
Proof.
  destruct (classify_with_ensemble_cases
              (fun _ : unit => Some "Seminar") Ensemble.s4_config
              Ensemble.s4_classifier "exact" (Some corrected_twice) show_size tt [])
    as [Hconflict _].
  destruct Hconflict as (report & _ & Hout).
  - vm_compute. discriminate.
  - exists report. exact Hout.
Defined.

End Wrapper.

(** ** The daily connection counter ([rlm_wrapper.py], [SSHStealth]) *)

Module SSHStealth.

(** The counter file as [_save_counter] writes it: a date and a count.
    The date is read with [get] and may be missing. *)
Record Counter := { date : option string; count : Z }.

Section Stealth.

(** [self.config.ssh_max_daily] *)
Variable ssh_max_daily : Z.

(** [datetime.now().date().isoformat()] *)
Variable today : string.

Definition fresh : Counter := {| date := Some today; count := 0 |}.

Definition is_today (counter_data : Counter) : bool :=
  bool_decide (date counter_data = Some today).

(** [_load_counter]; the file is [None] when it does not exist. *)
Definition _load_counter (counter_file : option Counter) : Counter :=
  match counter_file with
  | None => fresh
  | Some data => data
  end.

(** [check_daily_limit]: the file afterwards, and the answer. *)
Definition check_daily_limit (counter_file : option Counter) : option Counter * bool :=
  let counter_data := _load_counter counter_file in
  let '(counter_data, counter_file) :=
    if negb (is_today counter_data) then (fresh, Some fresh)
    else (counter_data, counter_file) in
  if (ssh_max_daily <=? count counter_data)%Z then (counter_file, false)
  else (counter_file, true).

(** [increment_counter]: the file afterwards. *)
Definition increment_counter (counter_file : option Counter) : option Counter :=
  let counter_data := _load_counter counter_file in
  let counter_data := if negb (is_today counter_data) then fresh else counter_data in
  Some {| date := date counter_data; count := count counter_data + 1 |}.

(** The connections counted for today. *)
Definition counted (counter_file : option Counter) : Z :=
  match counter_file with
  | Some data => if is_today data then count data else 0
  | None => 0
  end.

Lemma is_today_fresh : is_today fresh = true.
Proof. unfold is_today. now apply bool_decide_eq_true_2. Qed.

Lemma is_today_count (counter_data : Counter) (n : Z) :
  is_today {| date := date counter_data; count := n |} = is_today counter_data.
Proof. reflexivity. Qed.

Lemma counted_increment (counter_file : option Counter) :
  counted (increment_counter counter_file) = (counted counter_file + 1)%Z.
Proof.
  unfold increment_counter, counted, _load_counter.
  destruct counter_file as [data|].
  - destruct (is_today data) eqn:Hday; cbn [negb]; rewrite is_today_count.
    + now rewrite Hday.
    + now rewrite is_today_fresh.
  - rewrite is_today_fresh. cbn [negb]. rewrite is_today_count.
    now rewrite is_today_fresh.
Qed.

(** X16: the daily counter.  [increment_counter] adds one to the count
    of today, starting from zero when the file is missing or from another
    day; [check_daily_limit] leaves the count of today as it is and allows
    a connection exactly when that count is below [ssh_max_daily].  So
    [n] increments add [n], and an increment that follows an allowing check
    never takes the count beyond the limit. *)
Theorem daily_counter (counter_file : option Counter) :
  counted (increment_counter counter_file) = (counted counter_file + 1)%Z
  /\ counted (fst (check_daily_limit counter_file)) = counted counter_file
  /\ (snd (check_daily_limit counter_file) = true <->
      (counted counter_file < ssh_max_daily)%Z)
  /\ (forall n,
         counted (Nat.iter n increment_counter counter_file)
         = (counted counter_file + Z.of_nat n)%Z)
  /\ (snd (check_daily_limit counter_file) = true ->
      (counted (increment_counter (fst (check_daily_limit counter_file)))
       <= ssh_max_daily)%Z).
Proof.
  assert (Hcheck : counted (fst (check_daily_limit counter_file)) = counted counter_file
                   /\ (snd (check_daily_limit counter_file) = true <->
                       (counted counter_file < ssh_max_daily)%Z)).
  { unfold check_daily_limit, counted, _load_counter.
    destruct counter_file as [data|].
    - destruct (is_today data) eqn:Hday; cbn [negb].
      + destruct (Z.leb_spec ssh_max_daily (count data)); cbn [fst snd];
          rewrite Hday; (split; [reflexivity|]); split; (discriminate || lia || auto).
      + destruct (Z.leb_spec ssh_max_daily (count fresh)) as [H|H]; cbn [fst snd];
          cbn [fresh count] in H;
          (split; [now rewrite is_today_fresh|]);
          split; (discriminate || lia || auto).
    - rewrite is_today_fresh. cbn [negb].
      destruct (Z.leb_spec ssh_max_daily (count fresh)) as [H|H]; cbn [fst snd];
        cbn [fresh count] in H; (split; [reflexivity|]);
        split; (discriminate || lia || auto). }
  destruct Hcheck as [Hkeep Hallow].
  split; [apply counted_increment|]. split; [exact Hkeep|]. split; [exact Hallow|].
  split.
  - induction n as [|n IH]; [cbn; lia|].
    change (Nat.iter (S n) increment_counter counter_file)
      with (increment_counter (Nat.iter n increment_counter counter_file)).
    rewrite counted_increment, IH. lia.
  - intros Hok. rewrite counted_increment, Hkeep. apply Hallow in Hok. lia.
Qed.

End Stealth.

(** The ninth connection of a day with a limit of ten. *)
Lemma daily_counter_witness :
  snd (check_daily_limit 10 "2026-02-01"
         (Some {| date := Some "2026-02-01"; count := 9 |})) = true
  /\ (counted "2026-02-01"
        (increment_counter
           "2026-02-01"
           (fst (check_daily_limit 10 "2026-02-01"
                   (Some {| date := Some "2026-02-01"; count := 9 |}))))
      <= 10)%Z.
Proof.
  assert (Hok : snd (check_daily_limit 10 "2026-02-01"
                       (Some {| date := Some "2026-02-01"; count := 9 |})) = true)
    by (vm_compute; reflexivity).
  split; [exact Hok|].
  apply (daily_counter 10 "2026-02-01"
                       (Some {| date := Some "2026-02-01"; count := 9 |})).
  exact Hok.
Defined.

End SSHStealth.

(** ** Packing embeddings ([polaris/memory/embedder.py]) *)

Module Embedder.

Local Open Scope Z_scope.

(** A float32 value by the fields of its IEEE 754 binary32 encoding: the
    sign, the biased exponent and the fraction.  A Python float that is
    exactly a float32 is given by that float32, so that packing it with the
    [f] format rounds nothing. *)
Record float32 := { sign : bool; exponent : Z; fraction : Z }.

(** The finite values: exponent 255 encodes the infinities and NaN. *)
Definition finite32 (x : float32) : Prop :=
  0 <= exponent x < 255 /\ 0 <= fraction x < 2 ^ 23.

(** The number a finite float32 denotes. *)
Definition value (x : float32) : Q :=
  let magnitude :=
    if exponent x =? 0
    then (inject_Z (fraction x) * (1 # 2 ^ 149))%Q
    else if exponent x <? 150
         then (inject_Z (2 ^ 23 + fraction x)
               * (1 # Z.to_pos (2 ^ (150 - exponent x))))%Q
         else inject_Z ((2 ^ 23 + fraction x) * 2 ^ (exponent x - 150)) in
  if sign x then (- magnitude)%Q else magnitude.

Definition byte_of (n : Z) : Byte.byte :=
  default Byte.x00 (Byte.of_N (Z.to_N (n mod 256))).

Definition Z_of_byte (b : Byte.byte) : Z := Z.of_N (Byte.to_N b).

(** The 32-bit word of a value. *)
Definition word_of (x : float32) : Z :=
  (if sign x then 2 ^ 31 else 0) + exponent x * 2 ^ 23 + fraction x.

Definition of_word (w : Z) : float32 :=
  {| sign := 1 <=? w / 2 ^ 31;
     exponent := (w / 2 ^ 23) mod 256;
     fraction := w mod 2 ^ 23 |}.

(** [struct.pack("f", x)]: four bytes, least significant first (the native
    order of the machines the system runs on). *)
Definition pack_f (x : float32) : list Byte.byte :=
  let w := word_of x in
  [byte_of w; byte_of (w / 256); byte_of (w / 65536); byte_of (w / 16777216)].

Definition unpack_f (b0 b1 b2 b3 : Byte.byte) : float32 :=
  of_word (Z_of_byte b0 + 256 * Z_of_byte b1 + 65536 * Z_of_byte b2
           + 16777216 * Z_of_byte b3).

(** [to_bytes]: [struct.pack(f"{len(vector)}f", *vector)] *)
Definition to_bytes (vector : list float32) : list Byte.byte :=
  concat (map pack_f vector).

(** [struct.unpack(f"{n}f", blob)] with [n = len(blob) // 4]: it raises
    when the length of the blob is not [4 * n]. *)
Fixpoint unpack (blob : list Byte.byte) : Py (list float32) :=
  match blob with
  | [] => Ret []
  | b0 :: b1 :: b2 :: b3 :: rest =>
    match unpack rest with
    | Ret v => Ret (unpack_f b0 b1 b2 b3 :: v)
    | Exc cls e => Exc cls e
    end
  | _ => Exc OtherException "struct.error: unpack requires a buffer of 4 * n bytes"
  end.

(** [from_bytes] *)
Definition from_bytes (blob : list Byte.byte) : Py (list float32) := unpack blob.

(** Two floats within [1e-5] of each other. *)
Definition close (a b : float32) : Prop :=
  (Qabs (value a - value b) <= 1 # 100000)%Q.

Lemma Z_of_byte_of (n : Z) : Z_of_byte (byte_of n) = n mod 256.
Proof.
  unfold Z_of_byte, byte_of.
  assert (Hrange : 0 <= n mod 256 < 256) by (apply Z.mod_pos_bound; lia).
  destruct (Byte.of_N (Z.to_N (n mod 256))) as [b|] eqn:E.
  - apply Byte.to_of_N in E. change (default Byte.x00 (Some b)) with b.
    rewrite E. lia.
  - apply Byte.of_N_None_iff in E. lia.
Qed.

Lemma of_word_of (x : float32) : finite32 x -> of_word (word_of x) = x.
Proof.
  intros [[He1 He2] [Hf1 Hf2]]. destruct x as [s e f]; cbn in *.
  unfold of_word, word_of; cbn [sign exponent fraction].
  change (2 ^ 31) with 2147483648 in *. change (2 ^ 23) with 8388608 in *.
  assert (H1 : ((if s then 2147483648 else 0) + e * 8388608 + f) / 8388608
               = (if s then 256 else 0) + e)
    by (destruct s; Z.div_mod_to_equations; lia).
  assert (H2 : ((if s then 2147483648 else 0) + e * 8388608 + f) mod 8388608 = f)
    by (destruct s; Z.div_mod_to_equations; lia).
  assert (H3 : ((if s then 256 else 0) + e) mod 256 = e)
    by (destruct s; Z.div_mod_to_equations; lia).
  assert (H4 : (1 <=? ((if s then 2147483648 else 0) + e * 8388608 + f) / 2147483648)
               = s).
  { destruct s; [apply Z.leb_le | apply Z.leb_gt]; Z.div_mod_to_equations; lia. }
  now rewrite H1, H2, H3, H4.
Qed.

Lemma unpack_pack_f (x : float32) :
  finite32 x ->
  match pack_f x with
  | [b0; b1; b2; b3] => unpack_f b0 b1 b2 b3 = x
  | _ => False
  end.
Proof.
  intros Hx. cbn [pack_f]. unfold unpack_f. rewrite !Z_of_byte_of.
  rewrite <- (of_word_of x Hx) at 5. f_equal.
  assert (Hw : 0 <= word_of x < 4294967296).
  { destruct Hx as [[? ?] [? ?]]. unfold word_of.
    change (2 ^ 31) with 2147483648. change (2 ^ 23) with 8388608 in *.
    destruct (sign x); lia. }
  Z.div_mod_to_equations. lia.
Qed.

Lemma unpack_to_bytes (v : list float32) :
  Forall finite32 v -> unpack (to_bytes v) = Ret v.
Proof.
  induction 1 as [|x v Hx Hv IH]; [reflexivity|].
  unfold to_bytes in *. cbn [map concat].
  pose proof (unpack_pack_f x Hx) as Hpack.
  destruct (pack_f x) as [|b0 [|b1 [|b2 [|b3 [|b4 rest]]]]]; try contradiction.
  cbn [app unpack]. now rewrite IH, Hpack.
Qed.

Lemma close_refl (x : float32) : close x x.
Proof.
  unfold close, Qminus. rewrite Qplus_opp_r. discriminate.
Qed.

(** C8: for a vector of finite float32 values, unpacking the packed bytes
    gives the vector back, component by component, with no error at all,
    hence within [1e-5]; the blob has four bytes per component. *)
Theorem from_bytes_to_bytes (v : list float32) :
  Forall finite32 v ->
  length (to_bytes v) = (4 * length v)%nat
  /\ exists v',
      from_bytes (to_bytes v) = Ret v'
      /\ v' = v
      /\ Forall2 close v' v.
Proof.
  intros Hv. split.
  - unfold to_bytes. clear Hv. induction v as [|x v IH]; [reflexivity|].
    cbn [map concat]. rewrite length_app, IH. cbn. lia.
  - exists v. split; [now apply unpack_to_bytes|]. split; [reflexivity|].
    clear Hv. induction v as [|x v IH]; constructor; [apply close_refl | exact IH].
Qed.

(** [1.0; 2.5; 0.0; -3.0] *)
Definition sample_vector : list float32 :=
  [ {| sign := false; exponent := 127; fraction := 0 |};
    {| sign := false; exponent := 128; fraction := 2097152 |};
    {| sign := false; exponent := 0; fraction := 0 |};
    {| sign := true; exponent := 128; fraction := 4194304 |} ].

(** The sample vector comes back from its sixteen bytes. *)
Lemma from_bytes_to_bytes_witness :
  Forall2 Qeq (map value sample_vector) [1; 5 # 2; 0; -3]%Q
  /\ from_bytes (to_bytes sample_vector) = Ret sample_vector.
Proof.
  split; [repeat constructor|].
  destruct (from_bytes_to_bytes sample_vector) as (_ & v' & Hunpack & Heq & _).
  - repeat constructor; cbn; lia.
  - rewrite Heq in Hunpack. exact Hunpack.
Defined.

(** *** From a blob to a vector and back *)

Lemma byte_of_Z_of_byte (b : Byte.byte) : byte_of (Z_of_byte b) = b.
Proof.
  unfold byte_of, Z_of_byte.
  pose proof (Byte.to_N_bounded b) as Hb.
  rewrite Z.mod_small by lia. rewrite N2Z.id, Byte.of_to_N. reflexivity.
Qed.

Lemma Z_of_byte_range (b : Byte.byte) : 0 <= Z_of_byte b < 256.
Proof.
  unfold Z_of_byte. pose proof (Byte.to_N_bounded b). lia.
Qed.

Lemma word_of_word (w : Z) : 0 <= w < 2 ^ 32 -> word_of (of_word w) = w.
Proof.
  change (2 ^ 32) with 4294967296. intros Hw.
  unfold word_of, of_word; cbn [sign exponent fraction].
  change (2 ^ 31) with 2147483648. change (2 ^ 23) with 8388608.
  destruct (Z.leb_spec 1 (w / 2147483648)); Z.div_mod_to_equations; lia.
Qed.

Lemma pack_unpack_f (b0 b1 b2 b3 : Byte.byte) :
  pack_f (unpack_f b0 b1 b2 b3) = [b0; b1; b2; b3].
Proof.
  pose proof (Z_of_byte_range b0). pose proof (Z_of_byte_range b1).
  pose proof (Z_of_byte_range b2). pose proof (Z_of_byte_range b3).
  unfold pack_f, unpack_f. rewrite word_of_word
    by (change (2 ^ 32) with 4294967296; lia).
  assert (Hbyte : forall n b, n mod 256 = Z_of_byte b -> byte_of n = b).
  { intros n b Hn. rewrite <- (byte_of_Z_of_byte b). unfold byte_of.
    rewrite Hn. rewrite (Z.mod_small (Z_of_byte b)) by apply Z_of_byte_range.
    reflexivity. }
  f_equal; [|f_equal; [|f_equal; [|f_equal]]];
    apply Hbyte; Z.div_mod_to_equations; lia.
Qed.

Lemma unpack_length (n : nat) : forall blob,
  (length blob <= n)%nat ->
  ((length blob mod 4 = 0)%nat ->
   exists v, unpack blob = Ret v /\ length v = (length blob / 4)%nat
             /\ to_bytes v = blob)
  /\ ((length blob mod 4 <> 0)%nat ->
      exists e, unpack blob = Exc OtherException e).
Proof.
  induction n as [|n IH]; intros blob Hlen.
  - destruct blob; [|cbn in Hlen; lia]. split; [|intros H; now contradiction H].
    intros _. now exists [].
  - destruct blob as [|b0 [|b1 [|b2 [|b3 rest]]]];
      try (split; [intros H; cbn in H; discriminate H | intros _; now eexists]).
    + split; [|intros H; now contradiction H]. intros _. now exists [].
    + assert (Hrest : (length rest <= n)%nat) by (cbn in Hlen; lia).
      destruct (IH rest Hrest) as [Hmul Hodd].
      assert (Hmod : (length (b0 :: b1 :: b2 :: b3 :: rest) mod 4
                      = length rest mod 4)%nat).
      { cbn [length]. replace (S (S (S (S (length rest)))))
          with (length rest + 1 * 4)%nat by lia. apply Nat.Div0.mod_add. }
      assert (Hdiv : (length (b0 :: b1 :: b2 :: b3 :: rest) / 4
                      = S (length rest / 4))%nat).
      { cbn [length]. replace (S (S (S (S (length rest)))))
          with (length rest + 1 * 4)%nat by lia. rewrite Nat.div_add by lia. lia. }
      rewrite Hmod, Hdiv. cbn [unpack]. split.
      * intros H. destruct (Hmul H) as (v & -> & Hv & Hback).
        exists (unpack_f b0 b1 b2 b3 :: v). split; [reflexivity|].
        split; [cbn [length]; now rewrite Hv|].
        unfold to_bytes in *. cbn [map concat]. now rewrite pack_unpack_f, Hback.
      * intros H. destruct (Hodd H) as (e & ->). now exists e.
Qed.

(** X17: [from_bytes] returns exactly for the blobs whose length is a
    multiple of four, with one component for every four bytes, and raises
    [struct.error] for the others.  When the components that come back
    are finite, packing them again gives the blob back, byte for byte. *)
Theorem from_bytes_spec (blob : list Byte.byte) :
  ((length blob mod 4 = 0)%nat ->
   exists v,
     from_bytes blob = Ret v /\ length v = (length blob / 4)%nat
     /\ (Forall finite32 v -> to_bytes v = blob))
  /\ ((length blob mod 4 <> 0)%nat ->
      exists e, from_bytes blob = Exc OtherException e).
Proof.
  destruct (unpack_length (length blob) blob (Nat.le_refl _)) as [Hmul Hodd].
  split; [|exact Hodd].
  intros H. destruct (Hmul H) as (v & Hv & Hlen & Hback).
  exists v. split; [exact Hv|]. split; [exact Hlen|]. intros _. exact Hback.
Qed.

(** The eight bytes of [1.0; -3.0], and a blob of five bytes. *)
Lemma from_bytes_spec_witness :
  (exists v,
      from_bytes (to_bytes [ {| sign := false; exponent := 127; fraction := 0 |};
                             {| sign := true; exponent := 128; fraction := 4194304 |} ])
      = Ret v /\ length v = 2%nat)
  /\ exists e,
      from_bytes [Byte.x00; Byte.x00; Byte.x80; Byte.x3f; Byte.x00]
      = Exc OtherException e.
Proof.
  split.
  - destruct (from_bytes_spec
                (to_bytes [ {| sign := false; exponent := 127; fraction := 0 |};
                            {| sign := true; exponent := 128; fraction := 4194304 |} ]))
      as [Hmul _].
    destruct Hmul as (v & Hv & Hlen & _); [reflexivity|].
    exists v. split; [exact Hv | exact Hlen].
  - apply (from_bytes_spec [Byte.x00; Byte.x00; Byte.x80; Byte.x3f; Byte.x00]).
    cbn. discriminate.
Defined.

End Embedder.

(** ** Memory search ([polaris/memory/memory.py]) *)

Module Memory.
Import PyStr.

(** *** Sorting, as Python and SQLite do it *)

Section StableSort.

Context {A : Type}.

(** [leb a b]: the key of [a] is at most the key of [b]. *)
Variable leb : A -> A -> bool.

(** [l.sort(key=..., reverse=True)] and [ORDER BY ... DESC]: descending
    keys; items of equal key keep their order. *)
Fixpoint insert_desc (x : A) (l : list A) : list A :=
  match l with
  | [] => [x]
  | y :: l' => if leb y x then x :: l else y :: insert_desc x l'
  end.

Fixpoint sort_desc (l : list A) : list A :=
  match l with
  | [] => []
  | x :: l' => insert_desc x (sort_desc l')
  end.

(** Two items of equal key. *)
Definition tied (a b : A) : bool := leb a b && leb b a.

Hypothesis leb_total : forall a b, leb a b = true \/ leb b a = true.
Hypothesis leb_trans : forall a b c, leb a b = true -> leb b c = true -> leb a c = true.

Lemma insert_desc_perm (x : A) (l : list A) : Permutation (insert_desc x l) (x :: l).
Proof.
  induction l as [|y l IH]; cbn; [reflexivity|].
  destruct (leb y x); [reflexivity|].
  rewrite IH. apply perm_swap.
Qed.

Lemma sort_desc_perm (l : list A) : Permutation (sort_desc l) l.
Proof.
  induction l as [|x l IH]; cbn; [reflexivity|].
  rewrite insert_desc_perm. now apply perm_skip.
Qed.

(** No item is followed by one of a greater key. *)
Definition descending (l : list A) : Prop :=
  StronglySorted (fun a b => leb b a = true) l.

Lemma insert_desc_descending (x : A) (l : list A) :
  descending l -> descending (insert_desc x l).
Proof.
  unfold descending. induction 1 as [|y l Hl IH Hy]; cbn.
  - constructor; constructor.
  - destruct (leb y x) eqn:E.
    + constructor; [now constructor|]. constructor; [exact E|].
      rewrite List.Forall_forall in *. intros z Hz. eapply leb_trans; eauto.
    + constructor; [exact IH|].
      rewrite List.Forall_forall in *. intros z Hz.
      apply (Permutation_in _ (insert_desc_perm x l)) in Hz.
      destruct Hz as [<-|Hz]; [|now apply Hy].
      destruct (leb_total x y) as [H|H]; [exact H | congruence].
Qed.

Lemma sort_desc_descending (l : list A) : descending (sort_desc l).
Proof.
  induction l as [|x l IH]; cbn; [constructor | now apply insert_desc_descending].
Qed.

Lemma tied_sym (a b : A) : tied a b = tied b a.
Proof. unfold tied. apply andb_comm. Qed.

Lemma insert_desc_stable (t x : A) (l : list A) :
  List.filter (tied t) (insert_desc x l) = List.filter (tied t) (x :: l).
Proof.
  induction l as [|y l IH]; [reflexivity|].
  cbn [insert_desc]. destruct (leb y x) eqn:E; [reflexivity|].
  cbn [List.filter] in *. rewrite IH.
  destruct (tied t y) eqn:Hy; [|reflexivity].
  destruct (tied t x) eqn:Hx; [|reflexivity].
  exfalso. unfold tied in Hx, Hy.
  apply andb_true_iff in Hx, Hy. destruct Hx as [Htx Hxt], Hy as [Hty Hyt].
  rewrite (leb_trans y t x Hyt Htx) in E. discriminate.
Qed.

(** The sort is stable: the items tied with a given one keep their order. *)
Lemma sort_desc_stable (t : A) (l : list A) :
  List.filter (tied t) (sort_desc l) = List.filter (tied t) l.
Proof.
  induction l as [|x l IH]; [reflexivity|].
  cbn [sort_desc]. rewrite insert_desc_stable. cbn [List.filter]. now rewrite IH.
Qed.

End StableSort.

(** [l[:k]] for an integer [k]: a negative [k] counts from the end. *)
Definition slice_to {A} (k : Z) (l : list A) : list A :=
  if (0 <=? k)%Z then firstn (Z.to_nat k) l
  else firstn (length l - Z.to_nat (- k)) l.

(** [LIMIT n]: a negative [n] is no limit (SQLite). *)
Definition sql_limit {A} (n : Z) (l : list A) : list A :=
  if (n <? 0)%Z then l else firstn (Z.to_nat n) l.

(** [text LIKE pattern] (SQLite): [%] stands for any run of characters,
    [_] for any one character, and ASCII letters match without case. *)
Fixpoint like (pattern text : string) : bool :=
  match pattern with
  | EmptyString => is_empty text
  | String c pattern' =>
    if Ascii.eqb c "%" then
      (fix any_suffix (t : string) : bool :=
         like pattern' t
         || match t with
            | EmptyString => false
            | String _ t' => any_suffix t'
            end) text
    else
      match text with
      | EmptyString => false
      | String d text' =>
        (Ascii.eqb c "_" || Ascii.eqb (lower_char c) (lower_char d))
        && like pattern' text'
      end
  end.

(** *** The tables

    A table is the list of its rows, in the order a scan yields them
    (SQLite walks a table by ascending row id). *)

Record Conversation := {
  conv_id : Z;
  conv_content : string;
  conv_embedding : option (list Byte.byte);
}.

Record Knowledge := {
  know_id : Z;
  know_title : string;
  know_content : string;
  know_category : string;
  know_embedding : option (list Byte.byte);
}.

Record Database := {
  conversations : list Conversation;
  knowledge : list Knowledge;
}.

(** A search hit; [category] is present on knowledge hits only.  Scores
    are Python floats, modelled by the rationals they stand for. *)
Record Hit := {
  source_table : string;
  id : Z;
  content : string;
  category : option string;
  score : Q;
}.

Definition conversation_hit (row : Conversation) (sim : Q) : Hit :=
  {| source_table := "conversation"; id := conv_id row;
     content := conv_content row; category := None; score := sim |}.

Definition knowledge_hit (row : Knowledge) (sim : Q) : Hit :=
  {| source_table := "knowledge"; id := know_id row;
     content := know_title row +:+ ": " +:+ know_content row;
     category := Some (know_category row); score := sim |}.

Definition score_leb (a b : Hit) : bool := Qle_bool (score a) (score b).

(** The results of a run of calls, up to the first that raises. *)
Fixpoint sequence {A} (l : list (Py A)) : Py (list A) :=
  match l with
  | [] => Ret []
  | Ret a :: rest =>
    match sequence rest with
    | Ret rest' => Ret (a :: rest')
    | Exc cls e => Exc cls e
    end
  | Exc cls e :: _ => Exc cls e
  end.

Section Search.

(** The query vector is a list of Python floats. *)
Context {QueryVec : Type}.

(** [self.embedder.embed]: [None] when the embedding is unavailable. *)
Variable embed : string -> option QueryVec.

(** [self.embedder.cosine_similarity], computed in floating point; its
    result is taken as given. *)
Variable cosine_similarity : QueryVec -> list Embedder.float32 -> Q.

(** [WHERE embedding IS NOT NULL] *)
Definition embedded {R} (embedding : R -> option (list Byte.byte)) (rows : list R)
  : list (R * list Byte.byte) :=
  flat_map (fun row => match embedding row with
                       | Some blob => [(row, blob)]
                       | None => []
                       end) rows.

(** The body of [for row in cursor]. *)
Definition candidate {R} (hit : R -> Q -> Hit) (query_vec : QueryVec)
           (entry : R * list Byte.byte) : Py Hit :=
  match Embedder.from_bytes (snd entry) with
  | Ret vec => Ret (hit (fst entry) (cosine_similarity query_vec vec))
  | Exc cls e => Exc cls e
  end.

(** The candidates, before they are sorted. *)
Definition candidates (query_vec : QueryVec) (db : Database) : list (Py Hit) :=
  map (candidate conversation_hit query_vec)
      (embedded conv_embedding (conversations db))
  ++ map (candidate knowledge_hit query_vec)
         (embedded know_embedding (knowledge db)).

Definition _semantic_search (query_vec : QueryVec) (top_k : Z) (db : Database)
  : Py (list Hit) :=
  match sequence (candidates query_vec db) with
  | Ret found => Ret (slice_to top_k (sort_desc score_leb found))
  | Exc cls e => Exc cls e
  end.

(** The rows of the two keyword queries, before [LIMIT]. *)
Definition matching_conversations (query : string) (db : Database)
  : list Conversation :=
  let pattern := "%" +:+ query +:+ "%" in
  sort_desc (fun a b => (conv_id a <=? conv_id b)%Z)
            (List.filter (fun row => like pattern (conv_content row))
                         (conversations db)).

Definition matching_knowledge (query : string) (db : Database) : list Knowledge :=
  let pattern := "%" +:+ query +:+ "%" in
  sort_desc (fun a b => (know_id a <=? know_id b)%Z)
            (List.filter (fun row => like pattern (know_content row)
                                     || like pattern (know_title row))
                         (knowledge db)).

Definition _keyword_search (query : string) (top_k : Z) (db : Database) : list Hit :=
  let results :=
    map (fun row => conversation_hit row 0)
        (sql_limit top_k (matching_conversations query db)) in
  let remaining := (top_k - Z.of_nat (length results))%Z in
  if (0 <? remaining)%Z then
    results ++ map (fun row => knowledge_hit row 0)
                   (sql_limit remaining (matching_knowledge query db))
  else results.

Definition search_memory (query : string) (top_k : Z) (db : Database)
  : Py (list Hit) :=
  match embed query with
  | Some query_vec => _semantic_search query_vec top_k db
  | None => Ret (_keyword_search query top_k db)
  end.

(** *** Properties of the two search paths *)

Lemma strongly_sorted_impl {A} (R R' : A -> A -> Prop) (l : list A) :
  (forall a b, R a b -> R' a b) -> StronglySorted R l -> StronglySorted R' l.
Proof.
  intros HR. induction 1 as [|x l Hl IH Hx]; constructor; [exact IH|].
  revert Hx. apply List.Forall_impl. intros b. apply HR.
Qed.

Lemma sequence_Ret {A} (l : list (Py A)) (xs : list A) :
  sequence l = Ret xs -> l = map Ret xs.
Proof.
  revert xs; induction l as [|[a|cls e] l IH]; intros xs; cbn.
  - intros H; inversion H; reflexivity.
  - destruct (sequence l) as [rest|cls e]; [|discriminate].
    intros H; inversion H; subst. cbn. now rewrite (IH rest eq_refl).
  - discriminate.
Qed.

Lemma sequence_total {A} (l : list (Py A)) :
  Forall (fun r => exists a, r = Ret a) l -> exists xs, sequence l = Ret xs.
Proof.
  induction 1 as [|r l [a ->] Hl [xs IH]]; cbn.
  - now exists [].
  - rewrite IH. now exists (a :: xs).
Qed.

Lemma unpack_total (n : nat) : forall blob,
  length blob = (4 * n)%nat -> exists v, Embedder.unpack blob = Ret v.
Proof.
  induction n as [|n IH]; intros blob Hlen.
  - destruct blob; [now exists [] | discriminate].
  - destruct blob as [|b0 [|b1 [|b2 [|b3 rest]]]]; cbn in Hlen; try lia.
    destruct (IH rest) as [v Hv]; [lia|].
    cbn [Embedder.unpack]. rewrite Hv. now eexists.
Qed.

Lemma score_leb_total (a b : Hit) : score_leb a b = true \/ score_leb b a = true.
Proof.
  unfold score_leb. rewrite !Qle_bool_iff.
  destruct (Qlt_le_dec (score b) (score a)) as [H|H]; [right | left]; auto.
  now apply Qlt_le_weak.
Qed.

Lemma score_leb_trans (a b c : Hit) :
  score_leb a b = true -> score_leb b c = true -> score_leb a c = true.
Proof. unfold score_leb. rewrite !Qle_bool_iff. apply Qle_trans. Qed.

Lemma tied_score (a b : Hit) : tied score_leb a b = Qeq_bool (score a) (score b).
Proof.
  unfold tied, score_leb. apply eq_true_iff_eq.
  rewrite andb_true_iff, !Qle_bool_iff, Qeq_bool_iff. split.
  - intros [H1 H2]. now apply Qle_antisym.
  - intros H. rewrite H. split; apply Qle_refl.
Qed.

Lemma id_leb_total {R} (key : R -> Z) (a b : R) :
  (key a <=? key b)%Z = true \/ (key b <=? key a)%Z = true.
Proof. rewrite !Z.leb_le. lia. Qed.

Lemma id_leb_trans {R} (key : R -> Z) (a b c : R) :
  (key a <=? key b)%Z = true -> (key b <=? key c)%Z = true ->
  (key a <=? key c)%Z = true.
Proof. rewrite !Z.leb_le. lia. Qed.

(** A blob of whole float32 values. *)
Definition whole_blob (blob : list Byte.byte) : Prop :=
  exists n, length blob = (4 * n)%nat.

(** C6 (amended): when the embedding of the query is available,
    [search_memory] ranks all the embedded conversation and knowledge
    rows by descending cosine similarity and returns the first [top_k] of
    the ranking; rows of equal score keep the order of the candidate list:
    conversation rows before knowledge rows, each table in scan order.
    The search returns as soon as every stored blob is a whole number of
    float32 values. *)
Theorem semantic_search_ranking (query : string) (query_vec : QueryVec)
        (top_k : Z) (db : Database) :
  embed query = Some query_vec ->
  (0 <= top_k)%Z ->
  (Forall (fun entry => whole_blob (snd entry))
          (embedded conv_embedding (conversations db)) ->
   Forall (fun entry => whole_blob (snd entry))
          (embedded know_embedding (knowledge db)) ->
   exists hits, search_memory query top_k db = Ret hits)
  /\ forall hits,
      search_memory query top_k db = Ret hits ->
      exists found,
        map Ret found = candidates query_vec db
        /\ hits = firstn (Z.to_nat top_k) (sort_desc score_leb found)
        /\ Permutation (sort_desc score_leb found) found
        /\ StronglySorted (fun a b => (score b <= score a)%Q)
                          (sort_desc score_leb found)
        /\ forall h,
            List.filter (fun h' => Qeq_bool (score h) (score h'))
                        (sort_desc score_leb found)
            = List.filter (fun h' => Qeq_bool (score h) (score h')) found.
Proof.
  intros Hembed Hk. unfold search_memory, _semantic_search. rewrite Hembed.
  split.
  - intros Hconv Hknow.
    destruct (sequence_total (candidates query_vec db)) as [found Hfound].
    + unfold candidates. apply Forall_app. split; apply List.Forall_map;
        [revert Hconv | revert Hknow]; apply List.Forall_impl;
        intros entry [n Hn]; unfold candidate, Embedder.from_bytes;
        destruct (unpack_total n _ Hn) as [v ->]; now eexists.
    + rewrite Hfound. now eexists.
  - intros hits. destruct (sequence (candidates query_vec db)) as [found|] eqn:Hseq;
      [|discriminate].
    intros H; inversion H; subst; clear H. exists found.
    split; [symmetry; now apply sequence_Ret|].
    split; [unfold slice_to; apply Z.leb_le in Hk; now rewrite Hk|].
    split; [apply sort_desc_perm|]. split.
    + pose proof (sort_desc_descending score_leb score_leb_total score_leb_trans found)
        as Hsorted.
      unfold descending in Hsorted.
      eapply strongly_sorted_impl; [|exact Hsorted].
      intros a b Hab. now apply Qle_bool_iff.
    + intros h.
      pose proof (sort_desc_stable score_leb score_leb_trans h found) as Hstable.
      rewrite (List.filter_ext _ _ (tied_score h)) in Hstable.
      rewrite (List.filter_ext _ _ (tied_score h)) in Hstable. exact Hstable.
Qed.

(** C10: on the keyword path (no embedding for the query, [top_k] not
    negative) the hits are the first [top_k] matching conversation rows,
    newest first, followed by the first matching knowledge rows, newest
    first, that fit in the slots the conversations left; there are at most
    [top_k] hits, and no knowledge hit when [top_k] or more conversation
    rows match. *)
Theorem keyword_search_shape (query : string) (top_k : Z) (db : Database) :
  embed query = None ->
  (0 <= top_k)%Z ->
  let pattern := "%" +:+ query +:+ "%" in
  let convs := matching_conversations query db in
  let knows := matching_knowledge query db in
  let shown_convs := firstn (Z.to_nat top_k) convs in
  let shown_knows := firstn (Z.to_nat top_k - length shown_convs) knows in
  let hits := _keyword_search query top_k db in
  search_memory query top_k db = Ret hits
  /\ hits = map (fun row => conversation_hit row 0) shown_convs
            ++ map (fun row => knowledge_hit row 0) shown_knows
  /\ length hits <= Z.to_nat top_k
  /\ StronglySorted (fun a b => (conv_id b <= conv_id a)%Z) convs
  /\ StronglySorted (fun a b => (know_id b <= know_id a)%Z) knows
  /\ (forall row,
         In row convs <->
         In row (conversations db) /\ like pattern (conv_content row) = true)
  /\ (forall row,
         In row knows <->
         In row (knowledge db)
         /\ (like pattern (know_content row) || like pattern (know_title row)) = true)
  /\ (Z.to_nat top_k <= length convs ->
      shown_knows = []
      /\ Forall (fun h => source_table h = "conversation") hits).
Proof.
  intros Hembed Hk. cbn zeta.
  set (convs := matching_conversations query db).
  set (knows := matching_knowledge query db).
  assert (Hhits : _keyword_search query top_k db
                  = map (fun row => conversation_hit row 0)
                        (firstn (Z.to_nat top_k) convs)
                    ++ map (fun row => knowledge_hit row 0)
                           (firstn (Z.to_nat top_k
                                    - length (firstn (Z.to_nat top_k) convs)) knows)).
  { unfold _keyword_search, sql_limit. fold convs knows.
    assert (Hk' : (top_k <? 0)%Z = false) by (apply Z.ltb_ge; lia).
    rewrite Hk', length_map.
    destruct (Z.ltb_spec 0 (top_k - Z.of_nat (length (firstn (Z.to_nat top_k) convs))))
      as [Hpos|Hneg].
    - assert (Hr : (top_k - Z.of_nat (length (firstn (Z.to_nat top_k) convs)) <? 0)%Z
                   = false) by (apply Z.ltb_ge; lia).
      rewrite Hr. do 3 f_equal. lia.
    - replace (Z.to_nat top_k - length (firstn (Z.to_nat top_k) convs)) with 0 by lia.
      cbn. now rewrite app_nil_r. }
  split; [unfold search_memory; now rewrite Hembed|].
  split; [exact Hhits|].
  split.
  { rewrite Hhits, length_app, !length_map.
    pose proof (firstn_le_length (Z.to_nat top_k) convs).
    pose proof (firstn_le_length
                  (Z.to_nat top_k - length (firstn (Z.to_nat top_k) convs)) knows).
    rewrite !length_firstn in *. lia. }
  split.
  { eapply strongly_sorted_impl;
      [|apply (sort_desc_descending _ (id_leb_total conv_id) (id_leb_trans conv_id))].
    intros a b Hab. now apply Z.leb_le. }
  split.
  { eapply strongly_sorted_impl;
      [|apply (sort_desc_descending _ (id_leb_total know_id) (id_leb_trans know_id))].
    intros a b Hab. now apply Z.leb_le. }
  split.
  { intros row. unfold convs, matching_conversations. cbn zeta. split.
    - intros Hin. apply (Permutation_in _ (sort_desc_perm _ _)) in Hin.
      now apply List.filter_In in Hin.
    - intros Hin. apply (Permutation_in _ (Permutation_sym (sort_desc_perm _ _))).
      now apply List.filter_In. }
  split.
  { intros row. unfold knows, matching_knowledge. cbn zeta. split.
    - intros Hin. apply (Permutation_in _ (sort_desc_perm _ _)) in Hin.
      now apply List.filter_In in Hin.
    - intros Hin. apply (Permutation_in _ (Permutation_sym (sort_desc_perm _ _))).
      now apply List.filter_In. }
  intros Hmany.
  assert (Hnone : firstn (Z.to_nat top_k - length (firstn (Z.to_nat top_k) convs)) knows
                  = []).
  { rewrite length_firstn. replace (Z.to_nat top_k - _) with 0 by lia. reflexivity. }
  split; [exact Hnone|].
  rewrite Hhits, Hnone. cbn [map]. rewrite app_nil_r.
  apply List.Forall_map. apply List.Forall_forall. reflexivity.
Qed.

End Search.

(** *** [LIKE] on a query without wildcards *)

(** A text without [%] and [_]. *)
Fixpoint literal (q : string) : bool :=
  match q with
  | EmptyString => true
  | String c q' => negb (Ascii.eqb c "%") && negb (Ascii.eqb c "_") && literal q'
  end.

Lemma like_percent (p text : string) :
  like (String "%" p) text = true <-> exists a t, text = a +:+ t /\ like p t = true.
Proof.
  induction text as [|c text IH].
  - change (like (String "%" p) "") with (like p "" || false).
    rewrite orb_false_r. split.
    + intros H. now exists "", "".
    + intros (a & t & Heq & H). destruct a; [|discriminate Heq].
      change ("" +:+ t) with t in Heq. now subst t.
  - change (like (String "%" p) (String c text))
      with (like p (String c text) || like (String "%" p) text).
    rewrite orb_true_iff, IH. split.
    + intros [H | (a & t & Heq & H)].
      * now exists "", (String c text).
      * exists (String c a), t. split; [|exact H].
        change (String c a +:+ t) with (String c (a +:+ t)). now rewrite Heq.
    + intros (a & t & Heq & H). destruct a as [|x a].
      * left. change ("" +:+ t) with t in Heq. now subst t.
      * right. change (String x a +:+ t) with (String x (a +:+ t)) in Heq.
        inversion Heq; subst. now exists a, t.
Qed.

Lemma like_literal_prefix (q : string) :
  literal q = true ->
  forall text, like (q +:+ "%") text = true <-> exists b, lower text = lower q +:+ b.
Proof.
  induction q as [|c q IH]; intros Hq text.
  - change ("" +:+ "%") with (String "%" ""). rewrite like_percent. split.
    + intros _. now exists (lower text).
    + intros _. exists text, "". split; [|reflexivity].
      clear. induction text as [|c text IH]; [reflexivity|].
      change (String c text +:+ "") with (String c (text +:+ "")). now rewrite <- IH.
  - cbn [literal] in Hq. apply andb_true_iff in Hq. destruct Hq as [Hc Hq].
    apply andb_true_iff in Hc. destruct Hc as [Hpercent Hunder].
    apply negb_true_iff in Hpercent, Hunder.
    change (String c q +:+ "%") with (String c (q +:+ "%")).
    cbn [like]. rewrite Hpercent. destruct text as [|d text].
    + split; [discriminate | intros [b Hb]; discriminate Hb].
    + rewrite Hunder, orb_false_l, andb_true_iff, (IH Hq), Ascii.eqb_eq.
      cbn [lower]. split.
      * intros [Hcd [b Hb]]. exists b. cbn. now rewrite Hcd, Hb.
      * intros [b Hb]. cbn in Hb. inversion Hb. split; [congruence | now exists b].
Qed.

Lemma lower_split (text x y : string) :
  lower text = x +:+ y -> exists a t, text = a +:+ t /\ lower a = x /\ lower t = y.
Proof.
  revert text; induction x as [|c x IH]; intros text Heq.
  - exists "", text. now repeat split.
  - destruct text as [|d text]; [discriminate Heq|].
    cbn in Heq. inversion Heq as [[Hd Hrest]].
    destruct (IH text Hrest) as (a & t & -> & Ha & Ht).
    exists (String d a), t. cbn. rewrite Ha. now repeat split.
Qed.

Lemma like_contains (q text : string) :
  literal q = true ->
  like ("%" +:+ q +:+ "%") text = true <-> occurs_in (lower q) (lower text).
Proof.
  intros Hq. change ("%" +:+ q +:+ "%") with (String "%" (q +:+ "%")).
  rewrite like_percent. unfold occurs_in. split.
  - intros (a & t & -> & Hlike). apply (like_literal_prefix q Hq) in Hlike.
    destruct Hlike as [b Hb]. exists (lower a), b. now rewrite lower_app, Hb.
  - intros (a' & b & Heq). destruct (lower_split _ _ _ Heq) as (a & t & -> & _ & Ht).
    exists a, t. split; [reflexivity|]. apply (like_literal_prefix q Hq). now exists b.
Qed.

Lemma in_sort_desc {A} (leb : A -> A -> bool) (l : list A) (x : A) :
  In x (sort_desc leb l) <-> In x l.
Proof.
  split; apply Permutation_in;
    [apply sort_desc_perm | apply Permutation_sym, sort_desc_perm].
Qed.

(** X18: for a query without the wildcards [%] and [_], the keyword
    search matches a text exactly when the query occurs in it, the case of
    ASCII letters apart: a conversation row matches by its content, a
    knowledge row by its content or its title.  The empty query matches
    every row. *)
Theorem keyword_match_is_containment (query : string) (db : Database) :
  literal query = true ->
  (forall text,
      like ("%" +:+ query +:+ "%") text = true <->
      occurs_in (lower query) (lower text))
  /\ (forall row,
         In row (matching_conversations query db) <->
         In row (conversations db)
         /\ occurs_in (lower query) (lower (conv_content row)))
  /\ (forall row,
         In row (matching_knowledge query db) <->
         In row (knowledge db)
         /\ (occurs_in (lower query) (lower (know_content row))
             \/ occurs_in (lower query) (lower (know_title row))))
  /\ (query = "" ->
      forall row, In row (conversations db) -> In row (matching_conversations query db)).
Proof.
  intros Hq.
  assert (Hlike := fun text => like_contains query text Hq).
  split; [exact Hlike|]. split; [|split].
  - intros row. unfold matching_conversations. cbn zeta.
    now rewrite in_sort_desc, List.filter_In, Hlike.
  - intros row. unfold matching_knowledge. cbn zeta.
    now rewrite in_sort_desc, List.filter_In, orb_true_iff, !Hlike.
  - intros -> row Hin. unfold matching_conversations. cbn zeta.
    rewrite in_sort_desc, List.filter_In, Hlike. split; [exact Hin|].
    now exists "", (lower (conv_content row)).
Qed.

(** *** Edge cases of the two searches *)

Lemma firstn_In {A} (n : nat) (l : list A) (x : A) : In x (firstn n l) -> In x l.
Proof.
  revert l; induction n as [|n IH]; intros [|y l]; cbn; try tauto.
  intros [H|H]; [now left | right; now apply IH].
Qed.

Lemma sequence_raises {A} (l : list (Py A)) :
  (exists cls e, In (Exc cls e) l) -> exists cls e, sequence l = Exc cls e.
Proof.
  induction l as [|[a|cls e] l IH]; intros (cls' & e' & Hin).
  - destruct Hin.
  - destruct Hin as [Heq|Hin]; [discriminate Heq|].
    destruct IH as (cls'' & e'' & Hseq); [now exists cls', e'|].
    cbn. rewrite Hseq. now exists cls'', e''.
  - cbn. now exists cls, e.
Qed.

Lemma in_embedded {R} (embedding : R -> option (list Byte.byte)) (rows : list R)
      (row : R) (blob : list Byte.byte) :
  In (row, blob) (embedded embedding rows) <-> In row rows /\ embedding row = Some blob.
Proof.
  unfold embedded. rewrite in_flat_map. split.
  - intros (row' & Hin & Hrow). destruct (embedding row') as [blob'|] eqn:E;
      [|destruct Hrow].
    destruct Hrow as [Heq|[]]. inversion Heq; subst. now split.
  - intros [Hin Hsome]. exists row. split; [exact Hin|]. rewrite Hsome. now left.
Qed.

(** A stored blob that is not a whole number of float32 values. *)
Definition torn (db : Database) : Prop :=
  exists blob,
    (length blob mod 4 <> 0)%nat
    /\ ((exists row, In row (conversations db) /\ conv_embedding row = Some blob)
        \/ (exists row, In row (knowledge db) /\ know_embedding row = Some blob)).

(** X19: edge cases of [search_memory].  One stored blob whose length is
    not a multiple of four makes every semantic search raise.  With a
    negative [top_k] the semantic search drops the last [-top_k] rows of
    the ranking instead, and the keyword search returns every matching
    conversation row, without limit, and no knowledge row. *)
Theorem search_memory_edge_cases {QueryVec : Type}
        (embed : string -> option QueryVec)
        (cosine_similarity : QueryVec -> list Embedder.float32 -> Q)
        (query : string) (top_k : Z) (db : Database) :
  (forall query_vec,
      embed query = Some query_vec -> torn db ->
      exists cls e, search_memory embed cosine_similarity query top_k db = Exc cls e)
  /\ (forall query_vec found,
         embed query = Some query_vec -> (top_k < 0)%Z ->
         sequence (candidates cosine_similarity query_vec db) = Ret found ->
         search_memory embed cosine_similarity query top_k db
         = Ret (firstn (length found - Z.to_nat (- top_k))
                       (sort_desc score_leb found)))
  /\ (embed query = None -> (top_k < 0)%Z ->
      search_memory embed cosine_similarity query top_k db
      = Ret (map (fun row => conversation_hit row 0)
                 (matching_conversations query db))).
Proof.
  unfold search_memory. split; [|split].
  - intros query_vec -> (blob & Hlen & Hrow). unfold _semantic_search.
    destruct (sequence_raises (candidates cosine_similarity query_vec db))
      as (cls & e & ->); [|now exists cls, e].
    destruct (Embedder.unpack_length (length blob) blob (Nat.le_refl _))
      as [_ Hodd].
    destruct (Hodd Hlen) as [e He].
    exists OtherException, e. unfold candidates. apply in_app_iff.
    destruct Hrow as [(row & Hin & Hsome) | (row & Hin & Hsome)]; [left | right];
      apply in_map_iff; exists (row, blob);
      (split; [unfold candidate, Embedder.from_bytes; cbn [snd]; now rewrite He
              | now apply in_embedded]).
  - intros query_vec found -> Hk Hseq. unfold _semantic_search. rewrite Hseq.
    unfold slice_to. replace (0 <=? top_k)%Z with false
      by (symmetry; apply Z.leb_gt; lia).
    now rewrite (Permutation_length (sort_desc_perm score_leb found)).
  - intros -> Hk. unfold _keyword_search, sql_limit.
    replace (top_k <? 0)%Z with true by (symmetry; apply Z.ltb_lt; lia).
    replace (0 <? _)%Z with false; [reflexivity|].
    symmetry. apply Z.ltb_ge. lia.
Qed.

(** X20: every hit of [search_memory] is a row of the database: a
    conversation row with its content, or a knowledge row with its title
    and content joined and its category.  On the semantic path the row has
    a stored embedding and the score is its similarity to the query; on the
    keyword path the score is zero. *)
Theorem search_memory_hits_are_rows {QueryVec : Type}
        (embed : string -> option QueryVec)
        (cosine_similarity : QueryVec -> list Embedder.float32 -> Q)
        (query : string) (top_k : Z) (db : Database) (hits : list Hit) (hit : Hit) :
  search_memory embed cosine_similarity query top_k db = Ret hits ->
  In hit hits ->
  (exists row sim,
      In row (conversations db) /\ hit = conversation_hit row sim
      /\ match embed query with
         | Some query_vec =>
           exists blob vec,
             conv_embedding row = Some blob /\ Embedder.from_bytes blob = Ret vec
             /\ sim = cosine_similarity query_vec vec
         | None => sim = 0%Q
         end)
  \/ (exists row sim,
         In row (knowledge db) /\ hit = knowledge_hit row sim
         /\ match embed query with
            | Some query_vec =>
              exists blob vec,
                know_embedding row = Some blob /\ Embedder.from_bytes blob = Ret vec
                /\ sim = cosine_similarity query_vec vec
            | None => sim = 0%Q
            end).
Proof.
  unfold search_memory. destruct (embed query) as [query_vec|].
  - unfold _semantic_search.
    destruct (sequence (candidates cosine_similarity query_vec db)) as [found|] eqn:Hseq;
      [|discriminate].
    intros H Hin. inversion H; subst; clear H.
    assert (Hfound : In hit found).
    { unfold slice_to in Hin. apply (in_sort_desc score_leb).
      destruct (0 <=? top_k)%Z; now apply firstn_In in Hin. }
    assert (Hcand : In (Ret hit) (candidates cosine_similarity query_vec db)).
    { rewrite (sequence_Ret _ _ Hseq). now apply in_map. }
    unfold candidates in Hcand. apply in_app_iff in Hcand.
    destruct Hcand as [Hcand|Hcand]; [left | right];
      apply in_map_iff in Hcand; destruct Hcand as ([row blob] & Heq & Hrow);
      apply in_embedded in Hrow; destruct Hrow as [Hrow Hsome];
      unfold candidate in Heq; cbn [fst snd] in Heq;
      destruct (Embedder.from_bytes blob) as [vec|] eqn:Hvec; try discriminate Heq;
      inversion Heq; subst; exists row, (cosine_similarity query_vec vec);
      (split; [exact Hrow|]); (split; [reflexivity|]); now exists blob, vec.
  - intros H Hin. inversion H; subst; clear H.
    assert (Hparts : In hit (map (fun row => conversation_hit row 0)
                                 (matching_conversations query db))
                     \/ In hit (map (fun row => knowledge_hit row 0)
                                    (matching_knowledge query db))).
    { unfold _keyword_search, sql_limit in Hin.
      assert (Hsub : forall {R} (f : R -> Hit) n (l : list R),
                 In hit (map f (if (n <? 0)%Z then l else firstn (Z.to_nat n) l)) ->
                 In hit (map f l)).
      { intros R f n l H. apply in_map_iff in H. destruct H as (row & Heq & Hrow).
        apply in_map_iff. exists row. split; [exact Heq|].
        destruct (n <? 0)%Z; [exact Hrow | now apply firstn_In in Hrow]. }
      destruct (0 <? _)%Z.
      - apply in_app_iff in Hin. destruct Hin as [Hin|Hin];
          [left | right]; now apply Hsub in Hin.
      - left. now apply Hsub in Hin. }
    destruct Hparts as [Hin'|Hin']; [left | right];
      apply in_map_iff in Hin'; destruct Hin' as (row & <- & Hrow);
      exists row, 0%Q; (split; [|now split]).
    + unfold matching_conversations in Hrow. cbn zeta in Hrow.
      apply in_sort_desc, List.filter_In in Hrow. tauto.
    + unfold matching_knowledge in Hrow. cbn zeta in Hrow.
      apply in_sort_desc, List.filter_In in Hrow. tauto.
Qed.

(** *** The recent turns of a session *)

(** A row of [conversations], as [get_recent_conversations] selects it. *)
Record Turn := {
  turn_id : Z;
  timestamp : string;
  session_id : string;
  role : string;
  turn_content : string;
}.

(** [WHERE session_id = ?] *)
Definition of_session (session : string) (table : list Turn) : list Turn :=
  List.filter (fun row => String.eqb (session_id row) session) table.

(** [get_recent_conversations]: the newest [limit] turns, oldest first. *)
Definition get_recent_conversations (table : list Turn) (session : string) (limit : Z)
  : list Turn :=
  rev (sql_limit limit
         (sort_desc (fun a b => (turn_id a <=? turn_id b)%Z) (of_session session table))).

Lemma sorted_app_inv {A} (R : A -> A -> Prop) (l1 l2 : list A) :
  StronglySorted R (l1 ++ l2) ->
  StronglySorted R l1 /\ StronglySorted R l2
  /\ forall a b, In a l1 -> In b l2 -> R a b.
Proof.
  induction l1 as [|x l1 IH]; cbn; intros H.
  - split; [constructor|]. split; [exact H|]. intros a b [].
  - inversion H as [|? ? Hsorted Hx]; subst.
    destruct (IH Hsorted) as (H1 & H2 & H12).
    rewrite List.Forall_forall in Hx. split.
    + constructor; [exact H1|]. apply List.Forall_forall. intros b Hb.
      apply Hx, in_app_iff. now left.
    + split; [exact H2|]. intros a b [<-|Ha] Hb; [|now apply H12].
      apply Hx, in_app_iff. now right.
Qed.

Lemma sorted_app {A} (R : A -> A -> Prop) (l1 l2 : list A) :
  StronglySorted R l1 -> StronglySorted R l2 ->
  (forall a b, In a l1 -> In b l2 -> R a b) ->
  StronglySorted R (l1 ++ l2).
Proof.
  induction 1 as [|x l1 Hsorted IH Hx]; cbn; intros H2 H12; [exact H2|].
  constructor.
  - apply IH; [exact H2|]. intros a b Ha Hb. apply H12; [now right | exact Hb].
  - apply Forall_app. split; [exact Hx|].
    apply List.Forall_forall. intros b Hb. apply H12; [now left | exact Hb].
Qed.

Lemma sorted_rev {A} (R : A -> A -> Prop) (l : list A) :
  StronglySorted R l -> StronglySorted (fun a b => R b a) (rev l).
Proof.
  induction 1 as [|x l Hsorted IH Hx]; cbn; [constructor|].
  apply sorted_app; [exact IH | repeat constructor|].
  intros a b Ha [<-|[]]. rewrite List.Forall_forall in Hx.
  apply Hx. now apply in_rev.
Qed.

(** X21: [get_recent_conversations] returns turns of the given session
    only, oldest first; for a limit that is not negative, as many as the
    limit allows, and they are the newest: a turn of the session that is
    left out is not newer than any turn returned.  A negative limit returns
    all the turns of the session. *)
Theorem recent_conversations_are_newest (table : list Turn) (session : string)
        (limit : Z) :
  let recent := get_recent_conversations table session limit in
  (forall row, In row recent -> In row table /\ session_id row = session)
  /\ StronglySorted (fun a b => (turn_id a <= turn_id b)%Z) recent
  /\ ((0 <= limit)%Z ->
      length recent = Nat.min (Z.to_nat limit) (length (of_session session table)))
  /\ ((limit < 0)%Z -> Permutation recent (of_session session table))
  /\ (forall row kept,
         In row table -> session_id row = session -> ~ In row recent ->
         In kept recent -> (turn_id row <= turn_id kept)%Z).
Proof.
  cbn zeta. unfold get_recent_conversations.
  set (sorted := sort_desc (fun a b => (turn_id a <=? turn_id b)%Z)
                           (of_session session table)).
  assert (Hperm : Permutation sorted (of_session session table))
    by apply sort_desc_perm.
  assert (Hdesc : StronglySorted (fun a b => (turn_id b <= turn_id a)%Z) sorted).
  { eapply strongly_sorted_impl;
      [|apply (sort_desc_descending _ (id_leb_total turn_id) (id_leb_trans turn_id))].
    intros a b Hab. now apply Z.leb_le. }
  assert (Hsession : forall row,
             In row sorted <-> In row table /\ session_id row = session).
  { intros row. unfold sorted, of_session.
    now rewrite in_sort_desc, List.filter_In, String.eqb_eq. }
  assert (Hsplit : exists dropped, sorted = sql_limit limit sorted ++ dropped).
  { unfold sql_limit. destruct (limit <? 0)%Z.
    - exists []. now rewrite app_nil_r.
    - exists (skipn (Z.to_nat limit) sorted). now rewrite firstn_skipn. }
  destruct Hsplit as [dropped Hsplit].
  assert (Hparts := Hdesc). rewrite Hsplit in Hparts.
  apply sorted_app_inv in Hparts. destruct Hparts as (Hkept & _ & Horder).
  split; [|split; [|split; [|split]]].
  - intros row Hin. apply in_rev in Hin. apply Hsession.
    rewrite Hsplit. apply in_app_iff. now left.
  - apply (sorted_rev _ _ Hkept).
  - intros Hlimit. rewrite length_rev. unfold sql_limit.
    replace (limit <? 0)%Z with false by (symmetry; apply Z.ltb_ge; lia).
    rewrite length_firstn. f_equal. now apply Permutation_length.
  - intros Hlimit. unfold sql_limit.
    replace (limit <? 0)%Z with true by (symmetry; apply Z.ltb_lt; lia).
    rewrite <- Hperm. apply Permutation_sym, Permutation_rev.
  - intros row kept Hrow Hsess Hout Hin. apply in_rev in Hin.
    apply Horder; [exact Hin|].
    assert (Hsorted : In row sorted) by (now apply Hsession).
    rewrite Hsplit in Hsorted. apply in_app_iff in Hsorted.
    destruct Hsorted as [H|H]; [|exact H].
    exfalso. apply Hout. now apply in_rev in H.
Qed.

(** *** Two small databases *)

(** The blob of the one-component vector [1.0]. *)
Definition unit_blob : list Byte.byte :=
  Embedder.to_bytes [ {| Embedder.sign := false; Embedder.exponent := 127;
                         Embedder.fraction := 0 |} ].

(** A stand-in similarity: it reads the stored vector only, so that equal
    blobs score alike. *)
Definition first_component (query_vec : unit) (vec : list Embedder.float32) : Q :=
  match vec with
  | x :: _ => Qred (Embedder.value x)
  | [] => 0
  end.

Definition conversation (n : Z) (text : string) : Conversation :=
  {| conv_id := n; conv_content := text; conv_embedding := Some unit_blob |}.

Definition note (n : Z) (title text : string) : Knowledge :=
  {| know_id := n; know_title := title; know_content := text;
     know_category := "research"; know_embedding := Some unit_blob |}.

Definition tied_db : Database :=
  {| conversations := [conversation 1 "MoS2 bandgap"; conversation 2 "MoS2 again"];
     knowledge := [note 3 "MoS2" "a 2D material"] |}.

Definition dft_db : Database :=
  {| conversations :=
       [conversation 1 "DFT setup"; conversation 2 "lunch";
        conversation 3 "dft convergence"; conversation 4 "more DFT"];
     knowledge := [note 1 "DFT notes" "functionals"] |}.

(** C6, as stated, fails: conversation rows 1 and 2 tie, and the older
    row 1 comes first; asked for one hit, the search returns row 1. *)
Lemma ties_keep_scan_order :
  exists first second rest,
    search_memory (fun _ => Some tt) first_component "MoS2" 3 tied_db
    = Ret (first :: second :: rest)
    /\ (score first == score second)%Q
    /\ source_table first = source_table second
    /\ id first = 1%Z /\ id second = 2%Z
    /\ ~ (id second <= id first)%Z
    /\ search_memory (fun _ => Some tt) first_component "MoS2" 1 tied_db
       = Ret [first].
Proof.
  do 3 eexists. split; [vm_compute; reflexivity|].
  cbn. repeat split; try reflexivity. lia.
Qed.

(** The semantic search of the tied database returns. *)
Lemma semantic_search_ranking_witness :
  exists hits,
    search_memory (fun _ => Some tt) first_component "MoS2" 3 tied_db = Ret hits.
Proof.
  apply (semantic_search_ranking (fun _ => Some tt) first_component
                                 "MoS2" tt 3 tied_db eq_refl).
  - lia.
  - repeat constructor; exists 1; reflexivity.
  - repeat constructor; exists 1; reflexivity.
Defined.

(** Three conversations match [DFT]: with [top_k = 2] the two newest are
    the hits and the matching note is left out; with [top_k = 5] all four
    matches are returned. *)
Lemma keyword_search_shape_witness :
  search_memory (fun _ => @None unit) first_component "DFT" 2 dft_db
  = Ret [conversation_hit (conversation 4 "more DFT") 0;
         conversation_hit (conversation 3 "dft convergence") 0]
  /\ length (_keyword_search "DFT" 5 dft_db) = 4.
Proof.
  split.
  - destruct (keyword_search_shape (fun _ => @None unit) first_component
                                   "DFT" 2 dft_db eq_refl)
      as (Hsearch & Hhits & _); [lia|].
    rewrite Hsearch, Hhits. vm_compute. reflexivity.
  - vm_compute. reflexivity.
Defined.

(** [dft] occurs in the third conversation, whatever the case. *)
Lemma keyword_match_is_containment_witness :
  literal "DFT" = true
  /\ In (conversation 3 "dft convergence") (matching_conversations "DFT" dft_db).
Proof.
  split; [reflexivity|].
  destruct (keyword_match_is_containment "DFT" dft_db eq_refl) as (_ & Hconv & _).
  apply Hconv. split.
  - cbn. tauto.
  - now exists "", " convergence".
Defined.

(** A database with a blob of one byte. *)
Definition torn_db : Database :=
  {| conversations :=
       [conversation 1 "MoS2 bandgap";
        {| conv_id := 2; conv_content := "MoS2 again";
           conv_embedding := Some [Byte.x00] |}];
     knowledge := [] |}.

(** The torn blob breaks the semantic search; a negative [top_k] lifts the
    limit of the keyword search. *)
Lemma search_memory_edge_cases_witness :
  (exists cls e,
      search_memory (fun _ => Some tt) first_component "MoS2" 3 torn_db = Exc cls e)
  /\ search_memory (fun _ => @None unit) first_component "DFT" (-1) dft_db
     = Ret (map (fun row => conversation_hit row 0)
                [conversation 4 "more DFT"; conversation 3 "dft convergence";
                 conversation 1 "DFT setup"]).
Proof.
  split.
  - apply (proj1 (search_memory_edge_cases (fun _ => Some tt) first_component
                                           "MoS2" 3 torn_db) tt eq_refl).
    exists [Byte.x00]. split; [cbn; discriminate|].
    left. eexists. split; [right; left; reflexivity | reflexivity].
  - apply (proj2 (proj2 (search_memory_edge_cases (fun _ => @None unit) first_component
                                                  "DFT" (-1) dft_db)) eq_refl).
    lia.
Defined.

(** The newest match of the keyword search is row 4 of the conversations. *)
Lemma search_memory_hits_are_rows_witness :
  (exists row sim,
      In row (conversations dft_db)
      /\ conversation_hit (conversation 4 "more DFT") 0 = conversation_hit row sim
      /\ sim = 0%Q)
  \/ (exists row sim,
         In row (knowledge dft_db)
         /\ conversation_hit (conversation 4 "more DFT") 0 = knowledge_hit row sim
         /\ sim = 0%Q).
Proof.
  apply (search_memory_hits_are_rows
           (fun _ => @None unit) first_component "DFT" 2 dft_db
           [conversation_hit (conversation 4 "more DFT") 0;
            conversation_hit (conversation 3 "dft convergence") 0]
           (conversation_hit (conversation 4 "more DFT") 0)).
  - vm_compute. reflexivity.
  - left. reflexivity.
Defined.

(** Three turns of two sessions. *)
Definition turn (n : Z) (session text : string) : Turn :=
  {| turn_id := n; timestamp := "2026-02-01T09:00:00"; session_id := session;
     role := "user"; turn_content := text |}.

Definition turns : list Turn :=
  [turn 1 "s1" "hello"; turn 2 "s2" "hi"; turn 3 "s1" "MoS2?"; turn 4 "s1" "thanks"].

Lemma recent_conversations_are_newest_witness :
  get_recent_conversations turns "s1" 2 = [turn 3 "s1" "MoS2?"; turn 4 "s1" "thanks"]
  /\ length (get_recent_conversations turns "s1" 2) = 2.
Proof.
  split; [vm_compute; reflexivity|].
  destruct (recent_conversations_are_newest turns "s1" 2) as (_ & _ & Hlen & _).
  rewrite Hlen; [reflexivity | lia].
Defined.

End Memory.

(** ** The audit trail ([polaris/trace_logger.py]) *)

Module TraceLogger.
Import PyStr.

(** A row of [traces]. *)
Record Trace := {
  id : Z;
  timestamp : string;
  thought : string;
  tool : string;
  args : string;
  result : string;
  approval_level : string;
  approved_by : string;
  session_id : string;
}.

(** The table: its rows in scan order, and the largest row id handed out
    so far, which [AUTOINCREMENT] keeps in [sqlite_sequence]. *)
Record Table := { rows : list Trace; sequence : Z }.

Definition empty : Table := {| rows := []; sequence := 0 |}.

(** The largest row id ever in the table. *)
Definition largest (t : Table) : Z :=
  fold_right Z.max (sequence t) (map id (rows t)).

(** [json.dumps(s, ensure_ascii=False)] for a string: the quote, the
    backslash and the control characters are escaped, everything else is
    written as it is. *)
Definition escape_char (c : ascii) : string :=
  let n := N_of_ascii c in
  (if n =? 34 then bs +:+ dq
   else if n =? 92 then bs +:+ bs
   else if n =? 10 then bs +:+ "n"
   else if n =? 13 then bs +:+ "r"
   else if n =? 9 then bs +:+ "t"
   else if n =? 8 then bs +:+ "b"
   else if n =? 12 then bs +:+ "f"
   else if n <? 32 then Json.u_escape n
   else String c EmptyString)%N.

Fixpoint escape (s : string) : string :=
  match s with
  | EmptyString => EmptyString
  | String c rest => escape_char c +:+ escape rest
  end.

Definition dumps_str (s : string) : string := dq +:+ escape s +:+ dq.

(** [json.dumps(args, ensure_ascii=False)] for a dict of strings. *)
Definition dumps (args : list (string * string)) : string :=
  "{" +:+ join ", " (map (fun item => dumps_str (fst item) +:+ ": "
                                      +:+ dumps_str (snd item)) args)
  +:+ "}".

(** [log]; [now] is [datetime.utcnow().isoformat()]. *)
Definition log (now thought tool : string) (args : list (string * string))
           (result approval_level approved_by session_id : string) (t : Table)
  : Table :=
  let new_id := (largest t + 1)%Z in
  {| rows := rows t ++ [{| id := new_id; timestamp := now; thought := thought;
                           tool := tool; args := dumps args; result := result;
                           approval_level := approval_level;
                           approved_by := approved_by; session_id := session_id |}];
     sequence := new_id |}.

Definition newest_first (l : list Trace) : list Trace :=
  Memory.sort_desc (fun a b => (id a <=? id b)%Z) l.

(** [get_recent] *)
Definition get_recent (limit : Z) (t : Table) : list Trace :=
  Memory.sql_limit limit (newest_first (rows t)).

(** [by_session] *)
Definition by_session (session : string) (limit : Z) (t : Table) : list Trace :=
  Memory.sql_limit limit
    (newest_first (List.filter (fun row => String.eqb (session_id row) session)
                               (rows t))).

(** [by_tool] *)
Definition by_tool (tool_name : string) (limit : Z) (t : Table) : list Trace :=
  Memory.sql_limit limit
    (newest_first (List.filter (fun row => String.eqb (tool row) tool_name) (rows t))).

Lemma largest_bound (t : Table) :
  (sequence t <= largest t)%Z /\ forall row, In row (rows t) -> (id row <= largest t)%Z.
Proof.
  unfold largest. induction (rows t) as [|r l [IH1 IH2]]; cbn.
  - split; [lia | intros row []].
  - split; [lia|]. intros row [<-|Hin]; [lia|]. specialize (IH2 row Hin). lia.
Qed.

Lemma newest_first_snoc (l : list Trace) (x : Trace) :
  (forall row, In row l -> (id row < id x)%Z) ->
  newest_first (l ++ [x]) = x :: newest_first l.
Proof.
  unfold newest_first. induction l as [|y l IH]; intros Hnew; [reflexivity|].
  cbn [app Memory.sort_desc]. rewrite IH by (intros row Hin; apply Hnew; now right).
  cbn [Memory.insert_desc].
  replace (id x <=? id y)%Z with false; [reflexivity|].
  symmetry. apply Z.leb_gt. apply Hnew. now left.
Qed.

Lemma sql_limit_cons {A} (limit : Z) (x : A) (l : list A) :
  (limit <> 0)%Z ->
  Memory.sql_limit limit (x :: l)
  = x :: Memory.sql_limit (if (limit <? 0)%Z then limit else limit - 1)%Z l.
Proof.
  intros Hlimit. unfold Memory.sql_limit.
  destruct (Z.ltb_spec limit 0) as [Hneg|Hpos].
  - replace (limit <? 0)%Z with true by (symmetry; apply Z.ltb_lt; lia). reflexivity.
  - replace (limit - 1 <? 0)%Z with false by (symmetry; apply Z.ltb_ge; lia).
    replace (Z.to_nat limit) with (S (Z.to_nat (limit - 1))) by lia. reflexivity.
Qed.

(** X23: the audit trail only grows.  [log] appends one row, carrying the
    given fields and a row id above every id in the table and every id
    handed out before; the rows already there are unchanged.  The new row is
    the first of [get_recent] and of [by_session] for its session, followed
    by what these returned before (with one slot less); the records of the
    other sessions are as before. *)
Theorem log_appends (now thought tool_name : string)
        (tool_args : list (string * string))
        (result_text level approver session : string) (t : Table) :
  let t' := log now thought tool_name tool_args result_text level approver session t in
  exists row,
    rows t' = rows t ++ [row]
    /\ tool row = tool_name /\ approval_level row = level
    /\ session_id row = session /\ result row = result_text
    /\ (forall old, In old (rows t) -> (id old < id row)%Z)
    /\ (sequence t < id row)%Z /\ sequence t' = id row
    /\ (forall limit,
           (limit <> 0)%Z ->
           get_recent limit t'
           = row :: get_recent (if (limit <? 0)%Z then limit else limit - 1)%Z t)
    /\ (forall limit,
           (limit <> 0)%Z ->
           by_session session limit t'
           = row :: by_session session
                               (if (limit <? 0)%Z then limit else limit - 1)%Z t)
    /\ (forall other limit,
           other <> session -> by_session other limit t' = by_session other limit t).
Proof.
  cbn zeta. unfold log. eexists. split; [reflexivity|].
  cbn [tool approval_level session_id result id rows sequence].
  destruct (largest_bound t) as [Hseq Hrows].
  assert (Hnew : forall old, In old (rows t) -> (id old < largest t + 1)%Z)
    by (intros old Hin; specialize (Hrows old Hin); lia).
  repeat (split; [reflexivity || lia || exact Hnew|]).
  split; [|split].
  - intros limit Hlimit. unfold get_recent. cbn [rows].
    rewrite newest_first_snoc by exact Hnew. now apply sql_limit_cons.
  - intros limit Hlimit. unfold by_session. cbn [rows].
    rewrite List.filter_app. cbn [List.filter session_id].
    rewrite String.eqb_refl, newest_first_snoc.
    + now apply sql_limit_cons.
    + intros row Hin. apply List.filter_In in Hin. apply Hnew. tauto.
  - intros other limit Hother. unfold by_session. cbn [rows].
    rewrite List.filter_app. cbn [List.filter session_id].
    replace (session =? other)%string with false; [now rewrite app_nil_r|].
    symmetry. apply String.eqb_neq. congruence.
Qed.

(** Two searches logged for one user. *)
Definition two_rows : Table :=
  log "2026-02-01T09:00:05" "LLM routed request" "search_arxiv"
      [("user_message", "MoS2 논문")] "3 papers" "AUTO" "" "42"
      (log "2026-02-01T09:00:00" "LLM routed request" "monitor_hpc_job"
           [("user_message", "계산 상태")] "running" "AUTO" "" "7" empty).

Lemma log_appends_witness :
  map tool (get_recent 1 two_rows) = ["search_arxiv"]
  /\ map id (get_recent (-1) two_rows) = [2; 1]%Z
  /\ map tool (by_session "7" 5 two_rows) = ["monitor_hpc_job"].
Proof.
  destruct (log_appends "2026-02-01T09:00:05" "LLM routed request" "search_arxiv"
                        [("user_message", "MoS2 논문")] "3 papers" "AUTO" "" "42"
                        (log "2026-02-01T09:00:00" "LLM routed request"
                             "monitor_hpc_job" [("user_message", "계산 상태")]
                             "running" "AUTO" "" "7" empty))
    as (row & _ & Htool & _ & _ & _ & _ & _ & _ & Hrecent & _ & Hother).
  fold two_rows in Hrecent, Hother.
  split; [|split].
  - rewrite (Hrecent 1%Z) by lia. cbn [map]. now rewrite Htool.
  - vm_compute. reflexivity.
  - rewrite (Hother "7" 5%Z) by discriminate. vm_compute. reflexivity.
Defined.

End TraceLogger.

(** ** The message handler of the bot ([polaris/bot_v2.py]) *)

Module Bot.
Import PyStr.

(** [s[:n]]: the first [n] characters of a text, a character being a
    lead byte with the continuation bytes that follow it. *)
Fixpoint take_lead (n : nat) (s : string) : string :=
  match s with
  | EmptyString => EmptyString
  | String c rest =>
    if Json.is_cont c then String c (take_lead n rest)
    else
      match n with
      | O => EmptyString
      | S n' => String c (take_lead n' rest)
      end
  end.

Definition take_chars (n : nat) (s : string) : string :=
  match n with
  | O => EmptyString
  | S _ => take_lead n s
  end.

(** A message of a conversation: [{"role": ..., "content": ...}]. *)
Record Entry := { role : string; content : string }.

(** [l[-n:]] for a positive [n] *)
Definition last_n {A} (n : nat) (l : list A) : list A := skipn (length l - n) l.

(** [context.user_data], as far as the handler reads it. *)
Record UserData := { awaiting_correction : bool; wrong_original : option string }.

(** A call of [feedback_manager.save_correction]. *)
Record Correction := {
  corr_session_id : string;
  original_response : string;
  user_correction : string;
  corr_category : string;
}.

Definition NO_RESPONSE : string := "I could not generate a response. Please try again.".
Definition CORRECTION_SAVED : string := "교정 내용을 저장했어! 다음부터 반영할게.".
Definition NO_FEEDBACK : string := "피드백 시스템이 초기화되지 않았어.".

Section Handler.

Context {World : Type}.

(** [self.router.route], run in a worker thread and awaited. *)
Variable route :
  string -> option (list (string * string)) -> string -> World -> Router.Run World.

(** [str(user_id)] *)
Variable str : Z -> string.

(** [datetime.utcnow().isoformat()] at the [i]-th [log] call of a turn. *)
Variable utcnow : nat -> string.

(** The notice for a command that reached the handler; it names the first
    word of the message. *)
Variable unknown_command : string -> string.

(** Whether the router has a feedback manager. *)
Variable feedback_manager : bool.

(** What the handler acts on: the conversations kept in memory, the
    audit trail, the corrections handed to the feedback manager, and the
    world of the router. *)
Record State := {
  conversations : gmap Z (list Entry);
  traces : TraceLogger.Table;
  corrections : list Correction;
  world : World;
}.

(** The loop [for tool_name in tools_used]. *)
Fixpoint log_tools (i : nat) (tools_used : list string)
         (user_message response_text session : string) (t : TraceLogger.Table)
  : TraceLogger.Table :=
  match tools_used with
  | [] => t
  | tool_name :: rest =>
    log_tools (S i) rest user_message response_text session
              (TraceLogger.log (utcnow i) "LLM routed request" tool_name
                               [("user_message", user_message)]
                               (take_chars 200 response_text) "AUTO" "" session t)
  end.

(** [handle_message]: the state and the user data afterwards, and the
    reply sent, or the exception that left [route].  The hot-reload check
    and the trigger of the mail poller, which come first, act on neither. *)
Definition handle_message (user_id : Z) (user_message : string)
           (user_data : UserData) (st : State) : State * UserData * Py string :=
  if String.prefix "/" user_message then
    (st, user_data, Ret (unknown_command user_message))
  else if awaiting_correction user_data then
    let user_data' := {| awaiting_correction := false; wrong_original := None |} in
    if feedback_manager then
      ({| conversations := conversations st; traces := traces st;
          corrections :=
            corrections st
            ++ [{| corr_session_id := str user_id;
                   original_response := default "" (wrong_original user_data);
                   user_correction := user_message;
                   corr_category := "manual" |}];
          world := world st |},
       user_data', Ret CORRECTION_SAVED)
    else (st, user_data', Ret NO_FEEDBACK)
  else
    let history := default [] (conversations st !! user_id) in
    let run :=
      route user_message (Some (map (fun e => (role e, content e)) history))
            (str user_id) (world st) in
    match Router.result run with
    | Exc cls e =>
      ({| conversations := conversations st; traces := traces st;
          corrections := corrections st; world := Router.world run |},
       user_data, Exc cls e)
    | Ret res =>
      let response_text := Router.response res in
      let history' :=
        history ++ [{| role := "user"; content := user_message |};
                    {| role := "assistant"; content := response_text |}] in
      ({| conversations := <[user_id := last_n 20 history']> (conversations st);
          traces := log_tools 0 (Router.tools_used res) user_message response_text
                              (str user_id) (traces st);
          corrections := corrections st;
          world := Router.world run |},
       user_data,
       Ret (if is_empty response_text then NO_RESPONSE else response_text))
    end.

(** A row that the handler writes for a tool. *)
Definition routed_row (user_id : Z) (user_message response_text : string)
           (row : TraceLogger.Trace) : Prop :=
  TraceLogger.thought row = "LLM routed request"
  /\ TraceLogger.args row = TraceLogger.dumps [("user_message", user_message)]
  /\ TraceLogger.result row = take_chars 200 response_text
  /\ TraceLogger.approval_level row = "AUTO"
  /\ TraceLogger.approved_by row = ""
  /\ TraceLogger.session_id row = str user_id.

Lemma log_tools_rows (tools_used : list string) (user_id : Z)
      (user_message response_text : string) :
  forall i t,
    exists new_rows,
      TraceLogger.rows (log_tools i tools_used user_message response_text
                                  (str user_id) t)
      = TraceLogger.rows t ++ new_rows
      /\ map TraceLogger.tool new_rows = tools_used
      /\ Forall (routed_row user_id user_message response_text) new_rows.
Proof.
  induction tools_used as [|tool_name rest IH]; intros i t; cbn [log_tools].
  - exists []. rewrite app_nil_r. repeat split. constructor.
  - destruct (IH (S i)
                 (TraceLogger.log (utcnow i) "LLM routed request" tool_name
                                  [("user_message", user_message)]
                                  (take_chars 200 response_text) "AUTO" ""
                                  (str user_id) t))
      as (new_rows & Hrows & Htools & Hall).
    eexists (_ :: new_rows). split; [|split].
    + rewrite Hrows. cbn [TraceLogger.log TraceLogger.rows].
      rewrite <- app_assoc. reflexivity.
    + cbn [map TraceLogger.tool]. now rewrite Htools.
    + constructor; [|exact Hall]. now repeat split.
Qed.

Lemma last_n_snoc2 {A} (n : nat) (l : list A) (a b : A) :
  last_n (S (S n)) (l ++ [a; b]) = last_n n l ++ [a; b].
Proof.
  unfold last_n. rewrite length_app, skipn_app. cbn [length].
  replace (length l + 2 - S (S n)) with (length l - n) by lia.
  replace (length l - n - length l) with 0 by lia. reflexivity.
Qed.

End Handler.

(** X24: a routed message (no command, no correction awaited) and the
    audit trail.  When [route] returns, the handler appends one row to the
    trail for every tool executed during the turn, in the order of
    execution; each row carries the approval level [AUTO], whatever the risk
    table of the approval gate says of the tool, the user's message as its
    arguments and the first 200 characters of the final response as its
    result.  The conversation kept for the user is the old one with the
    message and the response appended, cut to its last 20 entries.  When
    [route] raises, the exception leaves the handler, and neither the trail
    nor the conversation changes. *)
Theorem handle_message_trail {World Args : Type}
        (empty_args : Args) (json_loads : string -> option Args)
        (registry : option (gmap string (@Tools.Handler World Args)))
        (chat_completions_create :
           Router.Request -> World -> World * Router.Completion)
        (messages_create :
           Router.AnthropicRequest Args -> World -> World * Router.AnthropicCompletion Args)
        (_build_system_prompt : string -> bool -> World -> string)
        (post_turn :
           string -> option (list (string * string)) -> string ->
           Router.RouteResult -> World -> World)
        (cfg : Router.Config)
        (str : Z -> string) (utcnow : nat -> string)
        (unknown_command : string -> string) (feedback_manager : bool)
        (user_id : Z) (user_message : string) (user_data : UserData)
        (st : @State World) :
  String.prefix "/" user_message = false ->
  awaiting_correction user_data = false ->
  let route :=
    Router.route empty_args json_loads registry chat_completions_create
                 messages_create _build_system_prompt post_turn cfg in
  let history := default [] (conversations st !! user_id) in
  let run :=
    route user_message (Some (map (fun e => (role e, content e)) history))
          (str user_id) (world st) in
  let handled :=
    handle_message route str utcnow unknown_command feedback_manager
                   user_id user_message user_data st in
  let st' := fst (fst handled) in
  (forall res,
      Router.result run = Ret res ->
      (exists new_rows,
          TraceLogger.rows (traces st') = TraceLogger.rows (traces st) ++ new_rows
          /\ map TraceLogger.tool new_rows = map fst (Router.executed run)
          /\ Forall (routed_row str user_id user_message (Router.response res))
                    new_rows)
      /\ conversations st' !! user_id
         = Some (last_n 18 history
                 ++ [{| role := "user"; content := user_message |};
                     {| role := "assistant"; content := Router.response res |}])
      /\ (forall other, other <> user_id ->
                        conversations st' !! other = conversations st !! other)
      /\ snd handled
         = Ret (if is_empty (Router.response res) then NO_RESPONSE
                else Router.response res))
  /\ (forall cls e,
         Router.result run = Exc cls e ->
         traces st' = traces st /\ conversations st' = conversations st
         /\ snd handled = Exc cls e).
Proof.
  intros Hcommand Hawaiting. cbn zeta. unfold handle_message.
  rewrite Hcommand, Hawaiting.
  set (history := default [] (conversations st !! user_id)).
  set (run := Router.route empty_args json_loads registry chat_completions_create
                           messages_create _build_system_prompt post_turn cfg
                           user_message
                           (Some (map (fun e => (role e, content e)) history))
                           (str user_id) (world st)).
  assert (Hnames : forall res, Router.result run = Ret res ->
                               Router.tools_used res = map fst (Router.executed run)).
  { intros res. unfold run.
    destruct (Router.route_fields empty_args json_loads registry
                chat_completions_create messages_create _build_system_prompt
                post_turn cfg user_message
                (Some (map (fun e => (role e, content e)) history))
                (str user_id) (world st))
      as [(_ & Hr & _ & Hx & _) | (run0 & Hrun & _ & Hr & _ & Hx & _)];
      rewrite Hr, Hx.
    - intros H; inversion H; reflexivity.
    - subst run0. destruct (String.eqb (Router.backend cfg) "anthropic").
      + unfold Router._route_anthropic. apply Router.react_anthropic_spec. reflexivity.
      + apply Router.route_ollama_names. }
  split.
  - intros res Hres. rewrite Hres. cbn [fst snd traces conversations].
    split; [|split; [|split]].
    + rewrite <- (Hnames res Hres). apply log_tools_rows.
    + rewrite lookup_insert_eq. f_equal. apply (last_n_snoc2 18).
    + intros other Hother. now apply lookup_insert_ne.
    + reflexivity.
  - intros cls e Hexc. rewrite Hexc. cbn. repeat split.
Qed.

(** The paper turn of user 42, from an empty state. *)
Definition fresh : @State nat :=
  {| conversations := ∅; traces := TraceLogger.empty; corrections := []; world := 0 |}.

Definition user_name (user_id : Z) : string := "42".

Definition paper_turn : @State nat * UserData * Py string :=
  handle_message
    (Router.route [] Router.loads Router.arxiv_registry
                  (Router.scripted Router.arxiv_script) Router.no_anthropic
                  Router.plain_prompt Router.keep_world Router.arxiv_config)
    user_name (fun _ => "2026-02-01T09:00:00") (fun _ => "?") true
    42 "MoS2 논문 분석해줘"
    {| awaiting_correction := false; wrong_original := None |} fresh.

(** The search is on the trail as [AUTO], though the approval gate rates
    it [CONFIRM]. *)
Lemma handle_message_trail_witness :
  map TraceLogger.tool (TraceLogger.rows (traces (fst (fst paper_turn))))
  = ["search_arxiv"]
  /\ map TraceLogger.approval_level (TraceLogger.rows (traces (fst (fst paper_turn))))
     = ["AUTO"]
  /\ ApprovalGate.risk_of "search_arxiv" = ApprovalGate.CONFIRM
  /\ snd paper_turn = Ret Router.REFUSAL_NO_TOOL_RESULT.
Proof.
  destruct (handle_message_trail
              [] Router.loads Router.arxiv_registry
              (Router.scripted Router.arxiv_script) Router.no_anthropic
              Router.plain_prompt Router.keep_world Router.arxiv_config
              user_name (fun _ => "2026-02-01T09:00:00") (fun _ => "?") true
              42 "MoS2 논문 분석해줘"
              {| awaiting_correction := false; wrong_original := None |} fresh
              eq_refl eq_refl) as [Hret _].
  destruct (Hret {| Router.response := Router.REFUSAL_NO_TOOL_RESULT;
                    Router.tools_used := ["search_arxiv"] |})
    as ((new_rows & Hrows & Htools & Hall) & _ & _ & Hreply).
  - vm_compute. reflexivity.
  - fold paper_turn in Hrows, Hreply. rewrite Hrows. cbn [TraceLogger.rows fresh traces
                                                          TraceLogger.empty app].
    split; [rewrite Htools; vm_compute; reflexivity|].
    split; [|split; [vm_compute; reflexivity | exact Hreply]].
    destruct new_rows as [|row [|row' rest]]; try discriminate Htools.
    inversion Hall as [|? ? (_ & _ & _ & Hauto & _) _]; subst.
    cbn [map]. now rewrite Hauto.
Defined.

End Bot.
